(** * StableAudioAlarmWebUI: a shallow embedding of [gradio_app.py]

    The development follows the source file top to bottom:
    - [F32]: IEEE-754 binary32 arithmetic as used by the tensor pipeline
      of [generate_audio] (line 51), on the Standard Library's executable
      specification of floating point numbers;
    - [Tensor]: [rearrange], peak normalisation, clamp, scaling and the
      conversion to 16-bit integers;
    - [Text]: [re.sub(r'\W+', '_', prompt)], [str.split(':')], [int(str)],
      decimal formatting, [os.path.join] and base64;
    - [Py]: exceptions and a state-and-exception monad over the process
      environment (file system, clock, sleep log, model invocations);
    - [App]: [generate_audio] and [audio_generator];
    - [Stub], [Notions]: small concrete libraries for closed examples and
      the predicates the statements use. *)

From Stdlib Require Import ZArith Lia List Ascii String.
From Stdlib Require Import Strings.Byte.
From Stdlib Require Import Floats.SpecFloat.
From stdpp Require Import base option list gmap strings pretty.

Local Open Scope Z_scope.

(** ** Binary32 arithmetic *)

Module F32.

(** [torch.float32]: 24 bits of precision, infinities at exponent 128. *)
Definition prec : Z := 24.
Definition emax : Z := 128.

Abbreviation float32 := spec_float.

Definition of_Z (z : Z) : float32 := binary_normalize prec emax z 0 false.

Definition div (x y : float32) : float32 := SFdiv prec emax x y.
Definition mul (x y : float32) : float32 := SFmul prec emax x y.
Definition abs (x : float32) : float32 := SFabs x.
Definition is_zero (x : float32) : bool :=
  match x with S754_zero _ => true | _ => false end.

Definition is_finite (x : float32) : bool :=
  match x with S754_zero _ | S754_finite _ _ _ => true | _ => false end.

(** Binary maximum as [torch.max] reduces with it: a NaN operand makes
    the result NaN, otherwise the larger operand is kept. *)
Definition max (a b : float32) : float32 :=
  match SFcompare a b with
  | None => S754_nan
  | Some Lt => b
  | Some _ => a
  end.

(** [Tensor.clamp(lo, hi)] on one element: NaN stays NaN, anything below
    [lo] becomes [lo], anything above [hi] becomes [hi]. *)
Definition clamp (lo hi x : float32) : float32 :=
  match x with
  | S754_nan => S754_nan
  | _ => if SFltb x lo then lo else if SFltb hi x then hi else x
  end.

(** Integer part of a finite value, rounding toward zero. *)
Definition trunc (x : float32) : Z :=
  match x with
  | S754_finite s m e =>
      let a := match e with
               | Zneg p => Z.shiftr (Zpos m) (Zpos p)
               | _ => Z.shiftl (Zpos m) e
               end in
      if s then - a else a
  | _ => 0
  end.

(** Two's-complement wrap-around to 16 bits. *)
Definition wrap16 (z : Z) : Z := (z + 32768) mod 65536 - 32768.

(** [Tensor.to(torch.int16)] on one element.  A finite value is
    truncated toward zero (C conversion) and kept in 16 bits.  What a NaN
    or an infinity converts to is left open by the framework: it is the
    value [cast_nan] of the platform the tensor lives on. *)
Definition to_int16 (cast_nan : Z) (x : float32) : Z :=
  match x with
  | S754_nan | S754_infinity _ => cast_nan
  | _ => wrap16 (trunc x)
  end.

(** For comparison with the specification's wording only: rounding to
    the nearest integer (ties to even) instead of truncating. *)
Definition round_nearest (x : float32) : Z :=
  match x with
  | S754_finite s m e =>
      let a := match e with
               | Zneg p =>
                   let q := Z.shiftr (Zpos m) (Zpos p) in
                   let r := Z.land (Zpos m) (Z.ones (Zpos p)) in
                   let half := Z.shiftl 1 (Zpos p - 1) in
                   match r ?= half with
                   | Lt => q
                   | Gt => q + 1
                   | Eq => if Z.even q then q else q + 1
                   end
               | _ => Z.shiftl (Zpos m) e
               end in
      if s then - a else a
  | _ => 0
  end.

End F32.

(** ** The tensor pipeline of [generate_audio], lines 47-51 *)

Module Tensor.
Import F32.

(** A model output of shape (b, d, n): batches of channels of samples. *)
Definition tensor3 := list (list (list float32)).
(** A tensor of shape (d, n). *)
Definition tensor2 (A : Type) := list (list A).

Definition channels (t : tensor3) : nat :=
  match t with
  | [] => 0%nat
  | b :: _ => length b
  end.

Definition samples_per_batch (t : tensor3) : nat :=
  match t with
  | (c :: _) :: _ => length c
  | _ => 0%nat
  end.

(** A list of lists is a tensor when it is rectangular. *)
Definition rectangular (t : tensor3) : Prop :=
  Forall (fun b => length b = channels t
                   /\ Forall (fun c => length c = samples_per_batch t) b) t.

(** [rearrange(output, "b d n -> d (b n)")]: channel [d] of the result is
    the concatenation, batch after batch, of channel [d] of each batch. *)
Definition rearrange (t : tensor3) : tensor2 float32 :=
  map (fun d => concat (map (fun b => nth d b []) t)) (seq 0 (channels t)).

Definition elements {A} (t : tensor2 A) : list A := concat t.

(** [torch.max(torch.abs(output))]: the reduction over all elements;
    it has no value on an empty tensor, where torch raises. *)
Definition max_abs (t : tensor2 float32) : option float32 :=
  match map abs (elements t) with
  | [] => None
  | x :: xs => Some (fold_left F32.max xs x)
  end.

Definition one : float32 := of_Z 1.
Definition minus_one : float32 := of_Z (-1).
Definition full_scale : float32 := of_Z 32767.

(** The chain [.div(peak).clamp(-1, 1).mul(32767)] on one sample.  The
    model output is a float32 tensor, on which [.to(torch.float32)] changes
    nothing. *)
Definition scale_sample (peak x : float32) : float32 :=
  mul (clamp minus_one one (div x peak)) full_scale.

(** [.to(torch.int16)] after the chain. *)
Definition quantize_sample (cast_nan : Z) (peak x : float32) : Z :=
  to_int16 cast_nan (scale_sample peak x).

(** Line 51 as a whole, after [rearrange]; [None] where [torch.max]
    raises (no element). *)
Definition normalize (cast_nan : Z) (t : tensor2 float32) : option (tensor2 Z) :=
  match max_abs t with
  | None => None
  | Some peak => Some (map (map (quantize_sample cast_nan peak)) t)
  end.

(** The normalised floating point samples before quantisation, to speak
    about the intermediate values of line 51. *)
Definition normalized_floats (t : tensor2 float32) : option (tensor2 float32) :=
  match max_abs t with
  | None => None
  | Some peak => Some (map (map (fun x => div x peak)) t)
  end.

Definition post_process (cast_nan : Z) (raw : tensor3) : option (tensor2 Z) :=
  normalize cast_nan (rearrange raw).

(** The specification's per-sample quantiser: round to nearest. *)
Definition spec_quantize_sample (peak x : float32) : Z :=
  round_nearest (scale_sample peak x).

End Tensor.

(** ** Strings: the text operations used by the two functions *)

Module Text.

Definition code (c : ascii) : N := N_of_ascii c.

Definition between (lo hi : N) (c : ascii) : bool :=
  ((lo <=? code c) && (code c <=? hi))%N.

(** A Python [str] is a sequence of code points; the model keeps the code
    points below 256, one per [ascii]. *)

Definition is_digit (c : ascii) : bool := between 48 57 c.

(** The class [\w] of [re] on [str] patterns: letters, digits and the
    underscore; above 127 the alphanumeric code points of Latin-1. *)
Definition is_word (c : ascii) : bool :=
  is_digit c || between 65 90 c || between 97 122 c || (code c =? 95)%N
  || (code c =? 170)%N || (code c =? 178)%N || (code c =? 179)%N
  || (code c =? 181)%N || (code c =? 185)%N || (code c =? 186)%N
  || between 188 190 c || between 192 214 c || between 216 246 c
  || between 248 255 c.

Definition underscore : ascii := "_"%char.

(** [re.sub(r'\W+', '_', s)]: every maximal run of non-word characters
    becomes one underscore.  [in_run] tells that the previous character
    belonged to a run already replaced. *)
Fixpoint sub_nonword (in_run : bool) (s : string) : string :=
  match s with
  | EmptyString => EmptyString
  | String c r =>
      if is_word c then String c (sub_nonword false r)
      else if in_run then sub_nonword true r
      else String underscore (sub_nonword true r)
  end.

Definition re_sub_W (s : string) : string := sub_nonword false s.

(** [s.split(':')]: never empty, the empty string gives one empty field. *)
Fixpoint split_colon (s : string) : list string :=
  match s with
  | EmptyString => [EmptyString]
  | String c r =>
      if Ascii.eqb c ":" then EmptyString :: split_colon r
      else match split_colon r with
           | f :: fs => String c f :: fs
           | [] => [String c EmptyString]
           end
  end.

(** White space that [int(str)] skips at both ends. *)
Definition is_space (c : ascii) : bool :=
  between 9 13 c || (code c =? 32)%N || (code c =? 133)%N || (code c =? 160)%N.

Fixpoint lstrip (s : string) : string :=
  match s with
  | EmptyString => EmptyString
  | String c r => if is_space c then lstrip r else s
  end.

Definition strip (s : string) : string :=
  String.rev (lstrip (String.rev (lstrip s))).

Inductive last_seen := AtStart | AfterDigit | AfterUnderscore.

(** The digits of a base-10 literal: single underscores are allowed
    between digits only. *)
Fixpoint digits_value (last : last_seen) (acc : Z) (s : string) : option Z :=
  match s with
  | EmptyString =>
      match last with AfterDigit => Some acc | _ => None end
  | String c r =>
      if is_digit c then
        digits_value AfterDigit (10 * acc + (Z.of_N (code c) - 48)) r
      else if Ascii.eqb c underscore then
        match last with
        | AfterDigit => digits_value AfterUnderscore acc r
        | _ => None
        end
      else None
  end.

(** The number of decimal digits up to which the interpreter converts
    between [int] and [str] ([sys.int_info.default_max_str_digits]). *)
Definition max_str_digits : nat := 4300.

Fixpoint count_digits (s : string) : nat :=
  match s with
  | EmptyString => 0%nat
  | String c r => if is_digit c then S (count_digits r) else count_digits r
  end.

(** An unsigned literal: refused when it holds more digits than the
    interpreter converts (leading zeros count, underscores do not). *)
Definition unsigned_int (t : string) : option Z :=
  if (max_str_digits <? count_digits t)%nat then None
  else digits_value AtStart 0 t.

(** [int(s)] for a [str] argument; [None] where Python raises ValueError. *)
Definition python_int (s : string) : option Z :=
  match strip s with
  | String "+" r => unsigned_int r
  | String "-" r => Z.opp <$> unsigned_int r
  | t => unsigned_int t
  end.

(** Whether [str(n)] is within the digits the interpreter converts. *)
Definition fits_str_digits (n : Z) : bool := Z.abs n <? 10 ^ Z.of_nat max_str_digits.

(** [s[:-4]]: all but the last four characters. *)
Fixpoint take (n : nat) (s : string) : string :=
  match n, s with
  | S n', String c r => String c (take n' r)
  | _, _ => EmptyString
  end.

Definition drop_last4 (s : string) : string :=
  take (String.length s - 4) s.

(** [f"{counter}"] for an [int]. *)
Definition str_of_int (z : Z) : string := pretty z.

Definition starts_with_slash (s : string) : bool :=
  match s with String "/" _ => true | _ => false end.

Fixpoint ends_with_slash (s : string) : bool :=
  match s with
  | EmptyString => false
  | String c EmptyString => Ascii.eqb c "/"
  | String _ r => ends_with_slash r
  end.

(** [os.path.join(a, b)] with the POSIX separator. *)
Definition path_join (a b : string) : string :=
  if starts_with_slash b then b
  else if String.eqb a EmptyString || ends_with_slash a then a +:+ b
  else a +:+ "/" +:+ b.

(** *** Base64 (RFC 4648, with padding) *)

Definition b64_alphabet : string :=
  "ABCDEFGHIJKLMNOPQRSTUVWXYZabcdefghijklmnopqrstuvwxyz0123456789+/".

Definition b64_char (n : N) : ascii :=
  match String.get (N.to_nat n) b64_alphabet with
  | Some c => c
  | None => "="%char
  end.

Fixpoint index_from (i : N) (c : ascii) (s : string) : option N :=
  match s with
  | EmptyString => None
  | String d r => if Ascii.eqb c d then Some i else index_from (N.succ i) c r
  end.

Definition b64_index (c : ascii) : option N := index_from 0 c b64_alphabet.

Definition pad : ascii := "="%char.

Definition byte_of (n : N) : byte :=
  match Byte.of_N (n mod 256) with Some b => b | None => x00 end.

(** [base64.b64encode(data).decode("utf-8")] *)
Fixpoint b64encode (bs : list byte) : string :=
  match bs with
  | [] => EmptyString
  | [a] =>
      let a := Byte.to_N a in
      String (b64_char (a / 4))
        (String (b64_char (a mod 4 * 16))
           (String pad (String pad EmptyString)))
  | [a; b] =>
      let a := Byte.to_N a in
      let b := Byte.to_N b in
      String (b64_char (a / 4))
        (String (b64_char (a mod 4 * 16 + b / 16))
           (String (b64_char (b mod 16 * 4)) (String pad EmptyString)))
  | a :: b :: c :: r =>
      let a := Byte.to_N a in
      let b := Byte.to_N b in
      let c := Byte.to_N c in
      String (b64_char (a / 4))
        (String (b64_char (a mod 4 * 16 + b / 16))
           (String (b64_char (b mod 16 * 4 + c / 64))
              (String (b64_char (c mod 64)) (b64encode r))))
  end%N.

(** Decoding, as the receiver of the payload does it; [None] on text
    that is not padded base64. *)
Fixpoint b64decode (s : string) : option (list byte) :=
  match s with
  | EmptyString => Some []
  | String c1 (String c2 (String c3 (String c4 r))) =>
      if Ascii.eqb c4 pad then
        match r with
        | EmptyString =>
            if Ascii.eqb c3 pad then
              match b64_index c1, b64_index c2 with
              | Some v1, Some v2 => Some [byte_of (v1 * 4 + v2 / 16)]
              | _, _ => None
              end
            else
              match b64_index c1, b64_index c2, b64_index c3 with
              | Some v1, Some v2, Some v3 =>
                  Some [byte_of (v1 * 4 + v2 / 16);
                        byte_of (v2 mod 16 * 16 + v3 / 4)]
              | _, _, _ => None
              end
        | _ => None
        end
      else
        match b64_index c1, b64_index c2, b64_index c3, b64_index c4,
              b64decode r with
        | Some v1, Some v2, Some v3, Some v4, Some rest =>
            Some (byte_of (v1 * 4 + v2 / 16)
                  :: byte_of (v2 mod 16 * 16 + v3 / 4)
                  :: byte_of (v3 mod 4 * 64 + v4) :: rest)
        | _, _, _, _, _ => None
        end
  | _ => None
  end%N.

End Text.

(** ** Python values, exceptions and the process environment *)

Module Py.
Import Tensor.

(** A Python number as the sliders deliver it: [int] or [float]
    (binary64). *)
Inductive number :=
| Int (z : Z)
| Float (f : spec_float).

Definition float_of_Z (z : Z) : spec_float := binary_normalize 53 1024 z 0 false.

(** [lo <= n <= hi] in Python. *)
Definition num_between (lo hi : Z) (n : number) : bool :=
  match n with
  | Int z => (lo <=? z) && (z <=? hi)
  | Float f => SFleb (float_of_Z lo) f && SFleb f (float_of_Z hi)
  end.

(** One entry of the [conditioning] list, lines 27-31. *)
Record conditioning := Conditioning {
  cond_prompt : string;
  seconds_start : number;
  seconds_total : number }.

(** The keyword arguments of [generate_diffusion_cond], lines 34-45. *)
Record call_args := CallArgs {
  arg_steps : number;
  arg_cfg_scale : number;
  arg_conditioning : list conditioning;
  arg_sample_size : Z;
  arg_sigma_min : number;
  arg_sigma_max : number;
  arg_sampler_type : string;
  arg_device : string;
  arg_seed : number }.

(** An exception instance: its class and what [str(e)] gives. *)
Record exn := Exn { exn_class : string; exn_msg : string }.

Definition str (e : exn) : string := exn_msg e.

(** An [OSError] on a path, with the text the interpreter gives it. *)
Definition os_error (class : string) (errno : string) (what : string) (p : string) : exn :=
  Exn class ("[Errno " +:+ errno +:+ "] " +:+ what +:+ ": '" +:+ p +:+ "'").

(** How a computation ends: with a value, with an exception, or not at
    all. *)
Inductive outcome (A : Type) :=
| Ok (a : A)
| Raise (e : exn)
| Hang.
Arguments Ok {A} a.
Arguments Raise {A} e.
Arguments Hang {A}.

(** What the two functions can see and change outside themselves. *)
Record world := World {
  files : gmap string (list byte);  (* regular files and their content *)
  dirs : gset string;               (* directories *)
  locked : gset string;             (* paths the process may not create or write *)
  today : string;                   (* datetime.now().strftime("%Y-%m-%d") *)
  cuda_available : bool;            (* torch.cuda.is_available() *)
  invocations : list call_args;     (* model calls made so far, oldest first *)
  sleeps : list Z }.                (* completed time.sleep calls, oldest first *)

Definition set_files (f : gmap string (list byte)) (w : world) : world :=
  World f (dirs w) (locked w) (today w) (cuda_available w) (invocations w) (sleeps w).
Definition set_dirs (d : gset string) (w : world) : world :=
  World (files w) d (locked w) (today w) (cuda_available w) (invocations w) (sleeps w).
Definition log_invocation (a : call_args) (w : world) : world :=
  World (files w) (dirs w) (locked w) (today w) (cuda_available w)
        (invocations w ++ [a]) (sleeps w).
Definition log_sleep (n : Z) (w : world) : world :=
  World (files w) (dirs w) (locked w) (today w) (cuda_available w)
        (invocations w) (sleeps w ++ [n]).

(** State and exceptions: the effects of an exception's predecessors
    stay. *)
Definition M (A : Type) : Type := world -> outcome A * world.

#[global] Instance M_ret : MRet M := fun A (a : A) (w : world) => (Ok a, w).

#[global] Instance M_bind : MBind M :=
  fun A B (f : A -> M B) (m : M A) (w : world) =>
    match m w with
    | (Ok a, w') => f a w'
    | (Raise e, w') => (Raise e, w')
    | (Hang, w') => (Hang, w')
    end.

Definition raise {A} (e : exn) : M A := fun w => (Raise e, w).
Definition lift {A} (o : outcome A) : M A := fun w => (o, w).
Definition gets {A} (f : world -> A) : M A := fun w => (Ok (f w), w).
(** A call that reads the environment without changing it. *)
Definition observe {A} (f : world -> outcome A) : M A := fun w => (f w, w).
Definition modify (f : world -> world) : M unit := fun w => (Ok tt, f w).

(** [try: body  except <classes> as e: handler e] *)
Definition try_except {A} (body : M A) (catches : exn -> bool)
           (handler : exn -> M A) : M A :=
  fun w =>
    match body w with
    | (Raise e, w') => if catches e then handler e w' else (Raise e, w')
    | r => r
    end.

Definition is_ValueError (e : exn) : bool := String.eqb (exn_class e) "ValueError".
(** [except Exception]: every exception of the model is an [Exception];
    interpreter signals outside that class (KeyboardInterrupt, SystemExit)
    are not modelled. *)
Definition is_Exception (e : exn) : bool := true.

(** *** The file system *)

(** [os.path.exists] *)
Definition path_exists (w : world) (p : string) : bool :=
  bool_decide (p ∈ dom (files w)) || bool_decide (p ∈ dirs w).

(** Opening [p] for writing and writing [data]: the file is created or
    replaced.  The directory that holds [p] is taken to exist, as it does
    at both places where the program writes.  A write is refused before the
    file is opened or it completes: a device that fails in the middle of a
    write, and a name too long for the file system, are not modelled. *)
Definition write_file (p : string) (data : list byte) : M unit :=
  fun w =>
    if bool_decide (p ∈ dirs w) then
      (Raise (os_error "IsADirectoryError" "21" "Is a directory" p), w)
    else if bool_decide (p ∈ locked w) then
      (Raise (os_error "PermissionError" "13" "Permission denied" p), w)
    else (Ok tt, set_files (<[p := data]> (files w)) w).

Definition read_file (p : string) : M (list byte) :=
  fun w =>
    match files w !! p with
    | Some data => (Ok data, w)
    | None =>
        if bool_decide (p ∈ dirs w) then
          (Raise (os_error "IsADirectoryError" "21" "Is a directory" p), w)
        else
          (Raise (os_error "FileNotFoundError" "2" "No such file or directory" p), w)
    end.

(** The path itself preceded by its ancestors, outermost first:
    ["Output"; "Output/2024-05-01"] for "Output/2024-05-01". *)
Fixpoint ancestors_from (prefix rest : string) : list string :=
  match rest with
  | EmptyString => [prefix]
  | String c r =>
      if Ascii.eqb c "/" then prefix :: ancestors_from (prefix +:+ "/") r
      else ancestors_from (prefix +:+ String c EmptyString) r
  end.

Definition is_component (p : string) : bool :=
  negb (String.eqb p EmptyString) && negb (Text.ends_with_slash p).

Definition ancestors (p : string) : list string :=
  filter (fun q => is_component q = true) (ancestors_from EmptyString p).

(** [os.makedirs(p, exist_ok=True)]: the missing components are created
    outermost first; a component that is a regular file, or that may not
    be created, stops it with what was created so far left in place. *)
Fixpoint mkdir_each (ps : list string) : M unit :=
  match ps with
  | [] => mret tt
  | p :: rest =>
      fun w =>
        if bool_decide (p ∈ dirs w) then mkdir_each rest w
        else if bool_decide (p ∈ dom (files w)) then
          match rest with
          | [] => (Raise (os_error "FileExistsError" "17" "File exists" p), w)
          | q :: _ => (Raise (os_error "NotADirectoryError" "20" "Not a directory" q), w)
          end
        else if bool_decide (p ∈ locked w) then
          (Raise (os_error "PermissionError" "13" "Permission denied" p), w)
        else mkdir_each rest (set_dirs ({[p]} ∪ dirs w) w)
  end.

Definition makedirs (p : string) : M unit := mkdir_each (ancestors p).

(** *** [io.BytesIO] *)

Record bytesio := BytesIO { buffer : list byte; cursor : nat }.

Definition bytesio_new : bytesio := BytesIO [] 0.

Definition bytesio_write (data : list byte) (b : bytesio) : bytesio :=
  BytesIO (firstn (cursor b) (buffer b) ++ data
           ++ skipn (cursor b + length data) (buffer b))
          (cursor b + length data).

Definition bytesio_seek (pos : nat) (b : bytesio) : bytesio :=
  BytesIO (buffer b) pos.

(** [read()]: everything from the cursor on *)
Definition bytesio_read (b : bytesio) : list byte := skipn (cursor b) (buffer b).

(** What [str] raises on an [int] of more digits than it converts. *)
Definition digits_error : exn :=
  Exn "ValueError" "Exceeds the limit (4300 digits) for integer string conversion; use sys.set_int_max_str_digits() to increase the limit".

(** [str(n)] for an [int], as an f-string applies it. *)
Definition format_int (n : Z) : outcome string :=
  if Text.fits_str_digits n then Ok (Text.str_of_int n) else Raise digits_error.

(** The two refusals of [time.sleep]. *)
Definition sleep_overflow : exn :=
  Exn "OverflowError" "timestamp too large to convert to C _PyTime_t".
Definition negative_sleep : exn :=
  Exn "ValueError" "sleep length must be non-negative".

(** The largest number of seconds that is a 64-bit count of
    nanoseconds. *)
Definition max_sleep : Z := 9223372036.

(** [time.sleep(n)] for an [int] (CPython, 64-bit time): a length that
    is not a 64-bit count of nanoseconds is an OverflowError, a negative
    length a ValueError; otherwise it blocks for [n] seconds. *)
Definition time_sleep (n : Z) : M unit :=
  if (n <? - max_sleep) || (max_sleep <? n) then raise sleep_overflow
  else if n <? 0 then raise negative_sleep
  else modify (log_sleep n).

End Py.

(** ** The application: [generate_audio] and [audio_generator] *)

Module App.
Import Tensor Text Py.

(** The pretrained model and the tensor library, as the program uses
    them.  The model is a black box: it may read the environment, fail,
    and return any tensor. *)
Class Pretrained := {
  (** [get_pretrained_model(name)]: the model configuration *)
  get_pretrained_model : string -> world -> outcome (gmap string Z);
  (** [model.to(device)] *)
  model_to : string -> world -> outcome unit;
  (** [generate_diffusion_cond(model, ...)] *)
  generate_diffusion_cond : call_args -> world -> outcome tensor3;
  (** what [.to(torch.int16)] makes of a NaN on the given device *)
  cast_nan : string -> Z }.

(** The audio libraries.  Serialising and transcoding are functions of
    their input alone, as the specification takes the codec to be. *)
Class AudioLib := {
  segment : Type;
  (** the bytes [torchaudio.save] writes for a tensor and a sample rate *)
  wav_bytes : tensor2 Z -> Z -> outcome (list byte);
  (** [AudioSegment.from_wav] on the content of a file *)
  from_wav : list byte -> outcome segment;
  (** the bytes [audio.export(_, format="mp3")] produces *)
  export_mp3 : segment -> outcome (list byte) }.

(** The sliders of the interface, lines 127-132: the only numeric ranges
    the source states. *)
Record slider := Slider { minimum : Z; maximum : Z; value : number }.

Definition steps_slider := Slider 0 200 (Int 100).
Definition cfg_scale_slider := Slider 0 15 (Int 7).
Definition sigma_min_slider :=
  Slider 0 50 (Float (SFdiv 53 1024 (float_of_Z 3) (float_of_Z 10))).
Definition sigma_max_slider := Slider 0 1000 (Int 500).
Definition generation_time_slider := Slider 0 47 (Int 47).
Definition seed_slider := Slider (-1) 999999 (Int 77212).

Definition on_slider (s : slider) (n : number) : bool :=
  num_between (minimum s) (maximum s) n.

(** All six numeric fields inside the ranges of their sliders. *)
Definition in_supported_range
           (steps cfg_scale sigma_min sigma_max generation_time seed : number) : bool :=
  on_slider steps_slider steps && on_slider cfg_scale_slider cfg_scale
  && on_slider sigma_min_slider sigma_min && on_slider sigma_max_slider sigma_max
  && on_slider generation_time_slider generation_time && on_slider seed_slider seed.

Definition temp_wav : string := "temp_output.wav".

(** The candidate file names of lines 67-76: the base name first, then
    the base name without its extension followed by [_1], [_2], ... *)
Definition numbered (base_filename : string) (counter : Z) : string :=
  drop_last4 base_filename +:+ "_" +:+ str_of_int counter +:+ ".mp3".

(** The [while os.path.exists(full_path)] loop, lines 73-76, run for at
    most [fuel] iterations of its body. *)
Fixpoint probe (fuel : nat) (w : world) (save_path base_filename full_path : string)
         (counter : Z) : option string :=
  if path_exists w full_path then
    match fuel with
    | O => None
    | S fuel' =>
        let filename := numbered base_filename counter in
        let full_path := path_join save_path filename in
        probe fuel' w save_path base_filename full_path (counter + 1)
    end
  else Some full_path.

(** More iterations than there are paths in the file system. *)
Definition probe_fuel (w : world) : nat := S (size (dom (files w) ∪ dirs w)).

Definition while_exists (save_path base_filename full_path : string) (counter : Z)
  : M string :=
  fun w =>
    match probe (probe_fuel w) w save_path base_filename full_path counter with
    | Some p => (Ok p, w)
    | None => (Hang, w)
    end.

Section WithLibraries.
Context `{Pretrained} `{AudioLib}.

(** [model_config[key]]; the text of a KeyError is the [repr] of the
    key, which for a key without quote or backslash, as both keys of the
    program are, is the key between single quotes. *)
Definition getitem (d : gmap string Z) (key : string) : M Z :=
  match d !! key with
  | Some v => mret v
  | None => raise (Exn "KeyError" ("'" +:+ key +:+ "'"))
  end.

(** The model call of lines 34-45; the call is recorded. *)
Definition invoke_model (a : call_args) : M tensor3 :=
  fun w => (generate_diffusion_cond a w, log_invocation a w).

(** Line 51.  [torch.max] raises on a tensor without elements. *)
Definition peak_normalize (device : string) (t : tensor2 F32.float32) : M (tensor2 Z) :=
  match normalize (cast_nan device) t with
  | Some pcm => mret pcm
  | None => raise (Exn "RuntimeError" "max(): Expected reduction dim to be specified for input.numel() == 0. Specify the reduction dim with the 'dim' argument.")
  end.

(** [torchaudio.save(path, output, sample_rate)] *)
Definition torchaudio_save (path : string) (output : tensor2 Z) (sample_rate : Z)
  : M unit :=
  data ← lift (wav_bytes output sample_rate);
  write_file path data.

(** [AudioSegment.from_wav(path)] *)
Definition AudioSegment_from_wav (path : string) : M segment :=
  data ← read_file path;
  lift (from_wav data).

(** [audio.export(buffer, format="mp3")]: the encoded bytes go into the
    buffer, which is left rewound. *)
Definition export_to_buffer (audio : segment) (b : bytesio) : M bytesio :=
  data ← lift (export_mp3 audio);
  mret (bytesio_seek 0 (bytesio_write data (bytesio_seek 0 b))).

(** [audio.export(path, format="mp3")].  The encoder being a function
    of the audio, it does not fail here once [export_to_buffer] has
    succeeded on the same audio; what a failing encoder leaves at [path] is
    not modelled. *)
Definition export_to_path (audio : segment) (path : string) : M unit :=
  data ← lift (export_mp3 audio);
  write_file path data.

(** Lines 16-81. *)
Definition generate_audio (prompt : string)
           (steps cfg_scale sigma_min sigma_max generation_time seed : number)
           (sampler_type : string) : M (string * string) :=
  cuda ← gets cuda_available;
  let device := if cuda : bool then "cuda" else "cpu" in
  model_config ← observe (get_pretrained_model "audo/stable-audio-open-1.0");
  sample_rate ← getitem model_config "sample_rate";
  sample_size ← getitem model_config "sample_size";
  _ ← observe (model_to device);
  let conditioning := [Conditioning prompt (Int 0) generation_time] in
  output ← invoke_model
             (CallArgs steps cfg_scale conditioning sample_size sigma_min sigma_max
                       sampler_type device seed);
  let output := rearrange output in
  output ← peak_normalize device output;
  _ ← torchaudio_save temp_wav output sample_rate;
  audio ← AudioSegment_from_wav temp_wav;
  let audio_bytes := bytesio_new in
  audio_bytes ← export_to_buffer audio audio_bytes;
  let audio_bytes := bytesio_seek 0 audio_bytes in
  let output_folder := "Output" in
  date_folder ← gets today;
  let save_path := path_join output_folder date_folder in
  _ ← makedirs save_path;
  let filename := re_sub_W prompt +:+ ".mp3" in
  let full_path := path_join save_path filename in
  let base_filename := filename in
  full_path ← while_exists save_path base_filename full_path 1;
  _ ← export_to_path audio full_path;
  mret (full_path, b64encode (bytesio_read audio_bytes)).

Definition value_error (msg : string) : exn := Exn "ValueError" msg.

Definition bad_literal : exn := value_error "invalid literal for int() with base 10".

(** [hh, mm, ss = map(int, fields)]: the fields are converted one by
    one as the unpacking asks for them, up to a fourth. *)
Definition unpack3 (l : list (option Z)) : outcome (Z * Z * Z) :=
  match l with
  | [] => Raise (value_error "not enough values to unpack (expected 3, got 0)")
  | None :: _ => Raise bad_literal
  | [Some _] => Raise (value_error "not enough values to unpack (expected 3, got 1)")
  | Some _ :: None :: _ => Raise bad_literal
  | [Some _; Some _] =>
      Raise (value_error "not enough values to unpack (expected 3, got 2)")
  | Some _ :: Some _ :: None :: _ => Raise bad_literal
  | [Some hh; Some mm; Some ss] => Ok (hh, mm, ss)
  | Some _ :: Some _ :: Some _ :: None :: _ => Raise bad_literal
  | Some _ :: Some _ :: Some _ :: Some _ :: _ =>
      Raise (value_error "too many values to unpack (expected 3)")
  end.

(** The body of the inner [try], lines 99-100. *)
Definition wait_seconds_of (wait_time : string) : outcome Z :=
  match unpack3 (map python_int (split_colon wait_time)) with
  | Ok (hh, mm, ss) => Ok (hh * 3600 + mm * 60 + ss)
  | Raise e => Raise e
  | Hang => Hang
  end.

(** Lines 98-102: the inner [try] with its [except ValueError]. *)
Definition parse_wait (wait_time : string) : M Z :=
  try_except (lift (wait_seconds_of wait_time)) is_ValueError (fun _ => mret 0).

Definition dquote : string := String (ascii_of_nat 34) EmptyString.

Definition audio_player (audio_base64 : string) : string :=
  "<audio src=" +:+ dquote +:+ "data:audio/mpeg;base64," +:+ audio_base64
  +:+ dquote +:+ " controls autoplay></audio>".

(** Line 104: the f-string converts the number of seconds; the console
    itself is not modelled. *)
Definition print_waiting (wait_seconds : Z) : M unit :=
  _ ← lift (format_int wait_seconds);
  mret tt.

(** Lines 83-110.  The [print] calls of lines 85-93 write the arguments,
    as the form delivers them, to the console and are left out. *)
Definition audio_generator (prompt sampler_type : string)
           (steps cfg_scale sigma_min sigma_max generation_time seed : number)
           (wait_time : string) : M (string * string) :=
  try_except
    ('(filename, audio_base64) ←
       generate_audio prompt steps cfg_scale sigma_min sigma_max generation_time
                      seed sampler_type;
     wait_seconds ← parse_wait wait_time;
     _ ← print_waiting wait_seconds;
     _ ← time_sleep wait_seconds;
     mret (audio_player audio_base64, "Generated: " +:+ filename))
    is_Exception
    (fun e => mret (str e, EmptyString)).

End WithLibraries.

End App.

(** ** Stub libraries for closed examples *)

Module Stub.
Import Tensor Text Py App.

Definition le16 (z : Z) : list byte :=
  [byte_of (Z.to_N (z mod 256)); byte_of (Z.to_N ((z / 256) mod 256))].

Definition tone : tensor3 :=
  [[[F32.of_Z 4; F32.of_Z 1; F32.of_Z (-4); F32.of_Z (-3)];
    [F32.of_Z 2; F32.of_Z 0; F32.of_Z (-1); F32.of_Z 3]]].

(** A model that accepts every request and returns a fixed tensor. *)
#[local] Instance fixed_model : Pretrained := {
  get_pretrained_model _ _ := Ok (<["sample_rate" := 44100]> (<["sample_size" := 4]> ∅));
  model_to _ _ := Ok tt;
  generate_diffusion_cond _ _ := Ok tone;
  cast_nan _ := 0 }.

(** A model whose call fails. *)
#[local] Instance failing_model : Pretrained := {
  get_pretrained_model _ _ := Ok (<["sample_rate" := 44100]> (<["sample_size" := 4]> ∅));
  model_to _ _ := Ok tt;
  generate_diffusion_cond _ _ := Raise (Exn "RuntimeError" "CUDA out of memory");
  cast_nan _ := 0 }.

(** Audio libraries that keep the samples as little-endian bytes. *)
#[local] Instance raw_audio : AudioLib := {
  segment := list byte;
  wav_bytes t _ := Ok (concat (map le16 (elements t)));
  from_wav data := Ok data;
  export_mp3 data := Ok data }.

Definition empty_world : world := World ∅ ∅ ∅ "2024-05-01" false [] [].

(** A process that may not create the output folder. *)
Definition read_only_world : world := World ∅ ∅ {["Output"]} "2024-05-01" false [] [].

Definition with_files (ps : list string) (w : world) : world :=
  set_files (foldr (fun p m => <[p := []]> m) (files w) ps) w.

(** A model that returns a tensor without any sample. *)
#[local] Instance empty_model : Pretrained := {
  get_pretrained_model _ _ := Ok (<["sample_rate" := 44100]> (<["sample_size" := 4]> ∅));
  model_to _ _ := Ok tt;
  generate_diffusion_cond _ _ := Ok [];
  cast_nan _ := 0 }.

End Stub.

(** ** Predicates the statements below are phrased with *)

Module Notions.
Import Tensor Text Py App.

(** *** Wait times *)

Definition is_int_literal (f : string) : bool :=
  match python_int f with Some _ => true | None => false end.

(** Three colon-separated fields, each one an integer literal. *)
Definition well_formed_wait (s : string) : bool :=
  match split_colon s with
  | [a; b; c] => is_int_literal a && is_int_literal b && is_int_literal c
  | _ => false
  end.

(** *** Prompts *)

(** Alphanumeric: a word character other than the underscore. *)
Definition is_alnum (c : ascii) : bool := is_word c && negb (Ascii.eqb c underscore).

Fixpoint all_chars (p : ascii -> bool) (s : string) : bool :=
  match s with
  | EmptyString => true
  | String c r => p c && all_chars p r
  end.

Definition only_non_alnum (s : string) : bool := all_chars (fun c => negb (is_alnum c)) s.
Definition only_non_word (s : string) : bool := all_chars (fun c => negb (is_word c)) s.

(** *** The model call *)

Definition model_name : string := "audo/stable-audio-open-1.0".

(** Line 17. *)
Definition select_device (w : world) : string :=
  if cuda_available w then "cuda" else "cpu".

(** The arguments the model call of lines 34-45 is made with. *)
Definition model_call (prompt : string)
           (steps cfg_scale sigma_min sigma_max generation_time seed : number)
           (sampler_type : string) (sample_size : Z) (w : world) : call_args :=
  CallArgs steps cfg_scale [Conditioning prompt (Int 0) generation_time] sample_size
           sigma_min sigma_max sampler_type (select_device w) seed.

(** *** Paths *)

(** The paths the loop of lines 73-76 tries, in order: number 0 is the
    base path, number [n] above 0 carries the suffix [_n]. *)
Definition candidate (save_path base_filename : string) (n : nat) : string :=
  match n with
  | O => path_join save_path base_filename
  | S _ => path_join save_path (numbered base_filename (Z.of_nat n))
  end.

(** What distinguishes candidate number [n] from the others. *)
Definition suffix (n : nat) : string :=
  match n with
  | O => ".mp3"
  | S _ => "_" +:+ str_of_int (Z.of_nat n) +:+ ".mp3"
  end.

Definition occupied (w : world) : gset string := dom (files w) ∪ dirs w.

(** What the intermediate file holds, if it is there. *)
Definition temp_content (w : world) : option (list byte) := files w !! temp_wav.

(** *** Samples *)

(** All samples of a model output. *)
Definition samples (raw : tensor3) : list F32.float32 := concat (concat raw).

(** A magnitude: zero or a finite positive value. *)
Definition magnitude (x : F32.float32) : Prop :=
  match x with
  | S754_zero false | S754_finite false _ _ => True
  | _ => False
  end.

(** *** Frames *)

(** A computation keeps an observation of the environment when running
    it never changes that observation, however it ends. *)
Definition keeps {A X : Type} (obs : world -> X) (m : M A) : Prop :=
  forall w, obs (m w).2 = obs w.

(** A computation preserves a property of the environment when the
    property, once it holds, still holds after it, however it ends. *)
Definition preserves {A : Type} (P : world -> Prop) (m : M A) : Prop :=
  forall w, P w -> P (m w).2.

(** *** Calls that come back *)

(** A computation returns when it ends, with a value or an exception, in
    every environment. *)
Definition returns {A : Type} (m : M A) : Prop := forall w, (m w).1 <> Hang.

(** Libraries all of whose calls come back. *)
Definition libraries_return `{Pretrained} `{AudioLib} : Prop :=
  (forall name w, get_pretrained_model name w <> Hang)
  /\ (forall device w, model_to device w <> Hang)
  /\ (forall a w, generate_diffusion_cond a w <> Hang)
  /\ (forall t rate, wav_bytes t rate <> Hang)
  /\ (forall data, from_wav data <> Hang)
  /\ (forall audio, export_mp3 audio <> Hang).

(** *** More on wait times, payloads and samples *)

Fixpoint count_colons (s : string) : nat :=
  match s with
  | EmptyString => 0%nat
  | String c r => if Ascii.eqb c ":" then S (count_colons r) else count_colons r
  end.

(** [c * n]: the character repeated. *)
Fixpoint repeat_char (n : nat) (c : ascii) : string :=
  match n with
  | O => EmptyString
  | S n' => String c (repeat_char n' c)
  end.

(** A non-empty run of decimal digits. *)
Definition digits_only (s : string) : bool :=
  negb (String.eqb s EmptyString) && all_chars is_digit s.

(** A character of padded base64 text. *)
Definition is_b64_char (c : ascii) : bool :=
  match b64_index c with
  | Some _ => true
  | None => Ascii.eqb c pad
  end.

(** The sign bit of a sample. *)
Definition negative (x : F32.float32) : bool :=
  match x with
  | S754_zero s | S754_infinity s | S754_finite s _ _ => s
  | S754_nan => false
  end.

End Notions.

(** * Theorems *)

Import Tensor Text Py App Notions.

(** ** Wait-time parsing *)

Section WaitTime.

Lemma unpack3_cases (l : list (option Z)) :
  (exists hh mm ss, l = [Some hh; Some mm; Some ss] /\ unpack3 l = Ok (hh, mm, ss))
  \/ (exists e, unpack3 l = Raise e /\ is_ValueError e = true).
Proof.
  destruct l as [|[x|] [|[y|] [|[z|] [|[u|] l]]]]; simpl; eauto 6.
Qed.

Lemma parse_wait_total (s : string) (w : world) :
  exists n, parse_wait s w = (Ok n, w).
Proof.
  unfold parse_wait, try_except, lift, wait_seconds_of.
  destruct (unpack3_cases (map python_int (split_colon s)))
    as [(hh & mm & ss & _ & ->)|(e & -> & He)].
  - eauto.
  - rewrite He. eauto.
Qed.

Lemma parse_wait_malformed (s : string) (w : world) :
  well_formed_wait s = false -> parse_wait s w = (Ok 0, w).
Proof.
  unfold well_formed_wait, is_int_literal. intros Hbad.
  unfold parse_wait, try_except, lift, wait_seconds_of.
  destruct (unpack3_cases (map python_int (split_colon s)))
    as [(hh & mm & ss & Hl & _)|(e & -> & He)].
  - exfalso.
    destruct (split_colon s) as [|a [|b [|c [|d l]]]]; try discriminate.
    injection Hl as Ha Hb Hc. rewrite Ha, Hb, Hc in Hbad. discriminate.
  - rewrite He. reflexivity.
Qed.

Lemma parse_wait_well_formed (s a b c : string) (hh mm ss : Z) (w : world) :
  split_colon s = [a; b; c] ->
  python_int a = Some hh -> python_int b = Some mm -> python_int c = Some ss ->
  parse_wait s w = (Ok (hh * 3600 + mm * 60 + ss), w).
Proof.
  intros Hs Ha Hb Hc.
  unfold parse_wait, try_except, lift, wait_seconds_of.
  rewrite Hs. simpl. rewrite Ha, Hb, Hc. reflexivity.
Qed.

End WaitTime.

(** C5.  The wait-time parser gives 300 for "00:05:00" and 3600 for
    "01:00:00"; on "abc", "5:" and the empty string it gives 0; on every
    string that is not three colon-separated integer literals it gives 0;
    and on every string whatsoever it returns a number, leaving the
    environment as it was: no exception leaves the parsing block. *)
Theorem C5_wait_time_parsing (w : world) :
  parse_wait "00:05:00" w = (Ok 300, w)
  /\ parse_wait "01:00:00" w = (Ok 3600, w)
  /\ parse_wait "abc" w = (Ok 0, w)
  /\ parse_wait "5:" w = (Ok 0, w)
  /\ parse_wait "" w = (Ok 0, w)
  /\ (forall s, well_formed_wait s = false -> parse_wait s w = (Ok 0, w))
  /\ (forall s, exists n, parse_wait s w = (Ok n, w)).
Proof.
  repeat split; try reflexivity.
  - intros s. apply parse_wait_malformed.
  - intros s. apply parse_wait_total.
Qed.

Lemma C5_witness :
  well_formed_wait "12:60" = false
  /\ parse_wait "12:60" Stub.empty_world = (Ok 0, Stub.empty_world).
Proof.
  split; [reflexivity|].
  apply (proj1 (proj2 (proj2 (proj2 (proj2 (proj2 (C5_wait_time_parsing Stub.empty_world))))))).
  reflexivity.
Defined.

(** ** Filename sanitisation *)

Section Sanitize.

Lemma sub_nonword_word_only (b : bool) (s : string) :
  all_chars is_word (sub_nonword b s) = true.
Proof.
  revert b. induction s as [|c r IH]; intros b; simpl; [reflexivity|].
  destruct (is_word c) eqn:Hc; simpl.
  - rewrite Hc. apply IH.
  - destruct b; simpl; apply IH.
Qed.

Lemma sub_nonword_fixes_words (b : bool) (s : string) :
  all_chars is_word s = true -> sub_nonword b s = s.
Proof.
  revert b. induction s as [|c r IH]; intros b; simpl; [reflexivity|].
  intros [Hc Hr]%andb_prop. rewrite Hc. f_equal. apply IH, Hr.
Qed.

Lemma re_sub_W_idempotent (s : string) : re_sub_W (re_sub_W s) = re_sub_W s.
Proof. apply sub_nonword_fixes_words, sub_nonword_word_only. Qed.

Lemma sub_nonword_run (s : string) :
  only_non_word s = true -> sub_nonword true s = EmptyString.
Proof.
  induction s as [|c r IH]; simpl; [reflexivity|].
  intros [Hc Hr]%andb_prop. apply negb_true_iff in Hc. rewrite Hc. apply IH, Hr.
Qed.

Lemma re_sub_W_non_word (s : string) :
  s <> EmptyString -> only_non_word s = true -> re_sub_W s = "_".
Proof.
  destruct s as [|c r]; [congruence|]. intros _. simpl.
  intros [Hc Hr]%andb_prop. apply negb_true_iff in Hc.
  unfold re_sub_W. simpl. rewrite Hc. f_equal. apply sub_nonword_run, Hr.
Qed.

Lemma underscores_are_words (s : string) :
  all_chars (Ascii.eqb underscore) s = true -> all_chars is_word s = true.
Proof.
  induction s as [|c r IH]; cbn [all_chars]; [reflexivity|].
  intros [Hc Hr]%andb_prop. apply Ascii.eqb_eq in Hc as <-.
  rewrite IH by exact Hr. reflexivity.
Qed.

End Sanitize.

(** C6, as the code has it.  The sanitiser [re.sub(r'\W+', '_', prompt)]
    is a total function and idempotent; every non-empty prompt made only of
    characters that are neither alphanumeric nor underscores becomes the
    single token "_"; the empty prompt becomes the empty stem, so that the
    file name is ".mp3"; underscores count as word characters and a prompt
    made of underscores is kept unchanged. *)
Theorem C6_sanitize_idempotent :
  (forall s, re_sub_W (re_sub_W s) = re_sub_W s)
  /\ (forall s, s <> EmptyString -> only_non_word s = true -> re_sub_W s = "_")
  /\ re_sub_W "" +:+ ".mp3" = ".mp3"
  /\ (forall s, all_chars (Ascii.eqb underscore) s = true -> re_sub_W s = s).
Proof.
  split; [exact re_sub_W_idempotent|].
  split; [exact re_sub_W_non_word|].
  split; [reflexivity|].
  intros s Hs. apply sub_nonword_fixes_words, underscores_are_words, Hs.
Qed.

Lemma C6_witness :
  only_non_word "?! ..." = true /\ re_sub_W "?! ..." = "_".
Proof.
  split; [reflexivity|].
  apply (proj1 (proj2 C6_sanitize_idempotent)); [discriminate|reflexivity].
Defined.

(** C6 as stated fails: the empty prompt consists of non-alphanumeric
    characters only and its stem is empty; and the prompts "__" and "!"
    consist of non-alphanumeric characters only and get different stems, so
    there is no single placeholder. *)
Lemma C6_empty_prompt_has_empty_stem :
  only_non_alnum "" = true /\ re_sub_W "" = ""
  /\ only_non_alnum "__" = true /\ re_sub_W "__" = "__"
  /\ only_non_alnum "!" = true /\ re_sub_W "!" = "_"
  /\ ~ (exists token, token <> EmptyString
                      /\ forall s, only_non_alnum s = true -> re_sub_W s = token).
Proof.
  repeat split; try reflexivity.
  intros (token & Hne & Htok). apply Hne. symmetry. apply (Htok ""). reflexivity.
Qed.

(** ** Reasoning about the monad *)

Section MonadLaws.
Context {A B : Type}.
Implicit Types (m : M A) (f : A -> M B) (w : world).

Lemma bind_unfold m f w :
  (m ≫= f) w = match m w with
               | (Ok a, w') => f a w'
               | (Raise e, w') => (Raise e, w')
               | (Hang, w') => (Hang, w')
               end.
Proof. reflexivity. Qed.

Lemma bind_ok m f w a w1 : m w = (Ok a, w1) -> (m ≫= f) w = f a w1.
Proof. intros Hm. rewrite bind_unfold, Hm. reflexivity. Qed.

Lemma bind_raise m f w e w1 : m w = (Raise e, w1) -> (m ≫= f) w = (Raise e, w1).
Proof. intros Hm. rewrite bind_unfold, Hm. reflexivity. Qed.

Lemma bind_ok_inv m f w b w' :
  (m ≫= f) w = (Ok b, w') -> exists a w1, m w = (Ok a, w1) /\ f a w1 = (Ok b, w').
Proof.
  rewrite bind_unfold. destruct (m w) as [[a|e|] w1]; try discriminate. eauto.
Qed.

Lemma bind_raise_inv m f w e w' :
  (m ≫= f) w = (Raise e, w') ->
  m w = (Raise e, w') \/ exists a w1, m w = (Ok a, w1) /\ f a w1 = (Raise e, w').
Proof.
  rewrite bind_unfold. destruct (m w) as [[a|e0|] w1]; intros Hf;
    try discriminate; [right; eauto|left; congruence].
Qed.

End MonadLaws.

Section Keeps.
Context {X : Type} (obs : world -> X).

Lemma keeps_ret {A} (a : A) : keeps obs (mret a).
Proof. intros w. reflexivity. Qed.

Lemma keeps_raise {A} (e : exn) : keeps obs (@raise A e).
Proof. intros w. reflexivity. Qed.

Lemma keeps_lift {A} (o : outcome A) : keeps obs (lift o).
Proof. intros w. reflexivity. Qed.

Lemma keeps_gets {A} (f : world -> A) : keeps obs (gets f).
Proof. intros w. reflexivity. Qed.

Lemma keeps_observe {A} (f : world -> outcome A) : keeps obs (observe f).
Proof. intros w. reflexivity. Qed.

Lemma keeps_bind {A B} (m : M A) (f : A -> M B) :
  keeps obs m -> (forall a, keeps obs (f a)) -> keeps obs (m ≫= f).
Proof.
  intros Hm Hf w. rewrite bind_unfold. specialize (Hm w).
  destruct (m w) as [[a|e|] w1]; simpl in *; try exact Hm.
  rewrite Hf. exact Hm.
Qed.

(** The same when what follows keeps the observation only for the
    results the first part can give. *)
Lemma keeps_bind_post {A B} (P : A -> Prop) (m : M A) (f : A -> M B) :
  keeps obs m -> (forall w a w1, m w = (Ok a, w1) -> P a) ->
  (forall a, P a -> keeps obs (f a)) -> keeps obs (m ≫= f).
Proof.
  intros Hm HP Hf w. rewrite bind_unfold. specialize (Hm w). specialize (HP w).
  destruct (m w) as [[a|e|] w1]; simpl in *; try exact Hm.
  rewrite Hf by eauto. exact Hm.
Qed.

Lemma keeps_try_except {A} (body : M A) (catches : exn -> bool) (handler : exn -> M A) :
  keeps obs body -> (forall e, keeps obs (handler e)) ->
  keeps obs (try_except body catches handler).
Proof.
  intros Hb Hh w. unfold try_except. specialize (Hb w).
  destruct (body w) as [[a|e|] w1]; simpl in *; try exact Hb.
  destruct (catches e); simpl; [rewrite Hh|]; exact Hb.
Qed.

(** Operations on files and directories keep what does not read them. *)
Hypothesis obs_files : forall f w, obs (set_files f w) = obs w.

Lemma keeps_write_file (p : string) (data : list byte) : keeps obs (write_file p data).
Proof.
  intros w. unfold write_file. repeat case_bool_decide; simpl; auto.
Qed.

Lemma keeps_read_file (p : string) : keeps obs (read_file p).
Proof.
  intros w. unfold read_file. destruct (files w !! p); [reflexivity|].
  case_bool_decide; reflexivity.
Qed.

Lemma keeps_while_exists (save_path base full_path : string) (counter : Z) :
  keeps obs (while_exists save_path base full_path counter).
Proof. intros w. unfold while_exists. destruct (probe _ _ _ _ _ _); reflexivity. Qed.

End Keeps.

Lemma keeps_mkdir_each {X} (obs : world -> X) (ps : list string) :
  (forall d w, obs (set_dirs d w) = obs w) -> keeps obs (mkdir_each ps).
Proof.
  intros Hobs. induction ps as [|p ps IH]; intros w; [reflexivity|].
  cbn [mkdir_each]. repeat case_bool_decide.
  - apply IH.
  - destruct ps; reflexivity.
  - reflexivity.
  - rewrite IH. apply Hobs.
Qed.

Lemma keeps_makedirs {X} (obs : world -> X) (p : string) :
  (forall d w, obs (set_dirs d w) = obs w) -> keeps obs (makedirs p).
Proof. apply keeps_mkdir_each. Qed.

Create HintDb keeps.
#[local] Hint Resolve keeps_ret keeps_raise keeps_lift keeps_gets keeps_observe
  keeps_write_file keeps_read_file keeps_while_exists keeps_makedirs
  keeps_try_except : keeps.

(** Decompose a sequence of binds, leaving the steps to the hints. *)
Ltac keeps_steps :=
  repeat first
    [ progress intros
    | apply keeps_bind
    | solve [eauto with keeps] ].

#[local] Hint Extern 0 (_ = _) => reflexivity : keeps.

(** ** The steps of [generate_audio] *)

Section Steps.
Context `{Pretrained} `{AudioLib}.
Context {X : Type} (obs : world -> X).

Lemma keeps_getitem (d : gmap string Z) (key : string) : keeps obs (getitem d key).
Proof. unfold getitem. destruct (d !! key); eauto with keeps. Qed.

Lemma keeps_peak_normalize (device : string) (t : tensor2 F32.float32) :
  keeps obs (peak_normalize device t).
Proof. unfold peak_normalize. destruct (normalize _ _); eauto with keeps. Qed.

Lemma keeps_export_to_buffer (audio : segment) (b : bytesio) :
  keeps obs (export_to_buffer audio b).
Proof. unfold export_to_buffer. keeps_steps. Qed.

Lemma keeps_time_sleep_files (n : Z) :
  (forall k w, obs (log_sleep k w) = obs w) -> keeps obs (time_sleep n).
Proof.
  intros Hobs w. unfold time_sleep.
  destruct ((n <? - max_sleep) || (max_sleep <? n)); [reflexivity|].
  destruct (n <? 0); [reflexivity|]. apply Hobs.
Qed.

Lemma keeps_print_waiting (n : Z) : keeps obs (print_waiting n).
Proof. unfold print_waiting. keeps_steps. Qed.

Hypothesis obs_files : forall f w, obs (set_files f w) = obs w.

Lemma keeps_torchaudio_save (path : string) (output : tensor2 Z) (rate : Z) :
  keeps obs (torchaudio_save path output rate).
Proof. unfold torchaudio_save. keeps_steps. Qed.

Lemma keeps_from_wav (path : string) : keeps obs (AudioSegment_from_wav path).
Proof. unfold AudioSegment_from_wav. keeps_steps. Qed.

Lemma keeps_export_to_path (audio : segment) (path : string) :
  keeps obs (export_to_path audio path).
Proof. unfold export_to_path. keeps_steps. Qed.

End Steps.

#[local] Hint Resolve keeps_getitem keeps_peak_normalize keeps_export_to_buffer
  keeps_print_waiting keeps_torchaudio_save keeps_from_wav keeps_export_to_path : keeps.


(** ** Requests outside the supported ranges *)

(** C2, as the code has it.  [generate_audio] checks no numeric field
    against any range and changes none: whatever the values of steps,
    cfg_scale, sigma_min, sigma_max, generation_time and seed, once the
    model is loaded the model call is made, exactly once, with the request's
    values as they were given; the request fails there only if the model
    call itself raises, and then with the model's exception. *)
Theorem C2_request_reaches_model_unchecked `{Pretrained} `{AudioLib}
        (prompt sampler_type : string)
        (steps cfg_scale sigma_min sigma_max generation_time seed : number)
        (w : world) (config : gmap string Z) (rate size : Z) :
  get_pretrained_model model_name w = Ok config ->
  config !! "sample_rate" = Some rate ->
  config !! "sample_size" = Some size ->
  model_to (select_device w) w = Ok tt ->
  invocations (generate_audio prompt steps cfg_scale sigma_min sigma_max
                              generation_time seed sampler_type w).2
  = invocations w ++ [model_call prompt steps cfg_scale sigma_min sigma_max
                                 generation_time seed sampler_type size w]
  /\ (forall e,
         generate_diffusion_cond
           (model_call prompt steps cfg_scale sigma_min sigma_max
                       generation_time seed sampler_type size w) w = Raise e ->
         generate_audio prompt steps cfg_scale sigma_min sigma_max
                        generation_time seed sampler_type w
         = (Raise e,
            log_invocation (model_call prompt steps cfg_scale sigma_min sigma_max
                                       generation_time seed sampler_type size w) w)).
Proof.
  intros Hconfig Hrate Hsize Hto.
  set (args := model_call prompt steps cfg_scale sigma_min sigma_max generation_time
                          seed sampler_type size w).
  assert (exists rest : tensor3 -> M (string * string),
             (forall raw, keeps invocations (rest raw))
             /\ generate_audio prompt steps cfg_scale sigma_min sigma_max generation_time
                               seed sampler_type w
                = (invoke_model args ≫= rest) w)
    as (rest & Hrest & ->).
  { eexists. split; cycle 1.
    - unfold generate_audio.
      rewrite bind_unfold. unfold gets at 1.
      rewrite bind_unfold. unfold observe at 1. fold model_name. rewrite Hconfig.
      rewrite bind_unfold. unfold getitem at 1. rewrite Hrate.
      unfold mret at 1, M_ret at 1.
      rewrite bind_unfold. unfold getitem at 1. rewrite Hsize.
      unfold mret at 1, M_ret at 1.
      rewrite bind_unfold. unfold observe at 1. fold (select_device w). rewrite Hto.
      reflexivity.
    - intros raw. cbv beta. keeps_steps. }
  rewrite bind_unfold. unfold invoke_model.
  split.
  - destruct (generate_diffusion_cond args w) as [raw|e|]; try reflexivity.
    rewrite Hrest. reflexivity.
  - intros e ->. reflexivity.
Qed.

Lemma C2_witness :
  invocations (@generate_audio Stub.fixed_model Stub.raw_audio "rain"
                 (Int 1000) (Int 7) (Int 1) (Int 500) (Int 47) (Int 42) "k-lms"
                 Stub.empty_world).2
  = [CallArgs (Int 1000) (Int 7) [Conditioning "rain" (Int 0) (Int 47)] 4
              (Int 1) (Int 500) "k-lms" "cpu" (Int 42)].
Proof.
  apply (@C2_request_reaches_model_unchecked Stub.fixed_model Stub.raw_audio
           "rain" "k-lms" (Int 1000) (Int 7) (Int 1) (Int 500) (Int 47) (Int 42)
           Stub.empty_world
           (<["sample_rate" := 44100]> (<["sample_size" := 4]> ∅)) 44100 4);
    reflexivity.
Defined.

(** C2 as stated fails: a request with every numeric field outside the
    range of its slider (negative steps, sigma_min above sigma_max, ...) is
    neither rejected nor clamped; with a model that accepts it, it is
    carried out to the end and the model has received the values as given. *)
Lemma C2_out_of_range_request_is_generated :
  in_supported_range (Int (-5)) (Int 1000) (Int 60) (Int (-1)) (Int 10000) (Int (-7)) = false
  /\ on_slider steps_slider (Int (-5)) = false
  /\ (@generate_audio Stub.fixed_model Stub.raw_audio "Test Tone!!"
        (Int (-5)) (Int 1000) (Int 60) (Int (-1)) (Int 10000) (Int (-7)) "k-lms"
        Stub.empty_world).1
     = Ok ("Output/2024-05-01/Test_Tone_.mp3", "/3//HwGAAaD/PwAAAeD/Xw==")
  /\ invocations
       (@generate_audio Stub.fixed_model Stub.raw_audio "Test Tone!!"
          (Int (-5)) (Int 1000) (Int 60) (Int (-1)) (Int 10000) (Int (-7)) "k-lms"
          Stub.empty_world).2
     = [CallArgs (Int (-5)) (Int 1000) [Conditioning "Test Tone!!" (Int 0) (Int 10000)]
                 4 (Int 60) (Int (-1)) "k-lms" "cpu" (Int (-7))].
Proof. repeat split; vm_compute; reflexivity. Qed.

(** ** Errors at the invocation surface *)

Section Surface.
Context `{Pretrained} `{AudioLib}.
Variables (prompt sampler_type : string).
Variables (steps cfg_scale sigma_min sigma_max generation_time seed : number).
Variable (wait_time : string).

Let generate := generate_audio prompt steps cfg_scale sigma_min sigma_max
                               generation_time seed sampler_type.
Let surface := audio_generator prompt sampler_type steps cfg_scale sigma_min
                               sigma_max generation_time seed wait_time.

Lemma surface_after_failure (w w' : world) (e : exn) :
  generate w = (Raise e, w') -> surface w = (Ok (str e, EmptyString), w').
Proof.
  intros Hgen. unfold surface, audio_generator, try_except.
  rewrite bind_unfold. fold generate. rewrite Hgen. reflexivity.
Qed.

Lemma surface_never_raises (w w' : world) (e : exn) : surface w <> (Raise e, w').
Proof.
  unfold surface, audio_generator, try_except.
  match goal with |- (match ?body w with _ => _ end) <> _ =>
    destruct (body w) as [[r|e0|] w1] end; simpl; discriminate.
Qed.

Lemma surface_after_success (w w' : world) (filename payload : string) (total : Z) :
  generate w = (Ok (filename, payload), w') ->
  parse_wait wait_time w' = (Ok total, w') ->
  surface w =
  if negb (fits_str_digits total) then (Ok (str digits_error, EmptyString), w')
  else if (total <? - max_sleep) || (max_sleep <? total) then
    (Ok (str sleep_overflow, EmptyString), w')
  else if total <? 0 then (Ok (str negative_sleep, EmptyString), w')
  else (Ok (audio_player payload, "Generated: " +:+ filename), log_sleep total w').
Proof.
  intros Hgen Hwait. unfold surface, audio_generator, try_except.
  rewrite bind_unfold. fold generate. rewrite Hgen.
  rewrite bind_unfold, Hwait. rewrite bind_unfold.
  unfold print_waiting. rewrite bind_unfold. unfold lift, format_int.
  destruct (fits_str_digits total); [|reflexivity].
  cbn [negb]. change (@mret M _ unit tt w') with (Ok tt, w'). cbv iota beta.
  rewrite bind_unfold.
  unfold time_sleep.
  destruct ((total <? - max_sleep) || (max_sleep <? total)); [reflexivity|].
  destruct (total <? 0); reflexivity.
Qed.

End Surface.

(** A number of seconds that [time.sleep] can represent is within the
    digits [str] converts. *)
Lemma sleep_range_fits (n : Z) :
  - max_sleep <= n <= max_sleep -> fits_str_digits n = true.
Proof.
  intros Hn. unfold fits_str_digits, max_str_digits. apply Z.ltb_lt.
  assert (10 ^ 10 <= 10 ^ Z.of_nat 4300) as Hpow
    by (apply Z.pow_le_mono_r; lia).
  change (10 ^ 10) with 10000000000 in Hpow. unfold max_sleep in Hn. lia.
Qed.

(** What [time.sleep] accepts. *)
Lemma time_sleep_ok_inv (n : Z) (w w' : world) :
  time_sleep n w = (Ok tt, w') -> 0 <= n <= max_sleep /\ w' = log_sleep n w.
Proof.
  unfold time_sleep.
  destruct (Z.ltb_spec n (- max_sleep)); [discriminate|].
  destruct (Z.ltb_spec max_sleep n); [discriminate|]. cbn [orb].
  destruct (Z.ltb_spec n 0); [discriminate|].
  intros Heq. injection Heq as <-. split; [lia|reflexivity].
Qed.



(** A failure while persisting: the output folder cannot be created.  The
    caller gets the text of the error, and the intermediate file of the
    aborted request is left behind. *)
Example persistence_failure_is_reported :
  (@audio_generator Stub.fixed_model Stub.raw_audio "rain" "k-lms"
     (Int 100) (Int 7) (Int 1) (Int 500) (Int 47) (Int 42) "00:00:05"
     Stub.read_only_world).1
  = Ok ("[Errno 13] Permission denied: 'Output'", EmptyString)
  /\ is_Some (temp_content
                (@audio_generator Stub.fixed_model Stub.raw_audio "rain" "k-lms"
                   (Int 100) (Int 7) (Int 1) (Int 500) (Int 47) (Int 42) "00:00:05"
                   Stub.read_only_world).2).
Proof. split; vm_compute; eauto. Qed.

(** A request that goes through: the fragment embeds the payload, the
    status names the file, and the wait has been slept. *)
Example successful_request :
  @audio_generator Stub.fixed_model Stub.raw_audio "rain" "k-lms"
    (Int 100) (Int 7) (Int 1) (Int 500) (Int 47) (Int 42) "00:00:05" Stub.empty_world
  = (Ok (audio_player "/3//HwGAAaD/PwAAAeD/Xw==", "Generated: Output/2024-05-01/rain.mp3"),
     log_sleep 5
       (@generate_audio Stub.fixed_model Stub.raw_audio "rain"
          (Int 100) (Int 7) (Int 1) (Int 500) (Int 47) (Int 42) "k-lms"
          Stub.empty_world).2).
Proof. vm_compute. reflexivity. Qed.

(** ** Signed wait times *)




(** ** Base64 *)

Section Base64.

(** Groups of three bytes, with the two short tails. *)
Lemma list_ind3 {A} (P : list A -> Prop) :
  P [] -> (forall a, P [a]) -> (forall a b, P [a; b]) ->
  (forall a b c r, P r -> P (a :: b :: c :: r)) ->
  forall l, P l.
Proof.
  intros H0 H1 H2 H3.
  fix rec 1. intros [|a [|b [|c r]]]; [exact H0|apply H1|apply H2|].
  apply H3, rec.
Qed.

Lemma b64_index_char (n : N) : (n < 64)%N -> b64_index (b64_char n) = Some n.
Proof.
  intros Hn. destruct n as [|p]; [reflexivity|].
  do 6 (destruct p as [p|p|]; try reflexivity); lia.
Qed.

Lemma b64_char_not_pad (n : N) : (n < 64)%N -> Ascii.eqb (b64_char n) pad = false.
Proof.
  intros Hn. destruct n as [|p]; [reflexivity|].
  do 6 (destruct p as [p|p|]; try reflexivity); lia.
Qed.

Lemma byte_of_to_N (b : byte) (n : N) : n = Byte.to_N b -> byte_of n = b.
Proof.
  intros ->. unfold byte_of. pose proof (Byte.to_N_bounded b).
  rewrite N.mod_small by lia. rewrite Byte.of_to_N. reflexivity.
Qed.

#[local] Ltac Zify.zify_post_hook ::= Z.to_euclidean_division_equations.

Lemma sextets (a b c : N) :
  (a <= 255 -> b <= 255 -> c <= 255 ->
   a / 4 < 64 /\ a mod 4 * 16 + b / 16 < 64 /\ b mod 16 * 4 + c / 64 < 64
   /\ c mod 64 < 64
   /\ a / 4 * 4 + (a mod 4 * 16 + b / 16) / 16 = a
   /\ (a mod 4 * 16 + b / 16) mod 16 * 16 + (b mod 16 * 4 + c / 64) / 4 = b
   /\ (b mod 16 * 4 + c / 64) mod 4 * 64 + c mod 64 = c)%N.
Proof. intros. repeat split; lia. Qed.

Lemma b64decode_group (v1 v2 v3 v4 : N) (r : string) :
  (v1 < 64)%N -> (v2 < 64)%N -> (v3 < 64)%N -> (v4 < 64)%N ->
  b64decode (String (b64_char v1) (String (b64_char v2)
               (String (b64_char v3) (String (b64_char v4) r))))
  = match b64decode r with
    | Some rest => Some (byte_of (v1 * 4 + v2 / 16)
                         :: byte_of (v2 mod 16 * 16 + v3 / 4)
                         :: byte_of (v3 mod 4 * 64 + v4) :: rest)
    | None => None
    end%N.
Proof.
  intros H1 H2 H3 H4. cbn [b64decode].
  rewrite (b64_char_not_pad v4), !b64_index_char by assumption. reflexivity.
Qed.

Lemma b64_roundtrip (bs : list byte) : b64decode (b64encode bs) = Some bs.
Proof.
  induction bs as [|a|a b|a b c r IH] using list_ind3.
  - reflexivity.
  - pose proof (Byte.to_N_bounded a) as Ha.
    destruct (sextets (Byte.to_N a) 0 0) as (H1 & H2 & _ & _ & E1 & _); try lia.
    rewrite N.add_0_r in H2, E1.
    cbn [b64encode b64decode]. rewrite Ascii.eqb_refl.
    rewrite !b64_index_char by assumption.
    rewrite (byte_of_to_N a) by exact E1. reflexivity.
  - pose proof (Byte.to_N_bounded a) as Ha. pose proof (Byte.to_N_bounded b) as Hb.
    destruct (sextets (Byte.to_N a) (Byte.to_N b) 0) as (H1 & H2 & H3 & _ & E1 & E2 & _);
      try lia.
    rewrite N.add_0_r in H3, E2.
    cbn [b64encode b64decode]. rewrite Ascii.eqb_refl.
    rewrite (b64_char_not_pad _ H3).
    rewrite !b64_index_char by assumption.
    rewrite (byte_of_to_N a) by exact E1.
    rewrite (byte_of_to_N b) by exact E2. reflexivity.
  - pose proof (Byte.to_N_bounded a) as Ha. pose proof (Byte.to_N_bounded b) as Hb.
    pose proof (Byte.to_N_bounded c) as Hc.
    destruct (sextets (Byte.to_N a) (Byte.to_N b) (Byte.to_N c))
      as (H1 & H2 & H3 & H4 & E1 & E2 & E3); try lia.
    cbn [b64encode]. rewrite b64decode_group by assumption. rewrite IH.
    rewrite (byte_of_to_N a) by exact E1.
    rewrite (byte_of_to_N b) by exact E2.
    rewrite (byte_of_to_N c) by exact E3. reflexivity.
Qed.

Lemma bytesio_roundtrip (data : list byte) :
  bytesio_read (bytesio_seek 0 (bytesio_seek 0 (bytesio_write data
                  (bytesio_seek 0 bytesio_new)))) = data.
Proof.
  unfold bytesio_read, bytesio_seek, bytesio_write, bytesio_new. simpl.
  rewrite skipn_nil. apply app_nil_r.
Qed.

End Base64.

(** ** The collision probe *)

Section StringFacts.

Lemma app_cons (x : ascii) (a b : string) : String x a +:+ b = String x (a +:+ b).
Proof. reflexivity. Qed.

Lemma app_empty (b : string) : EmptyString +:+ b = b.
Proof. reflexivity. Qed.

Lemma length_app (a b : string) :
  String.length (a +:+ b) = (String.length a + String.length b)%nat.
Proof.
  induction a as [|x a IH]; [reflexivity|].
  rewrite app_cons. simpl. rewrite IH. reflexivity.
Qed.

Lemma app_assoc_str (a b c : string) : (a +:+ b) +:+ c = a +:+ b +:+ c.
Proof.
  induction a as [|x a IH]; [reflexivity|].
  rewrite !app_cons, IH. reflexivity.
Qed.

Lemma app_cancel_r (a b c : string) : a +:+ c = b +:+ c -> a = b.
Proof.
  revert b. induction a as [|x a IH]; intros [|y b] Heq;
    rewrite ?app_cons, ?app_empty in Heq.
  - reflexivity.
  - apply (f_equal String.length) in Heq. simpl in Heq. rewrite length_app in Heq. lia.
  - apply (f_equal String.length) in Heq. simpl in Heq. rewrite length_app in Heq. lia.
  - injection Heq as -> Heq. f_equal. apply IH, Heq.
Qed.

Lemma take_app (a b : string) : take (String.length a) (a +:+ b) = a.
Proof.
  induction a as [|x a IH]; [destruct b; reflexivity|].
  rewrite app_cons. simpl. rewrite IH. reflexivity.
Qed.

Lemma drop_last4_mp3 (stem : string) : drop_last4 (stem +:+ ".mp3") = stem.
Proof.
  unfold drop_last4. rewrite length_app. simpl String.length.
  replace (String.length stem + 4 - 4)%nat with (String.length stem) by lia.
  apply take_app.
Qed.

(** A sanitised stem followed by anything that does not start with a
    slash does not start with a slash. *)
Lemma stem_no_slash (prompt rest : string) :
  starts_with_slash rest = false ->
  starts_with_slash (re_sub_W prompt +:+ rest) = false.
Proof.
  intros Hrest. pose proof (sub_nonword_word_only false prompt) as Hw.
  fold (re_sub_W prompt) in Hw.
  destruct (re_sub_W prompt) as [|c r]; [exact Hrest|].
  cbn [all_chars] in Hw. apply andb_prop in Hw as [Hc _].
  rewrite app_cons. unfold starts_with_slash.
  destruct c as [[] [] [] [] [] [] [] []]; try reflexivity. discriminate Hc.
Qed.

(** Joining a directory and a relative name puts a fixed prefix before
    the name. *)
Lemma path_join_relative (a : string) :
  exists prefix, forall b, starts_with_slash b = false -> path_join a b = prefix +:+ b.
Proof.
  destruct (String.eqb a EmptyString || ends_with_slash a) eqn:E.
  - exists a. intros b Hb. unfold path_join. rewrite Hb, E. reflexivity.
  - exists (a +:+ "/"). intros b Hb. unfold path_join. rewrite Hb, E.
    rewrite app_assoc_str. reflexivity.
Qed.

Lemma not_temp_wav (y : string) : y +:+ ".mp3" <> temp_wav.
Proof.
  unfold temp_wav. intros Heq.
  do 12 (destruct y as [|? y];
         [discriminate Heq|rewrite app_cons in Heq; injection Heq as _ Heq]).
  apply (f_equal String.length) in Heq. rewrite length_app in Heq. simpl in Heq. lia.
Qed.

End StringFacts.

Section Probe.
Variables (save_path prompt : string).

Let base := re_sub_W prompt +:+ ".mp3".

Lemma suffix_inj (i j : nat) : suffix i = suffix j -> i = j.
Proof.
  destruct i as [|i], j as [|j]; cbn [suffix]; intros Heq;
    try reflexivity; try discriminate Heq.
  rewrite !app_cons, !app_empty in Heq. injection Heq as Heq.
  apply app_cancel_r in Heq. unfold str_of_int in Heq.
  apply (inj pretty) in Heq. lia.
Qed.

Lemma suffix_relative (n : nat) (stem : string) :
  starts_with_slash (re_sub_W stem +:+ suffix n) = false.
Proof. apply stem_no_slash. destruct n; reflexivity. Qed.

Lemma candidate_shape :
  exists prefix, forall n,
    candidate save_path base n = prefix +:+ re_sub_W prompt +:+ suffix n.
Proof.
  destruct (path_join_relative save_path) as [prefix Hjoin].
  exists prefix. intros [|n]; unfold candidate, numbered, base.
  - apply Hjoin, (suffix_relative 0).
  - rewrite drop_last4_mp3. apply Hjoin, (suffix_relative (S n)).
Qed.

Lemma candidate_inj (i j : nat) :
  candidate save_path base i = candidate save_path base j -> i = j.
Proof.
  destruct candidate_shape as [prefix Hshape]. rewrite !Hshape.
  intros Heq. do 2 apply (inj (String.app _)) in Heq. apply suffix_inj, Heq.
Qed.

Lemma candidate_not_temp_wav (n : nat) : candidate save_path base n <> temp_wav.
Proof.
  destruct candidate_shape as [prefix Hshape]. rewrite Hshape.
  destruct n as [|n]; cbn [suffix].
  - rewrite <- app_assoc_str. apply not_temp_wav.
  - rewrite <- !app_assoc_str. apply not_temp_wav.
Qed.

Variable (w : world).

Lemma path_exists_occupied (p : string) : path_exists w p = true <-> p ∈ occupied w.
Proof.
  unfold path_exists, occupied. rewrite orb_true_iff, !bool_decide_eq_true.
  set_solver.
Qed.

Let start (i : nat) (fuel : nat) : option string :=
  probe fuel w save_path base (candidate save_path base i) (Z.of_nat i + 1).

Lemma probe_step (i fuel : nat) :
  path_exists w (candidate save_path base i) = true ->
  start i (S fuel) = start (S i) fuel.
Proof.
  intros Hex. unfold start. cbn [probe]. rewrite Hex.
  replace (Z.of_nat i + 1) with (Z.of_nat (S i)) by lia.
  destruct fuel; reflexivity.
Qed.

Lemma probe_stop (i fuel : nat) :
  path_exists w (candidate save_path base i) = false ->
  start i fuel = Some (candidate save_path base i).
Proof. intros Hex. unfold start. destruct fuel; cbn [probe]; rewrite Hex; reflexivity. Qed.

(** The loop climbs over the occupied candidates and stops at the first
    free one. *)
Lemma probe_finds (j i fuel : nat) :
  (forall k, (i <= k < i + j)%nat -> path_exists w (candidate save_path base k) = true) ->
  path_exists w (candidate save_path base (i + j)) = false ->
  (j <= fuel)%nat ->
  start i fuel = Some (candidate save_path base (i + j)).
Proof.
  revert i fuel. induction j as [|j IH]; intros i fuel Hocc Hfree Hfuel.
  - rewrite Nat.add_0_r in *. apply probe_stop, Hfree.
  - destruct fuel as [|fuel]; [lia|].
    rewrite probe_step by (apply Hocc; lia).
    replace (i + S j)%nat with (S i + j)%nat in * by lia.
    apply IH; [intros k Hk; apply Hocc; lia|exact Hfree|lia].
Qed.

(** If the iterations run out, every candidate tried was occupied. *)
Lemma probe_exhausted (fuel i : nat) :
  start i fuel = None ->
  forall k, (i <= k <= i + fuel)%nat -> path_exists w (candidate save_path base k) = true.
Proof.
  revert i. induction fuel as [|fuel IH]; intros i Hnone k Hk.
  - assert (k = i) as -> by lia.
    destruct (path_exists w (candidate save_path base i)) eqn:Hex; [reflexivity|].
    rewrite probe_stop in Hnone by exact Hex. discriminate.
  - destruct (path_exists w (candidate save_path base i)) eqn:Hex.
    + rewrite probe_step in Hnone by exact Hex.
      destruct (decide (k = i)) as [->|Hne]; [exact Hex|].
      apply (IH (S i) Hnone). lia.
    + rewrite probe_stop in Hnone by exact Hex. discriminate.
Qed.

(** Distinct occupied candidates are bounded by the number of paths. *)
Lemma occupied_candidates_bounded (n : nat) :
  (forall k, (k < n)%nat -> path_exists w (candidate save_path base k) = true) ->
  (n <= size (occupied w))%nat.
Proof.
  intros Hocc.
  set (l := candidate save_path base <$> seq 0 n).
  assert (NoDup l) as Hnodup.
  { apply NoDup_fmap_2; [intros i j; apply candidate_inj|apply NoDup_seq]. }
  assert (list_to_set (C := gset string) l ⊆ occupied w) as Hsub.
  { intros p [k [-> Hk%elem_of_seq]]%elem_of_list_to_set%list_elem_of_fmap.
    apply path_exists_occupied, Hocc. lia. }
  apply subseteq_size in Hsub. rewrite size_list_to_set in Hsub by exact Hnodup.
  unfold l in Hsub. rewrite length_fmap, length_seq in Hsub. exact Hsub.
Qed.

Lemma probe_result (fuel i : nat) (p : string) :
  start i fuel = Some p ->
  exists n, p = candidate save_path base n
            /\ path_exists w (candidate save_path base n) = false.
Proof.
  revert i. induction fuel as [|fuel IH]; intros i Hsome;
    destruct (path_exists w (candidate save_path base i)) eqn:Hex.
  - unfold start in Hsome. cbn [probe] in Hsome. rewrite Hex in Hsome. discriminate.
  - rewrite probe_stop in Hsome by exact Hex. injection Hsome as <-. eauto.
  - rewrite probe_step in Hsome by exact Hex. apply (IH (S i)), Hsome.
  - rewrite probe_stop in Hsome by exact Hex. injection Hsome as <-. eauto.
Qed.

(** With as many iterations as [while_exists] allows, the loop ends. *)
Lemma probe_terminates :
  exists n, start 0 (probe_fuel w) = Some (candidate save_path base n)
            /\ path_exists w (candidate save_path base n) = false.
Proof.
  destruct (start 0 (probe_fuel w)) as [p|] eqn:Hstart.
  - destruct (probe_result _ _ _ Hstart) as (n & -> & Hfree). eauto.
  - exfalso. pose proof (probe_exhausted _ _ Hstart) as Hall.
    pose proof (occupied_candidates_bounded (S (probe_fuel w))) as Hbound.
    unfold probe_fuel in *. fold (occupied w) in *.
    specialize (Hbound ltac:(intros k Hk; apply Hall; lia)). lia.
Qed.

End Probe.

Section ProbeLoop.
Variables (save_path prompt : string) (w : world).

Let base := re_sub_W prompt +:+ ".mp3".

Lemma while_exists_total :
  exists n, while_exists save_path base (path_join save_path base) 1 w
            = (Ok (candidate save_path base n), w)
            /\ path_exists w (candidate save_path base n) = false.
Proof.
  destruct (probe_terminates save_path prompt w) as (n & Hprobe & Hfree).
  exists n. split; [|exact Hfree].
  unfold while_exists. change (Z.of_nat 0 + 1) with 1 in Hprobe.
  cbn [candidate] in Hprobe. fold base in Hprobe. rewrite Hprobe. reflexivity.
Qed.

Lemma while_exists_finds (n : nat) :
  (forall k, (k < n)%nat -> path_exists w (candidate save_path base k) = true) ->
  path_exists w (candidate save_path base n) = false ->
  while_exists save_path base (path_join save_path base) 1 w
  = (Ok (candidate save_path base n), w).
Proof.
  intros Hocc Hfree.
  pose proof (occupied_candidates_bounded save_path prompt w n Hocc) as Hbound.
  pose proof (probe_finds save_path prompt w n 0 (probe_fuel w)) as Hprobe.
  cbn [Nat.add] in Hprobe. change (Z.of_nat 0 + 1) with 1 in Hprobe.
  change (candidate save_path (re_sub_W prompt +:+ ".mp3") 0)
    with (path_join save_path base) in Hprobe.
  fold base in Hprobe. unfold while_exists. rewrite Hprobe; [reflexivity| |exact Hfree|].
  - intros k Hk. apply Hocc. lia.
  - unfold probe_fuel. fold (occupied w). lia.
Qed.

Lemma while_exists_ok_inv (p : string) (w1 : world) :
  while_exists save_path base (path_join save_path base) 1 w = (Ok p, w1) ->
  w1 = w /\ path_exists w p = false /\ p <> temp_wav.
Proof.
  destruct while_exists_total as (n & -> & Hfree). intros [= <- <-].
  split; [reflexivity|]. split; [exact Hfree|]. apply candidate_not_temp_wav.
Qed.

End ProbeLoop.

Section Inversion.
Context `{Pretrained} `{AudioLib}.
Variables (prompt sampler_type : string).
Variables (steps cfg_scale sigma_min sigma_max generation_time seed : number).

Let run := generate_audio prompt steps cfg_scale sigma_min sigma_max generation_time
                          seed sampler_type.

Lemma write_file_ok_inv (p : string) (data : list byte) (w w1 : world) :
  write_file p data w = (Ok tt, w1) ->
  (p ∉ dirs w) /\ (p ∉ locked w) /\ w1 = set_files (<[p := data]> (files w)) w.
Proof.
  unfold write_file. repeat case_bool_decide; intros [= <-]; auto.
Qed.

(** What a successful run has gone through. *)
Lemma generate_audio_ok_inv (w w' : world) (path payload : string) :
  run w = (Ok (path, payload), w') ->
  exists config rate size raw pcm wav audio mp3 w1 w2,
    let args := model_call prompt steps cfg_scale sigma_min sigma_max
                           generation_time seed sampler_type size w in
    let save_path := path_join "Output" (today w) in
    let base := re_sub_W prompt +:+ ".mp3" in
    get_pretrained_model model_name w = Ok config
    /\ config !! "sample_rate" = Some rate
    /\ config !! "sample_size" = Some size
    /\ model_to (select_device w) w = Ok tt
    /\ generate_diffusion_cond args w = Ok raw
    /\ normalize (cast_nan (select_device w)) (rearrange raw) = Some pcm
    /\ wav_bytes pcm rate = Ok wav
    /\ w1 = set_files (<[temp_wav := wav]> (files w)) (log_invocation args w)
    /\ from_wav wav = Ok audio
    /\ export_mp3 audio = Ok mp3
    /\ makedirs save_path w1 = (Ok tt, w2)
    /\ while_exists save_path base (path_join save_path base) 1 w2 = (Ok path, w2)
    /\ (path ∉ dirs w2)
    /\ payload = b64encode mp3
    /\ w' = set_files (<[path := mp3]> (files w2)) w2.
Proof.
  unfold run, generate_audio. intros Hrun.
  apply bind_ok_inv in Hrun as (cuda & w0 & Hstep & Hrun).
  unfold gets in Hstep. injection Hstep as <- <-.
  apply bind_ok_inv in Hrun as (config & w0 & Hstep & Hrun).
  unfold observe in Hstep. injection Hstep as Hconfig <-.
  apply bind_ok_inv in Hrun as (rate & w0 & Hstep & Hrun).
  unfold getitem in Hstep. destruct (config !! "sample_rate") as [r|] eqn:Hrate;
    [|discriminate]. injection Hstep as <- <-.
  apply bind_ok_inv in Hrun as (size & w0 & Hstep & Hrun).
  unfold getitem in Hstep. destruct (config !! "sample_size") as [r0|] eqn:Hsize;
    [|discriminate]. injection Hstep as <- <-.
  apply bind_ok_inv in Hrun as ([] & w0 & Hstep & Hrun).
  unfold observe in Hstep. injection Hstep as Hto <-.
  apply bind_ok_inv in Hrun as (raw & w0 & Hstep & Hrun).
  unfold invoke_model in Hstep. injection Hstep as Hraw <-.
  apply bind_ok_inv in Hrun as (pcm & w0 & Hstep & Hrun).
  unfold peak_normalize in Hstep.
  destruct (normalize _ _) as [pcm0|] eqn:Hpcm; [|discriminate].
  injection Hstep as <- <-.
  apply bind_ok_inv in Hrun as ([] & w1 & Hstep & Hrun).
  unfold torchaudio_save in Hstep.
  apply bind_ok_inv in Hstep as (wav & w0 & Hwav & Hstep).
  unfold lift in Hwav. injection Hwav as Hwav <-.
  apply write_file_ok_inv in Hstep as (_ & _ & Hw1).
  apply bind_ok_inv in Hrun as (audio & w0 & Hstep & Hrun).
  unfold AudioSegment_from_wav in Hstep.
  apply bind_ok_inv in Hstep as (data & w3 & Hread & Hstep).
  unfold read_file in Hread. rewrite Hw1 in Hread. cbn [files set_files] in Hread.
  rewrite lookup_insert_eq in Hread. injection Hread as <- <-.
  unfold lift in Hstep. injection Hstep as Haudio <-.
  apply bind_ok_inv in Hrun as (buf & w0 & Hstep & Hrun).
  unfold export_to_buffer in Hstep.
  apply bind_ok_inv in Hstep as (mp3 & w3 & Hmp3 & Hstep).
  unfold lift in Hmp3. injection Hmp3 as Hmp3 <-.
  injection Hstep as <- <-.
  apply bind_ok_inv in Hrun as (date & w0 & Hstep & Hrun).
  unfold gets in Hstep. injection Hstep as <- <-.
  apply bind_ok_inv in Hrun as ([] & w2 & Hmk & Hrun).
  apply bind_ok_inv in Hrun as (full_path & w0 & Hloop & Hrun).
  pose proof Hloop as Hloop'.
  apply while_exists_ok_inv in Hloop' as (-> & _ & _).
  apply bind_ok_inv in Hrun as ([] & w3 & Hstep & Hrun).
  unfold export_to_path in Hstep.
  apply bind_ok_inv in Hstep as (mp3' & w4 & Hmp3' & Hstep).
  unfold lift in Hmp3'. injection Hmp3' as Hmp3' <-.
  rewrite Hmp3 in Hmp3'. injection Hmp3' as <-.
  apply write_file_ok_inv in Hstep as (Hnodir & _ & ->).
  injection Hrun as <- <- <-.
  exists config, r, r0, raw, pcm0, wav, audio, mp3, w1, w2. cbv zeta.
  rewrite bytesio_roundtrip.
  repeat split; try assumption; try reflexivity.
  rewrite Hw1. exact Hmk.
Qed.

End Inversion.

(** ** The intermediate file *)

Section TempFile.
Context `{Pretrained} `{AudioLib}.
Variables (prompt sampler_type : string).
Variables (steps cfg_scale sigma_min sigma_max generation_time seed : number).

Let run := generate_audio prompt steps cfg_scale sigma_min sigma_max generation_time
                          seed sampler_type.

Lemma keeps_write_elsewhere (p : string) (data : list byte) :
  p <> temp_wav -> keeps temp_content (write_file p data).
Proof.
  intros Hne w. unfold write_file, temp_content.
  repeat case_bool_decide; try reflexivity.
  cbn [snd files set_files]. apply lookup_insert_ne, Hne.
Qed.

Lemma keeps_export_elsewhere (audio : segment) (p : string) :
  p <> temp_wav -> keeps temp_content (export_to_path audio p).
Proof.
  intros Hne. unfold export_to_path.
  apply keeps_bind; [apply keeps_lift|]. intros data. apply keeps_write_elsewhere, Hne.
Qed.

Lemma torchaudio_save_ok (p : string) (pcm : tensor2 Z) (rate : Z) (wav : list byte)
      (w : world) :
  wav_bytes pcm rate = Ok wav -> (p ∉ dirs w) -> (p ∉ locked w) ->
  torchaudio_save p pcm rate w = (Ok tt, set_files (<[p := wav]> (files w)) w).
Proof.
  intros Hwav Hd Hl. unfold torchaudio_save. rewrite bind_unfold. unfold lift.
  rewrite Hwav. unfold write_file. rewrite !bool_decide_eq_false_2 by assumption.
  reflexivity.
Qed.

(** After the intermediate file is written nothing touches it: the model
    output is read back from it and the artifact goes elsewhere. *)
Lemma generate_audio_leaves_temp (w : world) (config : gmap string Z) (rate size : Z)
      (raw : tensor3) (pcm : tensor2 Z) (wav : list byte) :
  get_pretrained_model model_name w = Ok config ->
  config !! "sample_rate" = Some rate ->
  config !! "sample_size" = Some size ->
  model_to (select_device w) w = Ok tt ->
  generate_diffusion_cond
    (model_call prompt steps cfg_scale sigma_min sigma_max generation_time seed
                sampler_type size w) w = Ok raw ->
  normalize (cast_nan (select_device w)) (rearrange raw) = Some pcm ->
  wav_bytes pcm rate = Ok wav ->
  (temp_wav ∉ dirs w) -> (temp_wav ∉ locked w) ->
  temp_content (run w).2 = Some wav.
Proof.
  intros Hconfig Hrate Hsize Hto Hraw Hpcm Hwav Hd Hl.
  unfold run, generate_audio.
  rewrite bind_unfold. unfold gets at 1.
  rewrite bind_unfold. unfold observe at 1. fold model_name. rewrite Hconfig.
  rewrite bind_unfold. unfold getitem at 1. rewrite Hrate. unfold mret at 1, M_ret at 1.
  rewrite bind_unfold. unfold getitem at 1. rewrite Hsize. unfold mret at 1, M_ret at 1.
  rewrite bind_unfold. unfold observe at 1. fold (select_device w). rewrite Hto.
  rewrite bind_unfold. unfold invoke_model at 1.
  fold (model_call prompt steps cfg_scale sigma_min sigma_max generation_time seed
                   sampler_type size w). rewrite Hraw.
  rewrite bind_unfold. unfold peak_normalize at 1. rewrite Hpcm.
  unfold mret at 1, M_ret at 1.
  rewrite bind_unfold. rewrite (torchaudio_save_ok _ _ _ wav) by assumption.
  match goal with
  | |- temp_content (?rest ?w1).2 = _ =>
      assert (keeps temp_content rest) as ->
  end.
  - apply keeps_bind; [eauto with keeps|intros audio].
    apply keeps_bind; [eauto with keeps|intros buf].
    apply keeps_bind; [eauto with keeps|intros date].
    apply keeps_bind; [eauto with keeps|intros []].
    apply (keeps_bind_post _ (fun p => p <> temp_wav)).
    + eauto with keeps.
    + intros w0 p w1 Hloop. apply while_exists_ok_inv in Hloop. tauto.
    + intros p Hp. apply keeps_bind; [apply keeps_export_elsewhere, Hp|].
      intros []. eauto with keeps.
  - unfold temp_content. cbn [files set_files]. apply lookup_insert_eq.
Qed.

End TempFile.

Section ReadBack.
Context `{Pretrained} `{AudioLib}.
Variables (prompt sampler_type : string).
Variables (steps cfg_scale sigma_min sigma_max generation_time seed : number).

Let run := generate_audio prompt steps cfg_scale sigma_min sigma_max generation_time
                          seed sampler_type.

(** Opening the intermediate file gives the decoder what the file holds. *)
Lemma from_wav_reads_file (path : string) (data : list byte) (w : world) :
  files w !! path = Some data ->
  AudioSegment_from_wav path w = (from_wav data, w).
Proof.
  intros Hfile. unfold AudioSegment_from_wav. rewrite bind_unfold.
  unfold read_file. rewrite Hfile. reflexivity.
Qed.

Lemma from_wav_missing_file (path : string) (w : world) :
  files w !! path = None -> (path ∉ dirs w) ->
  AudioSegment_from_wav path w
  = (Raise (os_error "FileNotFoundError" "2" "No such file or directory" path), w).
Proof.
  intros Hfile Hdir. unfold AudioSegment_from_wav. rewrite bind_unfold.
  unfold read_file. rewrite Hfile, bool_decide_eq_false_2 by exact Hdir. reflexivity.
Qed.

(** Once the intermediate file is written, what is left of
    [generate_audio] starts by reading it back and encoding what was
    read. *)
Lemma generate_audio_until_read (w : world) (config : gmap string Z) (rate size : Z)
      (raw : tensor3) (pcm : tensor2 Z) (wav : list byte) :
  get_pretrained_model model_name w = Ok config ->
  config !! "sample_rate" = Some rate ->
  config !! "sample_size" = Some size ->
  model_to (select_device w) w = Ok tt ->
  generate_diffusion_cond
    (model_call prompt steps cfg_scale sigma_min sigma_max generation_time seed
                sampler_type size w) w = Ok raw ->
  normalize (cast_nan (select_device w)) (rearrange raw) = Some pcm ->
  wav_bytes pcm rate = Ok wav ->
  (temp_wav ∉ dirs w) -> (temp_wav ∉ locked w) ->
  exists rest : segment -> bytesio -> M (string * string),
    run w = (audio ← AudioSegment_from_wav temp_wav;
             audio_bytes ← export_to_buffer audio bytesio_new;
             rest audio audio_bytes)
              (set_files (<[temp_wav := wav]> (files w))
                 (log_invocation
                    (model_call prompt steps cfg_scale sigma_min sigma_max
                                generation_time seed sampler_type size w) w)).
Proof.
  intros Hconfig Hrate Hsize Hto Hraw Hpcm Hwav Hd Hl.
  remember (run w) as r eqn:Hr. unfold run, generate_audio in Hr.
  rewrite bind_unfold in Hr. unfold gets at 1 in Hr.
  rewrite bind_unfold in Hr. unfold observe at 1 in Hr. fold model_name in Hr.
  rewrite Hconfig in Hr.
  rewrite bind_unfold in Hr. unfold getitem at 1 in Hr. rewrite Hrate in Hr.
  unfold mret at 1, M_ret at 1 in Hr.
  rewrite bind_unfold in Hr. unfold getitem at 1 in Hr. rewrite Hsize in Hr.
  unfold mret at 1, M_ret at 1 in Hr.
  rewrite bind_unfold in Hr. unfold observe at 1 in Hr. fold (select_device w) in Hr.
  rewrite Hto in Hr.
  rewrite bind_unfold in Hr. unfold invoke_model at 1 in Hr.
  fold (model_call prompt steps cfg_scale sigma_min sigma_max generation_time seed
                   sampler_type size w) in Hr.
  rewrite Hraw in Hr.
  rewrite bind_unfold in Hr. unfold peak_normalize at 1 in Hr. rewrite Hpcm in Hr.
  unfold mret at 1, M_ret at 1 in Hr.
  rewrite bind_unfold in Hr. rewrite (torchaudio_save_ok _ _ _ wav) in Hr by assumption.
  subst r. eexists. reflexivity.
Qed.

End ReadBack.

(** C9.  Whatever the prompt and the parameters, the converted tensor is
    written to the one relative path "temp_output.wav", replacing what was
    there, and the file is still there, with this request's content, when
    [generate_audio] is over, whether it succeeded or failed later on.  The
    audio is read back from that path: the decoder is given what the file
    holds, a failure of the decoder on that content, or of the encoder on
    what was decoded, ends the request with that exception, and the payload
    and the artifact of a successful request are the encoding of what was
    decoded from it. *)
Theorem C9_fixed_intermediate_file `{Pretrained} `{AudioLib}
        (prompt sampler_type : string)
        (steps cfg_scale sigma_min sigma_max generation_time seed : number)
        (w : world) (config : gmap string Z) (rate size : Z)
        (raw : tensor3) (pcm : tensor2 Z) (wav : list byte) :
  get_pretrained_model model_name w = Ok config ->
  config !! "sample_rate" = Some rate ->
  config !! "sample_size" = Some size ->
  model_to (select_device w) w = Ok tt ->
  generate_diffusion_cond
    (model_call prompt steps cfg_scale sigma_min sigma_max generation_time seed
                sampler_type size w) w = Ok raw ->
  normalize (cast_nan (select_device w)) (rearrange raw) = Some pcm ->
  wav_bytes pcm rate = Ok wav ->
  (temp_wav ∉ dirs w) -> (temp_wav ∉ locked w) ->
  let run := generate_audio prompt steps cfg_scale sigma_min sigma_max generation_time
                            seed sampler_type in
  let written :=
    set_files (<[temp_wav := wav]> (files w))
      (log_invocation
         (model_call prompt steps cfg_scale sigma_min sigma_max generation_time seed
                     sampler_type size w) w) in
  temp_wav = "temp_output.wav"
  /\ files (run w).2 !! temp_wav = Some wav
  /\ AudioSegment_from_wav temp_wav written = (from_wav wav, written)
  /\ (forall e, from_wav wav = Raise e -> run w = (Raise e, written))
  /\ (forall audio e,
         from_wav wav = Ok audio -> export_mp3 audio = Raise e ->
         run w = (Raise e, written))
  /\ (forall path payload w',
         run w = (Ok (path, payload), w') ->
         exists audio mp3,
           from_wav wav = Ok audio /\ export_mp3 audio = Ok mp3
           /\ payload = b64encode mp3
           /\ files w' !! path = Some mp3
           /\ files w' !! temp_wav = Some wav).
Proof.
  intros Hconfig Hrate Hsize Hto Hraw Hpcm Hwav Hd Hl run written.
  assert (files written !! temp_wav = Some wav) as Hthere
    by (unfold written; cbn [files set_files]; apply lookup_insert_eq).
  assert (files (run w).2 !! temp_wav = Some wav) as Hleft
    by (eapply generate_audio_leaves_temp; eassumption).
  destruct (generate_audio_until_read prompt sampler_type steps cfg_scale sigma_min
              sigma_max generation_time seed w config rate size raw pcm wav)
    as [rest Hrest]; try assumption.
  fold run written in Hrest.
  split; [reflexivity|]. split; [exact Hleft|].
  split; [apply from_wav_reads_file, Hthere|]. split; [|split].
  - intros e He. rewrite Hrest, bind_unfold.
    rewrite (from_wav_reads_file _ _ _ Hthere), He. reflexivity.
  - intros audio e Haudio He. rewrite Hrest, bind_unfold.
    rewrite (from_wav_reads_file _ _ _ Hthere), Haudio.
    rewrite bind_unfold. unfold export_to_buffer. rewrite bind_unfold.
    unfold lift. rewrite He. reflexivity.
  - intros path payload w' Hrun.
    assert (files w' !! temp_wav = Some wav) as Hkept
      by (change w' with ((Ok (path, payload), w').2); rewrite <- Hrun; exact Hleft).
    apply generate_audio_ok_inv in Hrun
      as (config' & rate' & size' & raw' & pcm' & wav' & audio & mp3 & w1 & w2 & Hinv).
    cbv zeta in Hinv.
    destruct Hinv as (Hc & Hr & Hs & _ & Hraw' & Hpcm' & Hwav' & _ & Haudio & Hmp3
                      & _ & _ & _ & Hpayload & Hw').
    assert (config' = config) as -> by congruence.
    assert (rate' = rate) as -> by congruence.
    assert (size' = size) as -> by congruence.
    assert (raw' = raw) as -> by congruence.
    assert (pcm' = pcm) as -> by congruence.
    assert (wav' = wav) as -> by congruence.
    exists audio, mp3. repeat (split; [assumption|]). split; [|exact Hkept].
    rewrite Hw'. cbn [files set_files]. apply lookup_insert_eq.
Qed.

Lemma C9_witness :
  let w := Stub.with_files ["temp_output.wav"] Stub.empty_world in
  let run := @generate_audio Stub.fixed_model Stub.raw_audio "rain"
               (Int 100) (Int 7) (Int 1) (Int 500) (Int 47) (Int 42) "k-lms" in
  let wav := concat (map Stub.le16 [32767; 8191; -32767; -24575; 16383; 0; -8191; 24575]) in
  files w !! "temp_output.wav" = Some []
  /\ files (run w).2 !! "temp_output.wav" = Some wav
  /\ (run w).1 = Ok ("Output/2024-05-01/rain.mp3", "/3//HwGAAaD/PwAAAeD/Xw==")
  /\ exists audio mp3,
       @from_wav Stub.raw_audio wav = Ok audio /\ @export_mp3 Stub.raw_audio audio = Ok mp3
       /\ "/3//HwGAAaD/PwAAAeD/Xw==" = b64encode mp3
       /\ files (run w).2 !! "Output/2024-05-01/rain.mp3" = Some mp3
       /\ files (run w).2 !! "temp_output.wav" = Some wav.
Proof.
  intros w run wav.
  destruct (@C9_fixed_intermediate_file Stub.fixed_model Stub.raw_audio
              "rain" "k-lms" (Int 100) (Int 7) (Int 1) (Int 500) (Int 47) (Int 42)
              w (<["sample_rate" := 44100]> (<["sample_size" := 4]> ∅)) 44100 4
              Stub.tone
              [[32767; 8191; -32767; -24575]; [16383; 0; -8191; 24575]]
              wav eq_refl eq_refl eq_refl eq_refl eq_refl
              ltac:(vm_compute; reflexivity) eq_refl
              ltac:(vm_compute; set_solver) ltac:(vm_compute; set_solver))
    as (_ & Hleft & _ & _ & _ & Hback).
  split; [reflexivity|]. split; [exact Hleft|].
  split; [vm_compute; reflexivity|].
  apply (Hback _ _ (run w).2). vm_compute. reflexivity.
Defined.

(** ** The returned payload and the written file *)

(** C7.  When [generate_audio] returns a path and a payload, the file at
    that path holds exactly the bytes the payload decodes to. *)
Theorem C7_payload_decodes_to_file `{Pretrained} `{AudioLib}
        (prompt sampler_type : string)
        (steps cfg_scale sigma_min sigma_max generation_time seed : number)
        (w w' : world) (path payload : string) :
  generate_audio prompt steps cfg_scale sigma_min sigma_max generation_time
                 seed sampler_type w = (Ok (path, payload), w') ->
  exists data, files w' !! path = Some data /\ b64decode payload = Some data.
Proof.
  intros Hrun.
  apply generate_audio_ok_inv in Hrun
    as (config & rate & size & raw & pcm & wav & audio & mp3 & w1 & w2 & Hinv).
  cbv zeta in Hinv.
  destruct Hinv as (_ & _ & _ & _ & _ & _ & _ & _ & _ & _ & _ & _ & _ & -> & ->).
  exists mp3. split.
  - cbn [files set_files]. apply lookup_insert_eq.
  - apply b64_roundtrip.
Qed.

Lemma C7_witness :
  exists data,
    files (@generate_audio Stub.fixed_model Stub.raw_audio "rain"
             (Int 100) (Int 7) (Int 1) (Int 500) (Int 47) (Int 42) "k-lms"
             Stub.empty_world).2 !! "Output/2024-05-01/rain.mp3" = Some data
    /\ b64decode "/3//HwGAAaD/PwAAAeD/Xw==" = Some data.
Proof.
  apply (@C7_payload_decodes_to_file Stub.fixed_model Stub.raw_audio
           "rain" "k-lms" (Int 100) (Int 7) (Int 1) (Int 500) (Int 47) (Int 42)
           Stub.empty_world).
  vm_compute. reflexivity.
Defined.

(** ** Calls that come back *)

Section Returns.
Context `{Pretrained} `{AudioLib}.

Lemma returns_ret {A} (a : A) : returns (mret a).
Proof. intros w. discriminate. Qed.

Lemma returns_raise {A} (e : exn) : returns (@raise A e).
Proof. intros w. discriminate. Qed.

Lemma returns_gets {A} (f : world -> A) : returns (gets f).
Proof. intros w. discriminate. Qed.

Lemma returns_lift {A} (o : outcome A) : o <> Hang -> returns (lift o).
Proof. intros Ho w. exact Ho. Qed.

Lemma returns_observe {A} (f : world -> outcome A) :
  (forall w, f w <> Hang) -> returns (observe f).
Proof. intros Hf w. apply Hf. Qed.

Lemma returns_bind {A B} (m : M A) (f : A -> M B) :
  returns m -> (forall a, returns (f a)) -> returns (m ≫= f).
Proof.
  intros Hm Hf w. rewrite bind_unfold. specialize (Hm w).
  destruct (m w) as [[a|e|] w1]; cbn in *; [apply Hf|discriminate|congruence].
Qed.

Lemma returns_try_except {A} (body : M A) (catches : exn -> bool) (handler : exn -> M A) :
  returns body -> (forall e, returns (handler e)) -> returns (try_except body catches handler).
Proof.
  intros Hb Hh w. unfold try_except. specialize (Hb w).
  destruct (body w) as [[a|e|] w1]; cbn in *; [discriminate| |congruence].
  destruct (catches e); [apply Hh|discriminate].
Qed.

Lemma returns_write_file (p : string) (data : list byte) : returns (write_file p data).
Proof. intros w. unfold write_file. repeat case_bool_decide; discriminate. Qed.

Lemma returns_read_file (p : string) : returns (read_file p).
Proof.
  intros w. unfold read_file. destruct (files w !! p); [discriminate|].
  case_bool_decide; discriminate.
Qed.

Lemma returns_mkdir_each (ps : list string) : returns (mkdir_each ps).
Proof.
  induction ps as [|p ps IH]; intros w; [discriminate|].
  cbn [mkdir_each]. repeat case_bool_decide; try discriminate; try apply IH.
  destruct ps; discriminate.
Qed.

Lemma returns_while_exists (save_path prompt : string) :
  returns (while_exists save_path (re_sub_W prompt +:+ ".mp3")
                        (path_join save_path (re_sub_W prompt +:+ ".mp3")) 1).
Proof.
  intros w. destruct (while_exists_total save_path prompt w) as (n & -> & _). discriminate.
Qed.

Lemma returns_time_sleep (n : Z) : returns (time_sleep n).
Proof.
  intros w. unfold time_sleep.
  destruct ((n <? - max_sleep) || (max_sleep <? n)); [discriminate|].
  destruct (n <? 0); discriminate.
Qed.

Lemma returns_print_waiting (n : Z) : returns (print_waiting n).
Proof.
  intros w. unfold print_waiting, lift, format_int. rewrite bind_unfold.
  destruct (fits_str_digits n); discriminate.
Qed.

Lemma returns_parse_wait (wait_time : string) : returns (parse_wait wait_time).
Proof. intros w. destruct (parse_wait_total wait_time w) as [n ->]. discriminate. Qed.

Lemma returns_getitem (d : gmap string Z) (key : string) : returns (getitem d key).
Proof. unfold getitem. destruct (d !! key); [apply returns_ret|apply returns_raise]. Qed.

Lemma returns_peak_normalize (device : string) (t : tensor2 F32.float32) :
  returns (peak_normalize device t).
Proof.
  unfold peak_normalize. destruct (normalize _ _); [apply returns_ret|apply returns_raise].
Qed.

Hypothesis Hlibs : libraries_return.

Lemma returns_generate_audio (prompt sampler_type : string)
      (steps cfg_scale sigma_min sigma_max generation_time seed : number) :
  returns (generate_audio prompt steps cfg_scale sigma_min sigma_max generation_time
                          seed sampler_type).
Proof.
  destruct Hlibs as (Hget & Hto & Hgen & Hwav & Hfrom & Hexp).
  unfold generate_audio, torchaudio_save, AudioSegment_from_wav, export_to_buffer,
    export_to_path, makedirs.
  repeat first
    [ apply returns_bind; [|intros ?]
    | apply returns_gets | apply returns_ret | apply returns_getitem
    | apply returns_peak_normalize | apply returns_write_file | apply returns_read_file
    | apply returns_mkdir_each | apply returns_while_exists
    | apply returns_observe; auto
    | apply returns_lift; auto
    | intros w; apply Hgen ].
Qed.

End Returns.

(** ** The dated folder *)

Section Folders.

Lemma mkdir_each_ok (ps : list string) (w w1 : world) :
  mkdir_each ps w = (Ok tt, w1) ->
  files w1 = files w
  /\ dirs w ⊆ dirs w1
  /\ (forall q, q ∈ ps -> q ∈ dirs w1)
  /\ (forall q, q ∈ dirs w1 -> q ∈ dirs w \/ q ∈ ps).
Proof.
  revert w. induction ps as [|p ps IH]; intros w Hrun.
  - injection Hrun as <-. repeat split; [done|inversion 1|auto].
  - cbn [mkdir_each] in Hrun. case_bool_decide as Hdir.
    + destruct (IH w Hrun) as (Hf & Hsub & Hall & Honly).
      repeat split; [exact Hf|exact Hsub| |].
      * intros q [->|Hq]%elem_of_cons; [apply Hsub, Hdir|apply Hall, Hq].
      * intros q Hq. destruct (Honly q Hq); [left|right; right]; assumption.
    + case_bool_decide; [destruct ps; discriminate|].
      case_bool_decide; [discriminate|].
      destruct (IH _ Hrun) as (Hf & Hsub & Hall & Honly). cbn [files dirs set_dirs] in *.
      repeat split; [exact Hf| | |].
      * intros q Hq. apply Hsub, elem_of_union_r, Hq.
      * intros q [->|Hq]%elem_of_cons; [|apply Hall, Hq].
        apply Hsub, elem_of_union_l, elem_of_singleton. reflexivity.
      * intros q Hq. destruct (Honly q Hq) as [Hin|Hin]; [|right; right; exact Hin].
        apply elem_of_union in Hin as [->%elem_of_singleton|Hin];
          [right; left|left; exact Hin].
Qed.

Lemma mkdir_each_noop (ps : list string) (w : world) :
  (forall q, q ∈ ps -> q ∈ dirs w) -> mkdir_each ps w = (Ok tt, w).
Proof.
  induction ps as [|p ps IH]; intros Hall; [reflexivity|].
  cbn [mkdir_each]. rewrite bool_decide_eq_true_2 by (apply Hall; left).
  apply IH. intros q Hq. apply Hall. right. exact Hq.
Qed.

End Folders.

(** ** Collision avoidance *)

Section Collision.
Context `{Pretrained} `{AudioLib}.

(** A path joined with a relative name is longer than the path. *)
Lemma length_path_join (a b : string) :
  starts_with_slash b = false ->
  (String.length a + String.length b <= String.length (path_join a b))%nat.
Proof.
  intros Hb. unfold path_join. rewrite Hb.
  destruct (String.eqb a EmptyString || ends_with_slash a); cbv iota;
    rewrite !length_app; cbn [String.length]; lia.
Qed.

Lemma ancestors_from_length (rest prefix q : string) :
  q ∈ ancestors_from prefix rest ->
  (String.length q <= String.length prefix + String.length rest)%nat.
Proof.
  revert prefix. induction rest as [|c r IH]; intros prefix Hq.
  - cbn [ancestors_from] in Hq. apply list_elem_of_singleton in Hq as ->. lia.
  - cbn [ancestors_from String.length] in *. destruct (Ascii.eqb c "/").
    + apply elem_of_cons in Hq as [->|Hq]; [lia|].
      apply IH in Hq. rewrite length_app in Hq. cbn [String.length] in Hq. lia.
    + apply IH in Hq. rewrite length_app in Hq. cbn [String.length] in Hq. lia.
Qed.

(** No candidate of the loop is the dated folder or a folder above it. *)
Lemma candidate_is_no_ancestor (save_path prompt : string) (n : nat) :
  candidate save_path (re_sub_W prompt +:+ ".mp3") n ∉ ancestors save_path.
Proof.
  intros Hin. unfold ancestors in Hin. apply list_elem_of_filter in Hin as [_ Hin].
  apply ancestors_from_length in Hin. cbn [String.length] in Hin.
  assert (String.length save_path
          < String.length (candidate save_path (re_sub_W prompt +:+ ".mp3") n))%nat;
    [|lia].
  destruct n as [|n]; unfold candidate, numbered.
  - pose proof (length_path_join save_path _ (suffix_relative 0 prompt)) as Hlen.
    cbn [suffix] in Hlen. rewrite length_app in Hlen. cbn [String.length] in Hlen. lia.
  - rewrite drop_last4_mp3.
    pose proof (length_path_join save_path _ (suffix_relative (S n) prompt)) as Hlen.
    cbn [suffix] in Hlen. rewrite !length_app in Hlen. cbn [String.length] in Hlen.
    lia.
Qed.

(** What a successful run has written, and where the loop looked for the
    path. *)
Lemma generate_audio_writes (prompt sampler_type : string)
      (steps cfg_scale sigma_min sigma_max generation_time seed : number)
      (w w' : world) (path payload : string) :
  generate_audio prompt steps cfg_scale sigma_min sigma_max generation_time
                 seed sampler_type w = (Ok (path, payload), w') ->
  exists wav mp3 w2,
    files w2 = <[temp_wav := wav]> (files w)
    /\ dirs w ⊆ dirs w2
    /\ (forall q, q ∈ dirs w2 -> q ∈ dirs w \/ q ∈ ancestors (path_join "Output" (today w)))
    /\ while_exists (path_join "Output" (today w)) (re_sub_W prompt +:+ ".mp3")
         (path_join (path_join "Output" (today w)) (re_sub_W prompt +:+ ".mp3")) 1 w2
       = (Ok path, w2)
    /\ path <> temp_wav
    /\ files w' = <[path := mp3]> (<[temp_wav := wav]> (files w)).
Proof.
  intros Hrun.
  apply generate_audio_ok_inv in Hrun
    as (config & rate & size & raw & pcm & wav & audio & mp3 & w1 & w2 & Hinv).
  cbv zeta in Hinv.
  destruct Hinv as (_ & _ & _ & _ & _ & _ & _ & Hw1 & _ & _ & Hmk & Hloop & _ & _ & Hw').
  unfold makedirs in Hmk. apply mkdir_each_ok in Hmk as (Hfiles & Hsub & _ & Honly).
  assert (files w1 = <[temp_wav := wav]> (files w)) as Hf1 by (rewrite Hw1; reflexivity).
  assert (dirs w1 = dirs w) as Hd1 by (rewrite Hw1; reflexivity).
  exists wav, mp3, w2. rewrite Hd1 in Hsub, Honly. rewrite Hf1 in Hfiles.
  split; [exact Hfiles|]. split; [exact Hsub|]. split; [exact Honly|].
  split; [exact Hloop|]. split.
  - apply while_exists_ok_inv in Hloop. tauto.
  - rewrite Hw'. cbn [files set_files]. rewrite Hfiles. reflexivity.
Qed.

(** The artifact of a successful run goes to a path at which there was
    nothing, and no file but the intermediate one is touched. *)
Lemma generate_audio_overwrites_nothing (prompt sampler_type : string)
      (steps cfg_scale sigma_min sigma_max generation_time seed : number)
      (w w' : world) (path payload : string) :
  generate_audio prompt steps cfg_scale sigma_min sigma_max generation_time
                 seed sampler_type w = (Ok (path, payload), w') ->
  files w !! path = None /\ (path ∉ dirs w) /\ is_Some (files w' !! path)
  /\ forall p, p <> path -> p <> temp_wav -> files w' !! p = files w !! p.
Proof.
  intros Hrun.
  destruct (generate_audio_writes _ _ _ _ _ _ _ _ _ _ _ _ Hrun)
    as (wav & mp3 & w2 & Hfiles & Hsub & _ & Hloop & Hne & Hw').
  apply while_exists_ok_inv in Hloop as (_ & Hfree & _).
  assert (path ∉ occupied w2) as Hnone.
  { intros Hin. apply path_exists_occupied in Hin. congruence. }
  unfold occupied in Hnone. rewrite not_elem_of_union in Hnone.
  destruct Hnone as [Hnofile Hnodir].
  split; [|split; [|split]].
  - apply not_elem_of_dom in Hnofile. rewrite Hfiles in Hnofile.
    rewrite lookup_insert_ne in Hnofile by congruence. exact Hnofile.
  - intros Hin. apply Hnodir, Hsub, Hin.
  - rewrite Hw', lookup_insert_eq. eauto.
  - intros p Hp Htemp. rewrite Hw'.
    rewrite lookup_insert_ne by congruence. apply lookup_insert_ne. congruence.
Qed.

End Collision.

(** C3.  Let the base path of a prompt in the dated folder and its
    variants [_1] ... [_(N-1)] be files and let nothing be at the variant
    [_N], for some N >= 1.  Then a [generate_audio] that succeeds for this
    prompt returns the path of suffix [_N], and the N earlier files are as
    they were.  The loop of lines 73-76 ends on every file system, with a
    path at which there is nothing, and [generate_audio] comes back whenever
    the libraries do.  And whatever the request and the file system, the
    artifact of a successful [generate_audio] is written to a path at which
    there was neither a file nor a directory, and no file that was there is
    changed or removed, apart from the intermediate "temp_output.wav". *)
Theorem C3_probe_resolves_to_first_free `{Pretrained} `{AudioLib}
        (prompt sampler_type : string)
        (steps cfg_scale sigma_min sigma_max generation_time seed : number)
        (w w' : world) (N : nat) (path payload : string) :
  let save_path := path_join "Output" (today w) in
  let base := re_sub_W prompt +:+ ".mp3" in
  (1 <= N)%nat ->
  (forall k, (k < N)%nat -> is_Some (files w !! candidate save_path base k)) ->
  path_exists w (candidate save_path base N) = false ->
  generate_audio prompt steps cfg_scale sigma_min sigma_max generation_time
                 seed sampler_type w = (Ok (path, payload), w') ->
  path = path_join save_path
                   (re_sub_W prompt +:+ "_" +:+ str_of_int (Z.of_nat N) +:+ ".mp3")
  /\ (forall k, (k < N)%nat ->
         files w' !! candidate save_path base k = files w !! candidate save_path base k)
  /\ (forall w0 : world,
         exists p, while_exists save_path base (path_join save_path base) 1 w0 = (Ok p, w0)
                   /\ path_exists w0 p = false)
  /\ (libraries_return ->
      forall prompt0 sampler0 steps0 cfg0 smin0 smax0 time0 seed0 w0,
        (generate_audio prompt0 steps0 cfg0 smin0 smax0 time0 seed0 sampler0 w0).1
        <> Hang)
  /\ (forall prompt0 sampler0 steps0 cfg0 smin0 smax0 time0 seed0 w0 w0' path0 payload0,
         generate_audio prompt0 steps0 cfg0 smin0 smax0 time0 seed0 sampler0 w0
         = (Ok (path0, payload0), w0') ->
         files w0 !! path0 = None /\ (path0 ∉ dirs w0) /\ is_Some (files w0' !! path0)
         /\ forall p, p <> path0 -> p <> temp_wav -> files w0' !! p = files w0 !! p).
Proof.
  intros save_path base. unfold base, save_path. clear base save_path.
  intros HN Hfiles Hfree Hrun.
  assert (path = candidate (path_join "Output" (today w)) (re_sub_W prompt +:+ ".mp3") N)
    as Hpath.
  { destruct (generate_audio_writes _ _ _ _ _ _ _ _ _ _ _ _ Hrun)
      as (wav & mp3 & w2 & Hf2 & Hsub & Honly & Hloop & _ & _).
    rewrite (while_exists_finds _ prompt w2 N) in Hloop.
    - injection Hloop as <-. reflexivity.
    - intros k Hk. apply path_exists_occupied. unfold occupied.
      apply elem_of_union_l, elem_of_dom. rewrite Hf2.
      rewrite lookup_insert_ne
        by (intros Heq; symmetry in Heq; revert Heq; apply candidate_not_temp_wav).
      apply Hfiles, Hk.
    - match goal with |- ?b = false => destruct b eqn:Hex; [|reflexivity] end.
      exfalso. apply path_exists_occupied in Hex. unfold occupied in Hex.
      assert (candidate (path_join "Output" (today w)) (re_sub_W prompt +:+ ".mp3") N
              ∉ occupied w) as Hnot.
      { intros Hin. apply path_exists_occupied in Hin. congruence. }
      unfold occupied in Hnot. rewrite not_elem_of_union in Hnot.
      destruct Hnot as [Hnofile Hnodir].
      apply elem_of_union in Hex as [Hin|Hin].
      + apply elem_of_dom in Hin. rewrite Hf2 in Hin.
        rewrite lookup_insert_ne in Hin
          by (intros Heq; symmetry in Heq; revert Heq; apply candidate_not_temp_wav).
        apply Hnofile, elem_of_dom, Hin.
      + apply Honly in Hin as [Hin|Hin]; [exact (Hnodir Hin)|].
        exact (candidate_is_no_ancestor _ prompt N Hin). }
  split; [|split; [|split; [|split]]].
  - rewrite Hpath. destruct N as [|n]; [lia|]. unfold candidate, numbered.
    rewrite drop_last4_mp3. reflexivity.
  - intros k Hk.
    destruct (generate_audio_overwrites_nothing _ _ _ _ _ _ _ _ _ _ _ _ Hrun)
      as (_ & _ & _ & Hothers).
    apply Hothers; [|apply candidate_not_temp_wav].
    rewrite Hpath. intros Heq. apply candidate_inj in Heq. lia.
  - intros w0. destruct (while_exists_total (path_join "Output" (today w)) prompt w0)
      as (n & Hloop & Hn).
    eauto.
  - intros Hlibs prompt0 sampler0 steps0 cfg0 smin0 smax0 time0 seed0 w0.
    apply (returns_generate_audio Hlibs).
  - intros prompt0 sampler0 steps0 cfg0 smin0 smax0 time0 seed0 w0 w0' path0 payload0.
    apply generate_audio_overwrites_nothing.
Qed.

Lemma C3_witness :
  let w := Stub.with_files ["Output/2024-05-01/Test_Tone_.mp3";
                            "Output/2024-05-01/Test_Tone__1.mp3";
                            "Output/2024-05-01/Test_Tone__2.mp3"] Stub.empty_world in
  let run := @generate_audio Stub.fixed_model Stub.raw_audio "Test Tone!!"
               (Int 100) (Int 7) (Int 1) (Int 500) (Int 47) (Int 42) "k-lms" in
  (run w).1 = Ok ("Output/2024-05-01/Test_Tone__3.mp3", "/3//HwGAAaD/PwAAAeD/Xw==")
  /\ "Output/2024-05-01/Test_Tone__3.mp3"
     = path_join (path_join "Output" "2024-05-01")
                 (re_sub_W "Test Tone!!" +:+ "_" +:+ str_of_int 3 +:+ ".mp3")
  /\ forall k, (k < 3)%nat ->
       files (run w).2 !! candidate "Output/2024-05-01" "Test_Tone_.mp3" k
       = files w !! candidate "Output/2024-05-01" "Test_Tone_.mp3" k.
Proof.
  intros w run.
  assert (run w = (Ok ("Output/2024-05-01/Test_Tone__3.mp3", "/3//HwGAAaD/PwAAAeD/Xw=="),
                   (run w).2)) as Hrun by (vm_compute; reflexivity).
  split; [rewrite Hrun; reflexivity|].
  refine (let H3 := @C3_probe_resolves_to_first_free Stub.fixed_model Stub.raw_audio
                      "Test Tone!!" "k-lms" (Int 100) (Int 7) (Int 1) (Int 500) (Int 47)
                      (Int 42) w (run w).2 3%nat _ _ _ _ _ Hrun in
          conj (proj1 H3) (proj1 (proj2 H3))).
  - lia.
  - intros k Hk.
    destruct k as [|[|[|k]]]; [vm_compute; eexists; reflexivity..|lia].
  - vm_compute. reflexivity.
Defined.

(** ** Facts about rounding to binary32 *)

Section Rounding.
Import F32.

Lemma fexp32 (e : Z) : fexp prec emax e = Z.max (e - 24) (-149).
Proof. reflexivity. Qed.

Lemma digits2_size (p : positive) : digits2_pos p = Pos.size p.
Proof. induction p as [p IH|p IH|]; simpl; rewrite ?IH; reflexivity. Qed.

(** The number of binary digits brackets the number. *)
Lemma Zdigits2_bounds (m : Z) :
  0 < m -> 2 ^ (Zdigits2 m - 1) <= m < 2 ^ Zdigits2 m.
Proof.
  destruct m as [|p|p]; try lia. intros _. unfold Zdigits2.
  rewrite digits2_size.
  pose proof (Pos.size_gt p) as Hgt. pose proof (Pos.size_le p) as Hle.
  split.
  - assert (2 ^ Z.pos (Pos.size p) <= 2 * Z.pos p) as Hle'.
    { change 2 with (Z.pos 2) at 1. rewrite <- Pos2Z.inj_pow.
      change (2 * Z.pos p) with (Z.pos (p~0)). apply Pos2Z.pos_le_pos, Hle. }
    replace (Z.pos (Pos.size p)) with (Z.succ (Z.pos (Pos.size p) - 1)) in Hle' by lia.
    rewrite Z.pow_succ_r in Hle' by lia. lia.
  - change 2 with (Z.pos 2). rewrite <- Pos2Z.inj_pow. apply Pos2Z.pos_lt_pos, Hgt.
Qed.

Lemma Zdigits2_nonneg (m : Z) : 0 <= Zdigits2 m.
Proof. destruct m; simpl; lia. Qed.

(** A number below a power of two has at most that many digits. *)
Lemma Zdigits2_le (m k : Z) : 0 <= m -> 0 <= k -> m < 2 ^ k -> Zdigits2 m <= k.
Proof.
  intros Hm Hk Hlt. destruct (Z.eq_dec m 0) as [->|Hne]; [simpl; lia|].
  destruct (Zdigits2_bounds m) as [Hlow _]; [lia|].
  destruct (Z_le_gt_dec (Zdigits2 m) k) as [|Hgt]; [assumption|exfalso].
  assert (2 ^ k <= 2 ^ (Zdigits2 m - 1)) by (apply Z.pow_le_mono_r; lia). lia.
Qed.

Lemma iter_pos_nat {A} (f : A -> A) (p : positive) (x : A) :
  SpecFloat.iter_pos f p x = Nat.iter (Pos.to_nat p) f x.
Proof.
  revert x. induction p as [p IH|p IH|]; intros x; cbn [SpecFloat.iter_pos].
  - rewrite !IH, Pos2Nat.inj_xI, Nat.iter_succ_r.
    replace (2 * Pos.to_nat p)%nat with (Pos.to_nat p + Pos.to_nat p)%nat by lia.
    rewrite Nat.iter_add. reflexivity.
  - rewrite !IH, Pos2Nat.inj_xO.
    replace (2 * Pos.to_nat p)%nat with (Pos.to_nat p + Pos.to_nat p)%nat by lia.
    rewrite Nat.iter_add. reflexivity.
  - reflexivity.
Qed.

(** One shift on a non-negative mantissa: halve, remember the bit that
    falls off, accumulate the earlier ones. *)
Lemma shr_1_spec (mrs : shr_record) :
  0 <= shr_m mrs ->
  shr_1 mrs = {| shr_m := shr_m mrs / 2; shr_r := Z.odd (shr_m mrs);
                 shr_s := shr_r mrs || shr_s mrs |}.
Proof.
  destruct mrs as [m r s]. cbn [shr_m shr_r shr_s]. intros Hm.
  destruct m as [|[p|p|]|]; try lia; cbn [shr_1 Z.odd]; f_equal.
  - rewrite Pos2Z.inj_xI. apply Z.div_unique with (r := 1); lia.
  - rewrite Pos2Z.inj_xO. apply Z.div_unique with (r := 0); lia.
Qed.

Lemma shr_iter_spec (k : nat) (m : Z) (r s : bool) :
  0 <= m ->
  let mrs := Nat.iter k shr_1 {| shr_m := m; shr_r := r; shr_s := s |} in
  shr_m mrs = m / 2 ^ Z.of_nat k
  /\ (r = false -> s = false -> m mod 2 ^ Z.of_nat k = 0 ->
      shr_r mrs = false /\ shr_s mrs = false).
Proof.
  intros Hm. induction k as [|k [IHm IHrs]].
  - simpl. rewrite Z.div_1_r. auto.
  - cbn zeta in *. rewrite Nat.iter_succ.
    set (prev := Nat.iter k shr_1 _) in *.
    assert (0 <= shr_m prev) as Hprev by (rewrite IHm; apply Z.div_pos; lia).
    rewrite shr_1_spec by exact Hprev. cbn [shr_m shr_r shr_s].
    rewrite Nat2Z.inj_succ, Z.pow_succ_r by lia.
    split.
    + rewrite IHm, Z.div_div by lia. f_equal. lia.
    + intros Hr Hs Hmod.
      assert (m mod 2 ^ Z.of_nat k = 0) as Hmodk.
      { apply Z.mod_divide in Hmod as [q Hq]; [|lia].
        apply Z.mod_divide; [lia|]. exists (q * 2). lia. }
      destruct (IHrs Hr Hs Hmodk) as [-> ->]. split; [|reflexivity].
      rewrite IHm.
      apply Z.mod_divide in Hmod as [q Hq]; [|lia].
      replace m with (q * 2 * 2 ^ Z.of_nat k) by lia.
      rewrite Z.div_mul by lia. rewrite Z.odd_mul. simpl. apply andb_false_r.
Qed.

Lemma shr_record_of_loc_m (m : Z) (l : location) :
  shr_m (shr_record_of_loc m l) = m.
Proof. destruct l as [|[]]; reflexivity. Qed.

(** [shr_fexp] divides the mantissa by a power of two, and an exact
    division of an exact value stays exact. *)
Lemma shr_fexp_spec (m e : Z) (l : location) :
  0 <= m ->
  exists mrs,
    let n := Z.max 0 (fexp prec emax (Zdigits2 m + e) - e) in
    shr_fexp prec emax m e l = (mrs, e + n)
    /\ shr_m mrs = m / 2 ^ n
    /\ (l = loc_Exact -> m mod 2 ^ n = 0 -> loc_of_shr_record mrs = loc_Exact).
Proof.
  intros Hm. unfold shr_fexp, shr.
  destruct (fexp prec emax (Zdigits2 m + e) - e) as [|p|p] eqn:Hn.
  - eexists. cbn zeta. rewrite Z.max_l by lia. rewrite Z.add_0_r.
    split; [reflexivity|]. rewrite shr_record_of_loc_m, Z.div_1_r.
    split; [reflexivity|]. intros -> _. reflexivity.
  - eexists. cbn zeta. rewrite Z.max_r by lia.
    split; [reflexivity|]. rewrite iter_pos_nat.
    assert (exists r s, shr_record_of_loc m l = {| shr_m := m; shr_r := r; shr_s := s |}
                        /\ (l = loc_Exact -> r = false /\ s = false))
      as (r & s & -> & Hexact).
    { destruct l as [|[]]; cbn; eexists _, _; (split; [reflexivity|]);
        intros; try discriminate; auto. }
    destruct (shr_iter_spec (Pos.to_nat p) m r s Hm) as [Hdiv Hloc].
    rewrite positive_nat_Z in Hdiv, Hloc.
    split; [exact Hdiv|]. intros Hl Hmod.
    destruct (Hexact Hl) as [-> ->]. destruct (Hloc eq_refl eq_refl Hmod) as [Hr Hs].
    destruct (Nat.iter _ _ _) as [m' r' s']. cbn in Hr, Hs. subst. reflexivity.
  - eexists. cbn zeta. rewrite Z.max_l by lia. rewrite Z.add_0_r.
    split; [reflexivity|]. rewrite shr_record_of_loc_m, Z.div_1_r.
    split; [reflexivity|]. intros -> _. reflexivity.
Qed.

Lemma round_nearest_even_bounds (m : Z) (l : location) :
  m <= round_nearest_even m l <= m + 1.
Proof. destruct l as [|[]]; cbn; try destruct (Z.even m); lia. Qed.

Lemma pow2_split (a b : Z) : 0 <= a -> 0 <= b -> 2 ^ (a + b) = 2 ^ a * 2 ^ b.
Proof. intros. apply Z.pow_add_r; assumption. Qed.

Lemma pow2_pos (a : Z) : 0 <= a -> 0 < 2 ^ a.
Proof. intros. apply Z.pow_pos_nonneg; lia. Qed.

(** After the shift the mantissa fits in 24 bits. *)
Lemma shift_fits (m e : Z) :
  0 <= m ->
  m / 2 ^ Z.max 0 (fexp prec emax (Zdigits2 m + e) - e) < 2 ^ 24.
Proof.
  intros Hm. rewrite fexp32.
  set (n := Z.max 0 _).
  destruct (Z.eq_dec m 0) as [->|Hne]; [rewrite Z.div_0_l; [lia|]|].
  { pose proof (pow2_pos n). lia. }
  destruct (Zdigits2_bounds m) as [_ Hup]; [lia|].
  pose proof (Zdigits2_nonneg m) as Hd.
  assert (Zdigits2 m <= n + 24) as Hdn by lia.
  assert (2 ^ Zdigits2 m <= 2 ^ (n + 24)) as Hpow by (apply Z.pow_le_mono_r; lia).
  rewrite pow2_split in Hpow by lia.
  apply Z.div_lt_upper_bound; [apply pow2_pos; lia|]. lia.
Qed.

(** And so does it after rounding up and shifting once more. *)
Lemma reshift_fits (m e : Z) :
  0 <= m <= 2 ^ 24 ->
  m / 2 ^ Z.max 0 (fexp prec emax (Zdigits2 m + e) - e) < 2 ^ 24.
Proof.
  intros Hm. destruct (Z.eq_dec m (2 ^ 24)) as [->|Hne].
  - rewrite fexp32. change (Zdigits2 (2 ^ 24)) with 25.
    set (n := Z.max 0 _). assert (1 <= n) as Hn by lia.
    apply Z.div_lt_upper_bound; [apply pow2_pos; lia|].
    assert (2 ^ 1 <= 2 ^ n) by (apply Z.pow_le_mono_r; lia). lia.
  - set (n := Z.max 0 _).
    assert (m / 2 ^ n <= m); [|lia].
    apply Z.div_le_upper_bound; [apply pow2_pos; lia|].
    pose proof (pow2_pos n). nia.
Qed.

(** Rounding a non-negative mantissa never gives NaN, keeps the sign and
    gives at most 24 bits of mantissa. *)
Lemma binary_round_aux_shape (sx : bool) (mx ex : Z) (lx : location) :
  0 <= mx ->
  match binary_round_aux prec emax sx mx ex lx with
  | S754_nan => False
  | S754_finite s m _ => s = sx /\ Z.pos m < 2 ^ 24
  | S754_zero s | S754_infinity s => s = sx
  end.
Proof.
  intros Hmx. unfold binary_round_aux.
  destruct (shr_fexp_spec mx ex lx Hmx) as (mrs1 & H1 & Hm1 & _). cbn zeta in *.
  rewrite H1.
  set (m2 := round_nearest_even (shr_m mrs1) (loc_of_shr_record mrs1)).
  pose proof (round_nearest_even_bounds (shr_m mrs1) (loc_of_shr_record mrs1)) as Hm2.
  fold m2 in Hm2.
  pose proof (shift_fits mx ex Hmx) as Hfit. rewrite <- Hm1 in Hfit.
  assert (0 <= shr_m mrs1) as Hpos1.
  { rewrite Hm1. apply Z.div_pos; [lia|apply pow2_pos; lia]. }
  assert (0 <= m2 <= 2 ^ 24) as Hm2' by lia.
  destruct (shr_fexp_spec m2 (ex + Z.max 0 (fexp prec emax (Zdigits2 mx + ex) - ex))
                          loc_Exact) as (mrs2 & H2 & Hm3 & _); [lia|].
  cbn zeta in *. rewrite H2.
  pose proof (reshift_fits m2 (ex + Z.max 0 (fexp prec emax (Zdigits2 mx + ex) - ex))
                           Hm2') as Hfit2.
  rewrite <- Hm3 in Hfit2.
  assert (0 <= shr_m mrs2) as Hpos2.
  { rewrite Hm3. apply Z.div_pos; [lia|apply pow2_pos; lia]. }
  destruct (shr_m mrs2) as [|m3|m3]; [reflexivity| |lia].
  destruct (_ <=? _); [split; [reflexivity|lia]|reflexivity].
Qed.

(** A finite non-zero value divided by its own magnitude is one, with
    the sign of the value. *)
Lemma div_self (s : bool) (m : positive) (e : Z) :
  div (S754_finite s m e) (S754_finite false m e) = S754_finite s 8388608 (-23).
Proof.
  unfold div, SFdiv, SFdiv_core_binary.
  replace (Zdigits2 (Z.pos m) + e - (Zdigits2 (Z.pos m) + e)) with 0 by lia.
  rewrite Z.sub_diag. change (Z.min (fexp prec emax 0) 0) with (-24).
  change (0 - -24) with 24. cbv iota beta.
  rewrite Z.shiftl_mul_pow2 by lia.
  assert (Z.div_eucl (Z.pos m * 2 ^ 24) (Z.pos m) = (2 ^ 24, 0)) as ->.
  { pose proof (Z.div_eucl_eq (Z.pos m * 2 ^ 24) (Z.pos m)) as Heq.
    pose proof (Z.mod_pos_bound (Z.pos m * 2 ^ 24) (Z.pos m)) as Hmod.
    unfold Z.modulo, Z.div in *.
    pose proof (Z.div_mul (2 ^ 24) (Z.pos m)) as Hq.
    pose proof (Z.mod_mul (2 ^ 24) (Z.pos m)) as Hr.
    unfold Z.modulo, Z.div in *. rewrite (Z.mul_comm (2 ^ 24)) in Hq, Hr.
    destruct (Z.div_eucl (Z.pos m * 2 ^ 24) (Z.pos m)) as [q r].
    cbn [fst snd] in *. rewrite Hq, Hr by lia. reflexivity. }
  assert (new_location (Z.pos m) 0 = loc_Exact) as ->.
  { unfold new_location, new_location_even, new_location_odd.
    destruct (Z.even (Z.pos m)); reflexivity. }
  rewrite xorb_false_r. destruct s; reflexivity.
Qed.

(** Dividing a finite value by a finite non-zero one never gives NaN. *)
Lemma div_shape (x : float32) (sy : bool) (my : positive) (ey : Z) :
  is_finite x = true ->
  match div x (S754_finite sy my ey) with
  | S754_nan => False
  | S754_finite _ m _ => Z.pos m < 2 ^ 24
  | _ => True
  end.
Proof.
  destruct x as [sx|sx| |sx mx ex]; try discriminate; intros _; [exact I|].
  unfold div, SFdiv, SFdiv_core_binary.
  set (e' := Z.min _ _). set (m' := match _ with Z0 => _ | Z.pos _ => _ | Z.neg _ => _ end).
  assert (0 <= m') as Hm'.
  { unfold m'. destruct (ex - ey - e'); [lia| |lia]. apply Z.shiftl_nonneg. lia. }
  pose proof (Z.div_pos m' (Z.pos my) Hm' ltac:(lia)) as Hq. unfold Z.div in Hq.
  destruct (Z.div_eucl m' (Z.pos my)) as [q r]. cbn [fst] in Hq.
  pose proof (binary_round_aux_shape (xorb sx sy) q e' (new_location (Z.pos my) r) Hq)
    as Hshape.
  destruct (binary_round_aux _ _ _ _ _ _); tauto.
Qed.

(** A mantissa and exponent whose value is at most 32767, the exponent
    being at most -9, stay so through a shift with rounding to nearest:
    32767 is a multiple of every unit that small. *)
Lemma shr_fexp_below_full_scale (m e : Z) :
  0 <= m -> e <= -9 -> m <= 32767 * 2 ^ (- e) ->
  exists mrs e1,
    shr_fexp prec emax m e loc_Exact = (mrs, e1)
    /\ e1 <= -9 /\ 0 <= shr_m mrs
    /\ shr_m mrs <= round_nearest_even (shr_m mrs) (loc_of_shr_record mrs)
    /\ round_nearest_even (shr_m mrs) (loc_of_shr_record mrs) <= 32767 * 2 ^ (- e1).
Proof.
  intros Hm He Hle.
  destruct (shr_fexp_spec m e loc_Exact Hm) as (mrs & Hshr & Hdiv & Hloc).
  cbn zeta in *. rewrite fexp32 in *.
  set (n := Z.max 0 _) in *.
  exists mrs, (e + n). split; [exact Hshr|].
  assert (0 < 2 ^ n) as Hpn by (apply pow2_pos; lia).
  assert (0 < 2 ^ (- e)) as Hpe by (apply pow2_pos; lia).
  assert (e + n <= -9) as He1.
  { destruct (Z.eq_dec n 0) as [->|Hn]; [lia|].
    assert (Zdigits2 m <= 15 - e); [|lia].
    apply Zdigits2_le; [lia|lia|].
    replace (15 - e) with (15 + - e) by lia.
    rewrite pow2_split by lia. change (2 ^ 15) with 32768. lia. }
  assert (0 < 2 ^ (- (e + n))) as Hpe1 by (apply pow2_pos; lia).
  assert (2 ^ (- e) = 2 ^ (- (e + n)) * 2 ^ n) as Hsplit.
  { rewrite <- pow2_split by lia. f_equal. lia. }
  assert (0 <= shr_m mrs) as Hpos by (rewrite Hdiv; apply Z.div_pos; lia).
  pose proof (round_nearest_even_bounds (shr_m mrs) (loc_of_shr_record mrs)) as Hrne.
  split; [exact He1|]. split; [exact Hpos|]. split; [lia|].
  pose proof (Z.div_mod m (2 ^ n) ltac:(lia)) as Hdm.
  pose proof (Z.mod_pos_bound m (2 ^ n) Hpn) as Hmod.
  rewrite <- Hdiv in Hdm.
  assert (shr_m mrs <= 32767 * 2 ^ (- (e + n))) as Hupper by nia.
  destruct (Z.eq_dec (shr_m mrs) (32767 * 2 ^ (- (e + n)))) as [Heq|Hne]; [|lia].
  assert (m mod 2 ^ n = 0) as Hexact by nia.
  rewrite (Hloc eq_refl Hexact). cbn. lia.
Qed.

(** The product of a value of magnitude at most one with 32767, rounded
    to binary32, converts to an integer of magnitude at most 32767. *)
Lemma mul_full_scale_bound (cast : Z) (s : bool) (m : positive) (e : Z) :
  e <= 0 -> Z.pos m <= 2 ^ (- e) ->
  to_int16 cast (mul (S754_finite s m e) full_scale)
  = trunc (mul (S754_finite s m e) full_scale)
  /\ -32767 <= trunc (mul (S754_finite s m e) full_scale) <= 32767.
Proof.
  intros He Hm. change full_scale with (S754_finite false 16776704 (-9)).
  unfold mul, SFmul, binary_round_aux.
  assert (0 < 2 ^ (- e)) as Hpe by (apply pow2_pos; lia).
  assert (Z.pos (m * 16776704) <= 32767 * 2 ^ (- (e + -9))) as Hbound.
  { rewrite Pos2Z.inj_mul. replace (- (e + -9)) with (- e + 9) by lia.
    rewrite pow2_split by lia. change (2 ^ 9) with 512. lia. }
  destruct (shr_fexp_below_full_scale (Z.pos (m * 16776704)) (e + -9))
    as (mrs1 & e1 & -> & He1 & Hpos1 & Hlow1 & Hup1); [lia|lia|exact Hbound|].
  set (m2 := round_nearest_even _ _) in *.
  destruct (shr_fexp_below_full_scale m2 e1)
    as (mrs2 & e2 & -> & He2 & Hpos2 & Hlow2 & Hup2); [lia|lia|exact Hup1|].
  assert (shr_m mrs2 <= 32767 * 2 ^ (- e2)) as Hup by lia.
  destruct (shr_m mrs2) as [|m3|m3]; [split; [reflexivity|cbn [trunc]; lia]| |lia].
  destruct (Z.leb_spec e2 (emax - prec)) as [_|Hbig]; [|unfold emax, prec in Hbig; lia].
  destruct e2 as [|p|p]; try lia.
  assert (0 <= Z.pos m3 ≫ Z.pos p <= 32767) as Hshift.
  { rewrite Z.shiftr_div_pow2 by lia. change (- Z.neg p) with (Z.pos p) in Hup.
    pose proof (pow2_pos (Z.pos p) ltac:(lia)).
    split; [apply Z.div_pos; lia|].
    apply Z.div_le_upper_bound; lia. }
  unfold to_int16, trunc, wrap16.
  destruct (xorb s false); split; try lia.
  - rewrite Z.mod_small by lia. lia.
  - rewrite Z.mod_small by lia. lia.
Qed.

(** Clamping to [-1, 1] leaves zero or a finite value of magnitude at
    most one, whatever non-NaN value with a 24-bit mantissa comes in. *)
Lemma clamp_unit (r : float32) :
  match r with
  | S754_nan => False
  | S754_finite _ m _ => Z.pos m < 2 ^ 24
  | _ => True
  end ->
  match clamp minus_one one r with
  | S754_zero _ => True
  | S754_finite _ m e => e <= 0 /\ Z.pos m <= 2 ^ (- e)
  | _ => False
  end.
Proof.
  change minus_one with (S754_finite true 8388608 (-23)).
  change one with (S754_finite false 8388608 (-23)).
  assert (2 ^ (- -23) = 8388608) as Hp23 by reflexivity.
  destruct r as [s|[]| |[] m e]; intros Hr; try exact I; try (exfalso; exact Hr);
    unfold clamp, SFltb, SFcompare; try (rewrite Hp23; lia).
  - change (PosDef.Pos.compare_cont Eq m 8388608) with (m ?= 8388608)%positive.
    destruct (Z.compare_spec e (-23)) as [->|Hlt|Hgt].
    + destruct (Pos.compare_spec m 8388608) as [->|Hlt|Hgt];
        cbn [CompOpp]; rewrite Hp23; lia.
    + split; [lia|]. assert (2 ^ 24 <= 2 ^ (- e)) by (apply Z.pow_le_mono_r; lia). lia.
    + rewrite Hp23. lia.
  - change (PosDef.Pos.compare_cont Eq 8388608 m) with (8388608 ?= m)%positive.
    destruct (Z.compare_spec (-23) e) as [<-|Hlt|Hgt].
    + destruct (Pos.compare_spec 8388608 m) as [<-|Hlt|Hgt]; rewrite Hp23; lia.
    + rewrite Hp23. lia.
    + split; [lia|]. assert (2 ^ 24 <= 2 ^ (- e)) by (apply Z.pow_le_mono_r; lia). lia.
Qed.

End Rounding.

(** ** Peak normalisation *)

Section Peak.
Import F32.

Lemma rearrange_samples (raw : tensor3) (x : float32) :
  rectangular raw -> (In x (elements (rearrange raw)) <-> In x (samples raw)).
Proof.
  intros Hrect. unfold elements, rearrange, samples. rewrite !in_concat. split.
  - intros (l & Hl & Hx). apply in_map_iff in Hl as (d & <- & Hd).
    apply in_concat in Hx as (c & Hc & Hx).
    apply in_map_iff in Hc as (b & <- & Hb).
    exists (nth d b []). split; [|exact Hx].
    apply in_concat. exists b. split; [exact Hb|].
    apply nth_In. destruct (Nat.lt_ge_cases d (length b)) as [|Hge]; [assumption|].
    rewrite nth_overflow in Hx by exact Hge. destruct Hx.
  - intros (c & Hc & Hx). apply in_concat in Hc as (b & Hb & Hc).
    apply (In_nth _ _ []) in Hc as (d & Hd & <-).
    unfold rectangular in Hrect. rewrite Forall_forall in Hrect.
    destruct (Hrect b) as [Hlen _]; [apply list_elem_of_In, Hb|].
    exists (concat (map (fun b' => nth d b' []) raw)). split.
    + apply in_map_iff. exists d. split; [reflexivity|]. apply in_seq. lia.
    + apply in_concat. exists (nth d b []). split; [|exact Hx].
      apply in_map_iff. exists b. split; [reflexivity|exact Hb].
Qed.

Lemma abs_magnitude (x : float32) : is_finite x = true -> magnitude (abs x).
Proof. destruct x; try discriminate; intros _; exact I. Qed.

Lemma max_magnitude (a b : float32) :
  magnitude a -> magnitude b ->
  (F32.max a b = a \/ F32.max a b = b)
  /\ (is_zero (F32.max a b) = true -> is_zero a = true /\ is_zero b = true).
Proof.
  destruct a as [[]|[]| |[] ma ea]; try contradiction;
    destruct b as [[]|[]| |[] mb eb]; try contradiction; intros _ _;
    unfold F32.max, SFcompare; try (cbn; auto; fail).
  destruct (ea ?= eb); [destruct (PosDef.Pos.compare_cont Eq ma mb)|..];
    cbn; split; auto; discriminate.
Qed.

Lemma fold_max_magnitude (r : list float32) (x : float32) :
  magnitude x -> Forall magnitude r ->
  In (fold_left F32.max r x) (x :: r)
  /\ (is_zero (fold_left F32.max r x) = true ->
      Forall (fun y => is_zero y = true) (x :: r)).
Proof.
  revert x. induction r as [|y r IH]; intros x Hx Hr.
  - cbn. split; [auto|]. intros Hz. repeat constructor. exact Hz.
  - apply Forall_cons in Hr as [Hy Hr].
    destruct (max_magnitude x y Hx Hy) as [Hpick Hzero].
    assert (magnitude (F32.max x y)) as Hm by (destruct Hpick as [-> | ->]; assumption).
    destruct (IH (F32.max x y) Hm Hr) as [Hin Hz]. cbn [fold_left]. split.
    + destruct Hin as [<-|Hin]; [|right; right; exact Hin].
      destruct Hpick as [-> | ->]; [left|right; left]; reflexivity.
    + intros Hfz. specialize (Hz Hfz). apply Forall_cons in Hz as [Hxy Hrz].
      destruct (Hzero Hxy) as [Hxz Hyz]. repeat constructor; assumption.
Qed.

(** The peak of a tensor of finite samples, not all zero, is finite and
    positive, and it is the magnitude of one of the samples. *)
Lemma max_abs_finite (t : tensor2 float32) :
  Forall (fun x => is_finite x = true) (elements t) ->
  Exists (fun x => is_zero x = false) (elements t) ->
  exists m e s, max_abs t = Some (S754_finite false m e)
                /\ In (S754_finite s m e) (elements t).
Proof.
  intros Hfin Hnz. unfold max_abs.
  destruct (elements t) as [|x xs] eqn:Hxs; [inversion Hnz|].
  cbn [map].
  assert (Forall magnitude (map abs (x :: xs))) as Hmag.
  { apply Forall_map. eapply Forall_impl; [exact Hfin|]. apply abs_magnitude. }
  cbn [map] in Hmag. apply Forall_cons in Hmag as [Hx Hr].
  destruct (fold_max_magnitude _ _ Hx Hr) as [Hin Hz].
  set (peak := fold_left F32.max (map abs xs) (abs x)) in *.
  change (abs x :: map abs xs) with (map abs (x :: xs)) in Hin, Hz.
  apply in_map_iff in Hin as (y & Hy & Hyin).
  destruct (is_zero peak) eqn:Hpz.
  - exfalso. specialize (Hz eq_refl). apply Exists_exists in Hnz as (z & Hzin & Hznz).
    rewrite Forall_forall in Hz.
    assert (is_zero (abs z) = true) as Habs.
    { apply Hz. apply list_elem_of_In, in_map, list_elem_of_In, Hzin. }
    destruct z; cbn in *; congruence.
  - rewrite Forall_forall in Hfin.
    assert (is_finite y = true) as Hyfin by (apply Hfin, list_elem_of_In, Hyin).
    destruct y as [sy|sy| |sy my ey]; try discriminate Hyfin.
    + rewrite <- Hy in Hpz. discriminate Hpz.
    + exists my, ey, sy. rewrite <- Hy. split; [reflexivity|exact Hyin].
Qed.

Lemma quantize_peak (cast : Z) (s : bool) (m : positive) (e : Z) :
  quantize_sample cast (S754_finite false m e) (S754_finite s m e)
  = if s then -32767 else 32767.
Proof.
  unfold quantize_sample, scale_sample. rewrite div_self. destruct s; reflexivity.
Qed.

(** Every finite sample is quantised by truncation toward zero, to an
    integer of magnitude at most 32767. *)
Lemma quantize_finite (cast : Z) (x : float32) (m : positive) (e : Z) :
  is_finite x = true ->
  quantize_sample cast (S754_finite false m e) x
  = trunc (scale_sample (S754_finite false m e) x)
  /\ -32767 <= trunc (scale_sample (S754_finite false m e) x) <= 32767.
Proof.
  intros Hx. unfold quantize_sample, scale_sample.
  pose proof (clamp_unit _ (div_shape x false m e Hx)) as Hc.
  destruct (clamp minus_one one (div x (S754_finite false m e))) as [s| | |s mc ec];
    try contradiction.
  - destruct s; (split; [reflexivity|vm_compute; split; discriminate]).
  - destruct Hc as [Hec Hmc]. apply mul_full_scale_bound; assumption.
Qed.

Lemma map_map_ext {A B} (f g : A -> B) (t : tensor2 A) :
  (forall x, In x (elements t) -> f x = g x) -> map (map f) t = map (map g) t.
Proof.
  intros Hfg. apply map_ext_in. intros row Hrow. apply map_ext_in. intros x Hx.
  apply Hfg. unfold elements. apply in_concat. eauto.
Qed.

Lemma elements_map {A B} (f : A -> B) (t : tensor2 A) :
  elements (map (map f) t) = map f (elements t).
Proof. unfold elements. rewrite concat_map. reflexivity. Qed.

(** The peak of a silent tensor is zero. *)
Lemma max_abs_silent (t : tensor2 float32) :
  elements t <> [] ->
  Forall (fun x => is_zero x = true) (elements t) ->
  max_abs t = Some (S754_zero false).
Proof.
  intros Hne Hz. unfold max_abs. destruct (elements t) as [|x xs]; [congruence|].
  cbn [map]. apply Forall_cons in Hz as [Hx Hxs].
  destruct x; try discriminate Hx. cbn [abs SFabs]. f_equal. clear Hne Hx.
  induction xs as [|y ys IH]; [reflexivity|].
  apply Forall_cons in Hxs as [Hy Hys].
  destruct y; try discriminate Hy. cbn. apply IH, Hys.
Qed.

End Peak.

Section Transfer.
Import F32.

Lemma rearrange_Forall (P : float32 -> Prop) (raw : tensor3) :
  rectangular raw -> Forall P (samples raw) -> Forall P (elements (rearrange raw)).
Proof.
  intros Hrect. rewrite !Forall_forall. intros HP x Hx.
  apply HP, list_elem_of_In, (rearrange_samples raw x Hrect), list_elem_of_In, Hx.
Qed.

Lemma rearrange_Exists (P : float32 -> Prop) (raw : tensor3) :
  rectangular raw -> Exists P (samples raw) -> Exists P (elements (rearrange raw)).
Proof.
  intros Hrect. rewrite !Exists_exists. intros (x & Hx & HP). exists x.
  split; [|exact HP].
  apply list_elem_of_In, (rearrange_samples raw x Hrect), list_elem_of_In, Hx.
Qed.

End Transfer.

(** C1.  On a silent model output (every sample a zero) nothing guards the
    division of line 51: the peak is zero, every sample is divided by it
    and becomes NaN, and the 16-bit output holds, at every position, what
    the platform's conversion makes of a NaN; it is all-zero only where
    that conversion happens to give zero. *)
Theorem C1_silent_input_divides_by_zero (cast : Z) (raw : tensor3) :
  rectangular raw ->
  samples raw <> [] ->
  Forall (fun x => F32.is_zero x = true) (samples raw) ->
  max_abs (rearrange raw) = Some (S754_zero false)
  /\ normalized_floats (rearrange raw)
     = Some (map (map (fun _ => S754_nan)) (rearrange raw))
  /\ post_process cast raw = Some (map (map (fun _ => cast)) (rearrange raw)).
Proof.
  intros Hrect Hne Hzero.
  assert (elements (rearrange raw) <> []) as Hne'.
  { destruct (samples raw) as [|x xs] eqn:Hs; [congruence|].
    assert (In x (elements (rearrange raw))) as Hin.
    { apply rearrange_samples; [exact Hrect|]. rewrite Hs. left. reflexivity. }
    intros Hnil. rewrite Hnil in Hin. destruct Hin. }
  pose proof (rearrange_Forall _ raw Hrect Hzero) as Hzero'.
  pose proof (max_abs_silent _ Hne' Hzero') as Hpeak.
  assert (forall x, In x (elements (rearrange raw)) ->
                    F32.div x (S754_zero false) = S754_nan) as Hdiv.
  { intros x Hx. rewrite Forall_forall in Hzero'.
    specialize (Hzero' x (proj2 (list_elem_of_In _ _) Hx)).
    destruct x as [[]| | |]; try discriminate Hzero'; reflexivity. }
  split; [exact Hpeak|]. split.
  - unfold normalized_floats. rewrite Hpeak. f_equal. apply map_map_ext, Hdiv.
  - unfold post_process, normalize. rewrite Hpeak. f_equal. apply map_map_ext.
    intros x Hx. unfold quantize_sample, scale_sample. rewrite (Hdiv x Hx). reflexivity.
Qed.

Lemma C1_witness :
  normalized_floats (rearrange [[[S754_zero false; S754_zero false]]])
  = Some [[S754_nan; S754_nan]]
  /\ post_process (-32768) [[[S754_zero false; S754_zero false]]]
     = Some [[-32768; -32768]].
Proof.
  refine (proj2 (C1_silent_input_divides_by_zero (-32768)
                   [[[S754_zero false; S754_zero false]]] _ _ _)).
  - repeat constructor.
  - discriminate.
  - repeat constructor.
Defined.

(** C4, as the code has it.  For a model output whose samples are all
    finite and not all zero, the 16-bit output is obtained sample by sample
    by truncating toward zero the clamped value scaled by 32767; no output
    sample exceeds 32767 in magnitude and at least one has magnitude
    exactly 32767. *)
Theorem C4_peak_reaches_full_scale (cast : Z) (raw : tensor3) :
  rectangular raw ->
  Forall (fun x => F32.is_finite x = true) (samples raw) ->
  Exists (fun x => F32.is_zero x = false) (samples raw) ->
  exists peak pcm,
    max_abs (rearrange raw) = Some peak
    /\ post_process cast raw = Some pcm
    /\ pcm = map (map (fun x => F32.trunc (scale_sample peak x))) (rearrange raw)
    /\ Forall (fun z => -32767 <= z <= 32767) (elements pcm)
    /\ Exists (fun z => Z.abs z = 32767) (elements pcm).
Proof.
  intros Hrect Hfin Hnz.
  pose proof (rearrange_Forall _ raw Hrect Hfin) as Hfin'.
  pose proof (rearrange_Exists _ raw Hrect Hnz) as Hnz'.
  destruct (max_abs_finite _ Hfin' Hnz') as (m & e & s & Hpeak & Hin).
  exists (S754_finite false m e). eexists. split; [exact Hpeak|].
  assert (forall x, In x (elements (rearrange raw)) -> F32.is_finite x = true) as Hall.
  { intros x Hx. rewrite Forall_forall in Hfin'. apply Hfin', list_elem_of_In, Hx. }
  split; [|split; [reflexivity|split]].
  - unfold post_process, normalize. rewrite Hpeak. f_equal. apply map_map_ext.
    intros x Hx. exact (proj1 (quantize_finite cast x m e (Hall x Hx))).
  - rewrite elements_map. apply Forall_forall. intros z Hz.
    apply list_elem_of_In, in_map_iff in Hz as (x & <- & Hx).
    exact (proj2 (quantize_finite cast x m e (Hall x Hx))).
  - rewrite elements_map. apply Exists_exists.
    exists (F32.trunc (scale_sample (S754_finite false m e) (S754_finite s m e))).
    split.
    { apply list_elem_of_In.
      apply (in_map (fun x => F32.trunc (scale_sample (S754_finite false m e) x))), Hin. }
    destruct (quantize_finite cast (S754_finite s m e) m e eq_refl) as [<- _].
    rewrite quantize_peak. destruct s; reflexivity.
Qed.

Lemma C4_witness :
  exists peak pcm,
    max_abs (rearrange Stub.tone) = Some peak
    /\ post_process 0 Stub.tone = Some pcm
    /\ pcm = map (map (fun x => F32.trunc (scale_sample peak x))) (rearrange Stub.tone)
    /\ Forall (fun z => -32767 <= z <= 32767) (elements pcm)
    /\ Exists (fun z => Z.abs z = 32767) (elements pcm).
Proof.
  apply (C4_peak_reaches_full_scale 0 Stub.tone).
  - repeat constructor.
  - repeat constructor.
  - left. reflexivity.
Defined.

(** C4 as stated fails in two ways.  The quantisation does not round to
    the nearest integer: with the samples 4 and 1 the second one is scaled
    to 8191.75, which the code turns into 8191 and rounding to nearest into
    8192.  And a non-zero sample need not bring the peak to full scale: with
    an infinite sample next to the sample 1 nothing in the output has
    magnitude 32767. *)
Lemma C4_quantisation_truncates :
  post_process 0 [[[F32.of_Z 4; F32.of_Z 1]]] = Some [[32767; 8191]]
  /\ scale_sample (F32.of_Z 4) (F32.of_Z 1) = S754_finite false 16776704 (-11)
  /\ map (spec_quantize_sample (F32.of_Z 4)) [F32.of_Z 4; F32.of_Z 1] = [32767; 8192]
  /\ post_process 0 [[[S754_infinity false; F32.of_Z 1]]] = Some [[0; 0]].
Proof. repeat split; vm_compute; reflexivity. Qed.


(** * Further properties of the two functions *)

(** ** The surface always answers *)


(** X1.  If every call into the model and the audio libraries comes back
    (with a value or an exception), then [audio_generator] always comes back
    with a pair of strings: it neither raises nor loops, whatever the
    request and the state of the file system. *)
Theorem X1_surface_always_answers `{Pretrained} `{AudioLib}
        (prompt sampler_type : string)
        (steps cfg_scale sigma_min sigma_max generation_time seed : number)
        (wait_time : string) (w : world) :
  libraries_return ->
  exists fragment status w',
    audio_generator prompt sampler_type steps cfg_scale sigma_min sigma_max
                    generation_time seed wait_time w = (Ok (fragment, status), w').
Proof.
  intros Hlibs.
  assert (returns (audio_generator prompt sampler_type steps cfg_scale sigma_min
                                   sigma_max generation_time seed wait_time)) as Hret.
  { unfold audio_generator. apply returns_try_except; [|intros e; apply returns_ret].
    apply returns_bind; [apply returns_generate_audio, Hlibs|intros [filename payload]].
    apply returns_bind; [apply returns_parse_wait|intros n].
    apply returns_bind; [apply returns_print_waiting|intros []].
    apply returns_bind; [apply returns_time_sleep|intros []]. apply returns_ret. }
  specialize (Hret w).
  pose proof (surface_never_raises prompt sampler_type steps cfg_scale sigma_min
                sigma_max generation_time seed wait_time w) as Hnoraise.
  destruct (audio_generator _ _ _ _ _ _ _ _ _ w) as [[[fragment status]|e|] w'];
    cbn in Hret.
  - eauto.
  - exfalso. apply (Hnoraise w' e). reflexivity.
  - congruence.
Qed.

Lemma X1_witness :
  exists fragment status w',
    @audio_generator Stub.failing_model Stub.raw_audio "rain" "k-lms"
      (Int 100) (Int 7) (Int 1) (Int 500) (Int 47) (Int 42) "soon" Stub.empty_world
    = (Ok (fragment, status), w').
Proof.
  apply (@X1_surface_always_answers Stub.failing_model Stub.raw_audio).
  repeat split; intros; discriminate.
Defined.

(** ** One model call per request *)

Section Calls.
Context `{Pretrained} `{AudioLib}.
Variables (prompt sampler_type : string).
Variables (steps cfg_scale sigma_min sigma_max generation_time seed : number).
Variable (wait_time : string).

Let generate := generate_audio prompt steps cfg_scale sigma_min sigma_max
                               generation_time seed sampler_type.
Let surface := audio_generator prompt sampler_type steps cfg_scale sigma_min
                               sigma_max generation_time seed wait_time.

Lemma keeps_invoke_model {X} (obs : world -> X) (a : call_args) :
  (forall b w, obs (log_invocation b w) = obs w) -> keeps obs (invoke_model a).
Proof. intros Hobs w. apply Hobs. Qed.

Lemma keeps_generate_audio {X} (obs : world -> X) :
  (forall f w, obs (set_files f w) = obs w) ->
  (forall d w, obs (set_dirs d w) = obs w) ->
  (forall b w, obs (log_invocation b w) = obs w) ->
  keeps obs generate.
Proof.
  intros Hf Hd Hi. unfold generate, generate_audio.
  repeat first
    [ progress intros
    | apply keeps_bind
    | apply keeps_invoke_model; exact Hi
    | apply keeps_makedirs; exact Hd
    | apply keeps_torchaudio_save; exact Hf
    | apply keeps_export_to_path; exact Hf
    | solve [eauto with keeps] ].
Qed.

(** What comes after the generation touches neither files, directories
    nor the record of model calls. *)
Lemma surface_after_generate {X} (obs : world -> X) (w : world) :
  (forall n w0, obs (log_sleep n w0) = obs w0) ->
  obs (surface w).2 = obs (generate w).2.
Proof.
  intros Hobs. destruct (generate w) as [[[filename payload]|e|] w1] eqn:Hgen.
  - destruct (parse_wait_total wait_time w1) as [n Hn]. unfold surface, generate in *.
    rewrite (surface_after_success _ _ _ _ _ _ _ _ _ _ _ _ _ _ Hgen Hn).
    destruct (negb (fits_str_digits n)); [reflexivity|].
    destruct ((n <? - max_sleep) || (max_sleep <? n)); [reflexivity|].
    destruct (n <? 0); cbn; [reflexivity|apply Hobs].
  - unfold surface, generate in *.
    rewrite (surface_after_failure _ _ _ _ _ _ _ _ _ _ _ _ Hgen). reflexivity.
  - unfold surface, audio_generator, try_except.
    rewrite bind_unfold. fold generate. rewrite Hgen. reflexivity.
Qed.

Lemma generate_audio_calls (w : world) :
  invocations (generate w).2 = invocations w
  \/ exists size,
      invocations (generate w).2
      = invocations w ++ [model_call prompt steps cfg_scale sigma_min sigma_max
                                     generation_time seed sampler_type size w].
Proof.
  remember (generate w) as r eqn:Hr.
  unfold generate, generate_audio in Hr.
  rewrite bind_unfold in Hr. unfold gets at 1 in Hr.
  rewrite bind_unfold in Hr. unfold observe at 1 in Hr.
  destruct (get_pretrained_model _ w) as [config|e|]; [|subst r; left; reflexivity..].
  rewrite bind_unfold in Hr. unfold getitem at 1 in Hr.
  destruct (config !! "sample_rate") as [rate|]; [|subst r; left; reflexivity].
  unfold mret at 1, M_ret at 1 in Hr.
  rewrite bind_unfold in Hr. unfold getitem at 1 in Hr.
  destruct (config !! "sample_size") as [size|]; [|subst r; left; reflexivity].
  unfold mret at 1, M_ret at 1 in Hr.
  rewrite bind_unfold in Hr. unfold observe at 1 in Hr. fold (select_device w) in Hr.
  destruct (model_to (select_device w) w) as [[]|e|]; [|subst r; left; reflexivity..].
  right. exists size.
  rewrite bind_unfold in Hr. unfold invoke_model at 1 in Hr.
  fold (model_call prompt steps cfg_scale sigma_min sigma_max generation_time
                   seed sampler_type size w) in Hr.
  destruct (generate_diffusion_cond _ w) as [raw|e|]; subst r; try reflexivity.
  match goal with
  | |- invocations (?rest _).2 = _ => assert (keeps invocations rest) as -> by keeps_steps
  end.
  reflexivity.
Qed.

End Calls.

(** X2.  A call of [audio_generator] makes at most one model call, and
    that call carries the values of the form as they were entered: the
    sampler, the steps, the scales, the seed, the prompt and the generation
    time as total duration, on the device selected.  Nothing after the
    generation (parsing the wait, sleeping, the error handler) calls the
    model again. *)
Theorem X2_at_most_one_model_call `{Pretrained} `{AudioLib}
        (prompt sampler_type : string)
        (steps cfg_scale sigma_min sigma_max generation_time seed : number)
        (wait_time : string) (w : world) :
  invocations (audio_generator prompt sampler_type steps cfg_scale sigma_min
                               sigma_max generation_time seed wait_time w).2
  = invocations w
  \/ exists size,
      invocations (audio_generator prompt sampler_type steps cfg_scale sigma_min
                                   sigma_max generation_time seed wait_time w).2
      = invocations w ++ [CallArgs steps cfg_scale
                                   [Conditioning prompt (Int 0) generation_time] size
                                   sigma_min sigma_max sampler_type
                                   (if cuda_available w then "cuda" else "cpu") seed].
Proof.
  rewrite (surface_after_generate prompt sampler_type steps cfg_scale sigma_min
             sigma_max generation_time seed wait_time invocations)
    by reflexivity.
  apply generate_audio_calls.
Qed.

(** ** A request that goes through *)



(** ** Files the program leaves alone *)

Section Frame.
Context `{Pretrained} `{AudioLib}.

Lemma preserves_of_keeps {A X} (obs : world -> X) (x : X) (m : M A) :
  keeps obs m -> preserves (fun w => obs w = x) m.
Proof. intros Hm w Hw. rewrite Hm. exact Hw. Qed.

Lemma preserves_bind {A B} (P : world -> Prop) (m : M A) (f : A -> M B) :
  preserves P m -> (forall a, preserves P (f a)) -> preserves P (m ≫= f).
Proof.
  intros Hm Hf w Hw. rewrite bind_unfold. specialize (Hm w Hw).
  destruct (m w) as [[a|e|] w1]; cbn in *; try exact Hm. apply Hf, Hm.
Qed.

(** The same when what follows depends on how the first part ended. *)
Lemma preserves_bind_state {A B} (P : world -> Prop) (m : M A) (f : A -> M B) :
  preserves P m ->
  (forall w a w1, m w = (Ok a, w1) -> P w1 -> P (f a w1).2) ->
  preserves P (m ≫= f).
Proof.
  intros Hm Hf w Hw. rewrite bind_unfold. specialize (Hm w Hw). specialize (Hf w).
  destruct (m w) as [[a|e|] w1]; cbn in *; try exact Hm. apply (Hf a w1 eq_refl Hm).
Qed.

Lemma keeps_write_at (p q : string) (data : list byte) :
  q <> p -> keeps (fun w => files w !! p) (write_file q data).
Proof.
  intros Hne w. unfold write_file. repeat case_bool_decide; try reflexivity.
  cbn [snd files set_files]. apply lookup_insert_ne, Hne.
Qed.

Variables (prompt sampler_type : string).
Variables (steps cfg_scale sigma_min sigma_max generation_time seed : number).

Let generate := generate_audio prompt steps cfg_scale sigma_min sigma_max
                               generation_time seed sampler_type.

(** A file other than the intermediate one, once there, is there with the
    same content after [generate_audio], however it ends. *)
Lemma generate_audio_preserves_file (p : string) (content : list byte) :
  p <> temp_wav ->
  preserves (fun w => files w !! p = Some content) generate.
Proof.
  intros Hne. unfold generate, generate_audio.
  set (obs := fun w : world => files w !! p).
  assert (forall A (m : M A), keeps obs m -> preserves (fun w => obs w = Some content) m)
    as Hkeep by (intros; apply preserves_of_keeps; assumption).
  apply preserves_bind; [apply Hkeep; eauto with keeps|intros cuda].
  apply preserves_bind; [apply Hkeep; eauto with keeps|intros config].
  apply preserves_bind; [apply Hkeep; eauto with keeps|intros rate].
  apply preserves_bind; [apply Hkeep; eauto with keeps|intros size].
  apply preserves_bind; [apply Hkeep; eauto with keeps|intros []].
  apply preserves_bind; [apply Hkeep, keeps_invoke_model; reflexivity|intros raw].
  apply preserves_bind; [apply Hkeep; eauto with keeps|intros pcm].
  apply preserves_bind.
  { apply Hkeep. unfold torchaudio_save. apply keeps_bind; [eauto with keeps|].
    intros data. apply keeps_write_at. congruence. }
  intros [].
  apply preserves_bind; [apply Hkeep; eauto with keeps|intros audio].
  apply preserves_bind; [apply Hkeep; eauto with keeps|intros buf].
  apply preserves_bind; [apply Hkeep; eauto with keeps|intros date].
  apply preserves_bind; [apply Hkeep, keeps_makedirs; reflexivity|intros []].
  apply preserves_bind_state; [apply Hkeep; eauto with keeps|].
  intros w full_path w1 Hloop Hthere.
  apply while_exists_ok_inv in Hloop as (-> & Hfree & _).
  assert (full_path <> p) as Hother.
  { intros ->. assert (path_exists w p = true) as Hex; [|congruence].
    apply path_exists_occupied. unfold occupied.
    apply elem_of_union_l, elem_of_dom. unfold obs in Hthere. rewrite Hthere. eauto. }
  revert Hthere. generalize w. change (preserves (fun w0 => obs w0 = Some content)
    (export_to_path audio full_path ≫= fun _ => mret (full_path,
       b64encode (bytesio_read (bytesio_seek 0 buf))))).
  apply Hkeep. apply keeps_bind; [|intros []; eauto with keeps].
  unfold export_to_path. apply keeps_bind; [eauto with keeps|].
  intros data. apply keeps_write_at, Hother.
Qed.

End Frame.

(** X4.  [generate_audio] never changes or removes a file that was there
    before, apart from "temp_output.wav": whether it succeeds or fails, every
    other existing file has the content it had. *)
Theorem X4_existing_files_untouched `{Pretrained} `{AudioLib}
        (prompt sampler_type : string)
        (steps cfg_scale sigma_min sigma_max generation_time seed : number)
        (w : world) (p : string) (content : list byte) :
  p <> "temp_output.wav" ->
  files w !! p = Some content ->
  files (generate_audio prompt steps cfg_scale sigma_min sigma_max generation_time
                        seed sampler_type w).2 !! p = Some content.
Proof.
  intros Hne Hthere.
  apply (generate_audio_preserves_file prompt sampler_type steps cfg_scale sigma_min
           sigma_max generation_time seed p content Hne w Hthere).
Qed.

Lemma X4_witness :
  files (@generate_audio Stub.fixed_model Stub.raw_audio "rain"
           (Int 100) (Int 7) (Int 1) (Int 500) (Int 47) (Int 42) "k-lms"
           (Stub.with_files ["Output/2024-05-01/rain.mp3"] Stub.empty_world)).2
    !! "Output/2024-05-01/rain.mp3" = Some [].
Proof.
  apply (@X4_existing_files_untouched Stub.fixed_model Stub.raw_audio).
  - discriminate.
  - reflexivity.
Defined.

(** X5.  Two requests carried out one after the other, with the same
    prompt or not, get different paths, and the artifact of the first is
    still in place, unchanged, after the second. *)
Theorem X5_later_request_spares_earlier_artifact `{Pretrained} `{AudioLib}
        (prompt1 sampler1 prompt2 sampler2 : string)
        (steps1 cfg1 smin1 smax1 time1 seed1 steps2 cfg2 smin2 smax2 time2 seed2 : number)
        (w w1 w2 : world) (path1 payload1 path2 payload2 : string) :
  generate_audio prompt1 steps1 cfg1 smin1 smax1 time1 seed1 sampler1 w
  = (Ok (path1, payload1), w1) ->
  generate_audio prompt2 steps2 cfg2 smin2 smax2 time2 seed2 sampler2 w1
  = (Ok (path2, payload2), w2) ->
  path1 <> path2
  /\ exists data, files w1 !! path1 = Some data /\ files w2 !! path1 = Some data
                  /\ b64decode payload1 = Some data.
Proof.
  intros Hfirst Hsecond.
  apply generate_audio_ok_inv in Hfirst
    as (config & rate & size & raw & pcm & wav & audio & mp3 & wa & wb & Hinv).
  cbv zeta in Hinv.
  destruct Hinv as (_ & _ & _ & _ & _ & _ & _ & _ & _ & _ & _ & Hloop & _ & -> & ->).
  apply while_exists_ok_inv in Hloop as (_ & _ & Hnot_temp).
  assert (files (set_files (<[path1 := mp3]> (files wb)) wb) !! path1 = Some mp3)
    as Hthere by apply lookup_insert_eq.
  pose proof (generate_audio_preserves_file prompt2 sampler2 steps2 cfg2 smin2 smax2
                time2 seed2 path1 mp3 Hnot_temp _ Hthere) as Hkept.
  rewrite Hsecond in Hkept. cbn [snd] in Hkept.
  split.
  - intros <-.
    apply generate_audio_ok_inv in Hsecond
      as (config' & rate' & size' & raw' & pcm' & wav' & audio' & mp3' & wa' & wb' & Hinv).
    cbv zeta in Hinv.
    destruct Hinv as (_ & _ & _ & _ & _ & _ & _ & Hwa & _ & _ & Hmk & Hloop & _ & _ & _).
    apply while_exists_ok_inv in Hloop as (_ & Hfree & _).
    assert (path_exists wb' path1 = true) as Hex; [|congruence].
    apply path_exists_occupied. unfold occupied. apply elem_of_union_l, elem_of_dom.
    assert (files wb' = files wa') as ->.
    { change wb' with ((Ok tt, wb').2). rewrite <- Hmk.
      apply (keeps_makedirs files). reflexivity. }
    rewrite Hwa. cbn [files set_files log_invocation].
    rewrite lookup_insert_ne by congruence. rewrite lookup_insert_eq. eauto.
  - exists mp3. split; [exact Hthere|]. split; [exact Hkept|apply b64_roundtrip].
Qed.

Lemma X5_witness :
  "Output/2024-05-01/rain.mp3" <> "Output/2024-05-01/rain_1.mp3"
  /\ exists data,
      files (@generate_audio Stub.fixed_model Stub.raw_audio "rain"
               (Int 100) (Int 7) (Int 1) (Int 500) (Int 47) (Int 42) "k-lms"
               Stub.empty_world).2 !! "Output/2024-05-01/rain.mp3" = Some data
      /\ files (@generate_audio Stub.fixed_model Stub.raw_audio "rain"
                  (Int 100) (Int 7) (Int 1) (Int 500) (Int 47) (Int 42) "k-lms"
                  (@generate_audio Stub.fixed_model Stub.raw_audio "rain"
                     (Int 100) (Int 7) (Int 1) (Int 500) (Int 47) (Int 42) "k-lms"
                     Stub.empty_world).2).2 !! "Output/2024-05-01/rain.mp3" = Some data
      /\ b64decode "/3//HwGAAaD/PwAAAeD/Xw==" = Some data.
Proof.
  apply (@X5_later_request_spares_earlier_artifact Stub.fixed_model Stub.raw_audio
           "rain" "k-lms" "rain" "k-lms"
           (Int 100) (Int 7) (Int 1) (Int 500) (Int 47) (Int 42)
           (Int 100) (Int 7) (Int 1) (Int 500) (Int 47) (Int 42)
           Stub.empty_world _ _ _ _ _ "/3//HwGAAaD/PwAAAeD/Xw==");
    vm_compute; reflexivity.
Defined.

(** ** The dated folder *)


(** X6.  Creating the output folder is idempotent, as [exist_ok=True]
    asks: once [os.makedirs] has succeeded, the folder and its ancestors are
    directories, no file has changed, every directory created is one of
    those, and calling it again succeeds and changes nothing. *)
Theorem X6_makedirs_idempotent (p : string) (w w1 : world) :
  makedirs p w = (Ok tt, w1) ->
  makedirs p w1 = (Ok tt, w1)
  /\ files w1 = files w
  /\ (forall q, q ∈ ancestors p -> q ∈ dirs w1)
  /\ (forall q, q ∈ dirs w1 -> q ∈ dirs w \/ q ∈ ancestors p).
Proof.
  unfold makedirs. intros Hrun.
  destruct (mkdir_each_ok _ _ _ Hrun) as (Hf & _ & Hall & Honly).
  split; [apply mkdir_each_noop, Hall|]. auto.
Qed.

Lemma X6_witness :
  makedirs "Output/2024-05-01" (set_dirs {["Output"]} Stub.empty_world)
  = (Ok tt, set_dirs ({["Output/2024-05-01"]} ∪ {["Output"]}) Stub.empty_world)
  /\ makedirs "Output/2024-05-01"
       (set_dirs ({["Output/2024-05-01"]} ∪ {["Output"]}) Stub.empty_world)
     = (Ok tt, set_dirs ({["Output/2024-05-01"]} ∪ {["Output"]}) Stub.empty_world).
Proof.
  assert (makedirs "Output/2024-05-01" (set_dirs {["Output"]} Stub.empty_world)
          = (Ok tt, set_dirs ({["Output/2024-05-01"]} ∪ {["Output"]}) Stub.empty_world))
    as Hfirst by reflexivity.
  split; [exact Hfirst|]. apply (X6_makedirs_idempotent _ _ _ Hfirst).
Defined.

(** ** The layout of the converted tensor *)

Section Layout.
Import F32.

Lemma length_concat_uniform {A} (N : nat) (ls : list (list A)) :
  Forall (fun l => length l = N) ls -> length (concat ls) = (length ls * N)%nat.
Proof.
  induction 1 as [|l ls Hl _ IH]; [reflexivity|].
  cbn [concat length]. rewrite List.length_app, IH, Hl. lia.
Qed.

Lemma lookup_concat_uniform {A} (N : nat) (ls : list (list A)) (b n : nat)
      (l : list A) (x : A) :
  Forall (fun l => length l = N) ls ->
  ls !! b = Some l -> l !! n = Some x ->
  concat ls !! (b * N + n)%nat = Some x.
Proof.
  intros Hall. revert b. induction Hall as [|l0 ls Hl0 _ IH]; intros b Hb Hn.
  - discriminate.
  - destruct b as [|b]; cbn [concat].
    + injection Hb as ->. rewrite lookup_app_l by (eapply lookup_lt_Some, Hn). exact Hn.
    + rewrite lookup_app_r by lia.
      replace (S b * N + n - length l0)%nat with (b * N + n)%nat by lia.
      apply IH; assumption.
Qed.

Lemma lookup_map {A B} (f : A -> B) (l : list A) (i : nat) :
  map f l !! i = f <$> (l !! i).
Proof.
  revert i. induction l as [|a l IH]; intros [|i]; cbn; try reflexivity. apply IH.
Qed.

Variable (raw : tensor3).
Hypothesis Hrect : rectangular raw.

Lemma batch_channels (batch : list (list float32)) :
  batch ∈ raw ->
  length batch = channels raw
  /\ Forall (fun c => length c = samples_per_batch raw) batch.
Proof. intros Hin. unfold rectangular in Hrect. rewrite Forall_forall in Hrect. auto. Qed.

Lemma channel_across_batches (d : nat) :
  (d < channels raw)%nat ->
  Forall (fun c => length c = samples_per_batch raw) (map (fun b => nth d b []) raw).
Proof.
  intros Hd. apply Forall_map, Forall_forall. intros batch Hin.
  destruct (batch_channels batch Hin) as [Hlen Hall].
  rewrite Forall_forall in Hall. apply Hall, list_elem_of_In, nth_In. lia.
Qed.

Lemma rearrange_row (d : nat) :
  (d < channels raw)%nat ->
  rearrange raw !! d = Some (concat (map (fun b => nth d b []) raw)).
Proof.
  intros Hd. unfold rearrange, tensor2.
  rewrite lookup_map, lookup_seq_lt by exact Hd. reflexivity.
Qed.

Lemma rearrange_index (b d n : nat) (batch : list (list float32))
      (chan : list float32) (x : float32) :
  raw !! b = Some batch -> batch !! d = Some chan -> chan !! n = Some x ->
  exists row,
    rearrange raw !! d = Some row
    /\ row !! (b * samples_per_batch raw + n)%nat = Some x
    /\ length row = (length raw * samples_per_batch raw)%nat.
Proof.
  intros Hb Hd Hn. unfold tensor3 in *.
  destruct (batch_channels batch) as [Hlen _]; [eapply list_elem_of_lookup_2, Hb|].
  assert (d < channels raw)%nat as Hdlt by (rewrite <- Hlen; eapply lookup_lt_Some, Hd).
  eexists. split; [apply rearrange_row, Hdlt|]. split.
  - apply (lookup_concat_uniform _ _ b n chan); [apply channel_across_batches, Hdlt| |exact Hn].
    rewrite lookup_map, Hb. cbn.
    f_equal. rewrite nth_lookup, Hd. reflexivity.
  - rewrite (length_concat_uniform (samples_per_batch raw))
      by (apply channel_across_batches, Hdlt).
    rewrite length_map. reflexivity.
Qed.

End Layout.

(** X7.  Layout of the 16-bit output.  For a model output of shape
    (b, d, n), the sample at position n of channel d of batch b ends up,
    quantised against the global peak, at position b * N + n of row d of the
    output (N the number of samples per batch): channels stay apart, batches
    follow one another in time; the output has one row per channel, each of
    B * N samples. *)
Theorem X7_output_layout (cast : Z) (raw : tensor3) (pcm : tensor2 Z) (b d n : nat)
        (batch : list (list F32.float32)) (chan : list F32.float32) (x : F32.float32) :
  rectangular raw ->
  post_process cast raw = Some pcm ->
  raw !! b = Some batch -> batch !! d = Some chan -> chan !! n = Some x ->
  exists peak out,
    max_abs (rearrange raw) = Some peak
    /\ pcm !! d = Some out
    /\ out !! (b * samples_per_batch raw + n)%nat = Some (quantize_sample cast peak x)
    /\ length out = (length raw * samples_per_batch raw)%nat
    /\ length pcm = channels raw.
Proof.
  intros Hrect Hpost Hb Hd Hn.
  unfold post_process, normalize in Hpost.
  destruct (max_abs (rearrange raw)) as [peak|]; [|discriminate].
  injection Hpost as <-.
  destruct (rearrange_index raw Hrect b d n batch chan x Hb Hd Hn)
    as (row & Hrow & Hx & Hlen).
  exists peak, (map (quantize_sample cast peak) row). unfold tensor2 in *.
  split; [reflexivity|]. split; [|split; [|split]].
  - rewrite lookup_map, Hrow. reflexivity.
  - rewrite lookup_map, Hx. reflexivity.
  - rewrite length_map. exact Hlen.
  - rewrite length_map. unfold rearrange. rewrite length_map, length_seq. reflexivity.
Qed.

Lemma X7_witness :
  exists peak out,
    max_abs (rearrange Stub.tone) = Some peak
    /\ [[32767; 8191; -32767; -24575]; [16383; 0; -8191; 24575]] !! 1%nat = Some out
    /\ out !! (0 * samples_per_batch Stub.tone + 3)%nat
       = Some (quantize_sample 0 peak (F32.of_Z 3))
    /\ length out = (length Stub.tone * samples_per_batch Stub.tone)%nat
    /\ length [[32767; 8191; -32767; -24575]; [16383; 0; -8191; 24575]]
       = channels Stub.tone.
Proof.
  apply (X7_output_layout 0 Stub.tone _ 0 1 3
           [[F32.of_Z 4; F32.of_Z 1; F32.of_Z (-4); F32.of_Z (-3)];
            [F32.of_Z 2; F32.of_Z 0; F32.of_Z (-1); F32.of_Z 3]]
           [F32.of_Z 2; F32.of_Z 0; F32.of_Z (-1); F32.of_Z 3]);
    try reflexivity.
  repeat constructor.
Defined.

(** ** A model output without samples *)

(** X8.  When the model returns a tensor that holds no sample at all,
    [torch.max] has nothing to reduce: [generate_audio] raises a
    RuntimeError right after the model call, before anything is written;
    the environment is as before but for the record of the call. *)
Theorem X8_empty_output_raises `{Pretrained} `{AudioLib}
        (prompt sampler_type : string)
        (steps cfg_scale sigma_min sigma_max generation_time seed : number)
        (w : world) (config : gmap string Z) (rate size : Z) (raw : tensor3) :
  get_pretrained_model model_name w = Ok config ->
  config !! "sample_rate" = Some rate ->
  config !! "sample_size" = Some size ->
  model_to (select_device w) w = Ok tt ->
  generate_diffusion_cond
    (model_call prompt steps cfg_scale sigma_min sigma_max generation_time seed
                sampler_type size w) w = Ok raw ->
  rectangular raw ->
  samples raw = [] ->
  exists msg,
    generate_audio prompt steps cfg_scale sigma_min sigma_max generation_time
                   seed sampler_type w
    = (Raise (Exn "RuntimeError" msg),
       log_invocation (model_call prompt steps cfg_scale sigma_min sigma_max
                                  generation_time seed sampler_type size w) w).
Proof.
  intros Hconfig Hrate Hsize Hto Hraw Hrect Hempty.
  assert (elements (rearrange raw) = []) as Hnone.
  { destruct (elements (rearrange raw)) as [|x xs] eqn:Hxs; [reflexivity|exfalso].
    assert (In x (samples raw)) as Hin.
    { apply (rearrange_samples raw x Hrect). rewrite Hxs. left. reflexivity. }
    rewrite Hempty in Hin. destruct Hin. }
  eexists. unfold generate_audio.
  rewrite bind_unfold. unfold gets at 1.
  rewrite bind_unfold. unfold observe at 1. fold model_name. rewrite Hconfig.
  rewrite bind_unfold. unfold getitem at 1. rewrite Hrate. unfold mret at 1, M_ret at 1.
  rewrite bind_unfold. unfold getitem at 1. rewrite Hsize. unfold mret at 1, M_ret at 1.
  rewrite bind_unfold. unfold observe at 1. fold (select_device w). rewrite Hto.
  rewrite bind_unfold. unfold invoke_model at 1.
  fold (model_call prompt steps cfg_scale sigma_min sigma_max generation_time seed
                   sampler_type size w). rewrite Hraw.
  rewrite bind_unfold. unfold peak_normalize at 1, normalize, max_abs.
  rewrite Hnone. reflexivity.
Qed.

Lemma X8_witness :
  exists msg,
    @generate_audio Stub.empty_model Stub.raw_audio "rain"
      (Int 100) (Int 7) (Int 1) (Int 500) (Int 47) (Int 42) "k-lms" Stub.empty_world
    = (Raise (Exn "RuntimeError" msg),
       log_invocation
         (CallArgs (Int 100) (Int 7) [Conditioning "rain" (Int 0) (Int 47)] 4
                   (Int 1) (Int 500) "k-lms" "cpu" (Int 42)) Stub.empty_world).
Proof.
  apply (@X8_empty_output_raises Stub.empty_model Stub.raw_audio
           "rain" "k-lms" (Int 100) (Int 7) (Int 1) (Int 500) (Int 47) (Int 42)
           Stub.empty_world
           (<["sample_rate" := 44100]> (<["sample_size" := 4]> ∅)) 44100 4 []);
    try reflexivity.
  constructor.
Defined.

(** ** Polarity *)

Section Polarity.
Import F32.

Lemma div_sign (x : float32) (m : positive) (e : Z) :
  is_finite x = true ->
  match div x (S754_finite false m e) with
  | S754_nan => False
  | r => negative r = negative x
  end.
Proof.
  destruct x as [sx|sx| |sx mx ex]; try discriminate; intros _.
  - destruct sx; reflexivity.
  - unfold div, SFdiv, SFdiv_core_binary.
    set (e' := Z.min _ _). set (m' := match _ with Z0 => _ | Z.pos _ => _ | Z.neg _ => _ end).
    assert (0 <= m') as Hm'.
    { unfold m'. destruct (ex - e - e'); [lia| |lia]. apply Z.shiftl_nonneg. lia. }
    pose proof (Z.div_pos m' (Z.pos m) Hm' ltac:(lia)) as Hq. unfold Z.div in Hq.
    destruct (Z.div_eucl m' (Z.pos m)) as [q r]. cbn [fst] in Hq.
    pose proof (binary_round_aux_shape (xorb sx false) q e' (new_location (Z.pos m) r) Hq)
      as Hshape.
    rewrite xorb_false_r in *.
    destruct (binary_round_aux _ _ _ _ _ _); cbn [negative]; tauto.
Qed.

Lemma clamp_sign (r : float32) :
  negative (clamp minus_one one r) = negative r.
Proof.
  change minus_one with (S754_finite true 8388608 (-23)).
  change one with (S754_finite false 8388608 (-23)).
  destruct r as [[]|[]| |[] m e]; try reflexivity; unfold clamp, SFltb, SFcompare.
  - destruct (e ?= -23); [destruct (PosDef.Pos.compare_cont Eq m 8388608)|..]; reflexivity.
  - destruct (-23 ?= e); [destruct (PosDef.Pos.compare_cont Eq 8388608 m)|..]; reflexivity.
Qed.

Lemma mul_sign (c : float32) :
  is_finite c = true ->
  match mul c full_scale with
  | S754_nan => False
  | r => negative r = negative c
  end.
Proof.
  change full_scale with (S754_finite false 16776704 (-9)).
  destruct c as [s|s| |s m e]; try discriminate; intros _.
  - destruct s; reflexivity.
  - unfold mul, SFmul.
    pose proof (binary_round_aux_shape (xorb s false) (Z.pos (m * 16776704)) (e + -9)
                                       loc_Exact ltac:(lia)) as Hshape.
    rewrite xorb_false_r in *.
    destruct (binary_round_aux _ _ _ _ _ _); cbn [negative]; tauto.
Qed.

Lemma trunc_sign (r : float32) :
  (negative r = false -> 0 <= trunc r) /\ (negative r = true -> trunc r <= 0).
Proof.
  destruct r as [s|s| |s m e]; cbn [trunc negative]; try lia.
  assert (0 <= match e with
               | Z.neg p => Z.pos m ≫ Z.pos p
               | _ => Z.pos m ≪ e
               end) as Ha.
  { destruct e; [apply Z.shiftl_nonneg|apply Z.shiftl_nonneg|apply Z.shiftr_nonneg]; lia. }
  destruct s; split; intros; try discriminate; lia.
Qed.

(** A finite sample and its 16-bit value have the same polarity. *)
Lemma quantize_polarity (cast : Z) (x : float32) (m : positive) (e : Z) :
  is_finite x = true ->
  let q := quantize_sample cast (S754_finite false m e) x in
  (negative x = false -> 0 <= q <= 32767)
  /\ (negative x = true -> -32767 <= q <= 0)
  /\ (is_zero x = true -> q = 0).
Proof.
  intros Hx q.
  destruct (quantize_finite cast x m e Hx) as [Hq Hbound]. fold q in Hq.
  assert (negative (scale_sample (S754_finite false m e) x) = negative x) as Hsign.
  { unfold scale_sample. pose proof (div_sign x m e Hx) as Hd.
    pose proof (clamp_sign (div x (S754_finite false m e))) as Hc.
    pose proof (clamp_unit _ (div_shape x false m e Hx)) as Hu.
    pose proof (mul_sign (clamp minus_one one (div x (S754_finite false m e)))) as Hm.
    destruct (div x (S754_finite false m e)) eqn:Hdiv; try contradiction;
      destruct (clamp minus_one one _) eqn:Hcl; try contradiction;
      specialize (Hm eq_refl);
      destruct (mul _ full_scale); try contradiction; congruence. }
  destruct (trunc_sign (scale_sample (S754_finite false m e) x)) as [Hpos Hneg].
  rewrite Hsign in Hpos, Hneg. rewrite Hq.
  split; [intros Hs; specialize (Hpos Hs); lia|].
  split; [intros Hs; specialize (Hneg Hs); lia|].
  intros Hz. destruct x as [[]| | |]; try discriminate Hz; reflexivity.
Qed.

End Polarity.

(** X9.  Normalisation keeps polarity.  For a model output whose samples
    are finite and not all zero, the output value that belongs to a sample
    is between 0 and 32767 when the sample is not negative, between -32767
    and 0 when it is negative, and 0 when the sample is a zero. *)
Theorem X9_polarity_kept (cast : Z) (raw : tensor3) (pcm : tensor2 Z) (b d n : nat)
        (batch : list (list F32.float32)) (chan : list F32.float32) (x : F32.float32) :
  rectangular raw ->
  Forall (fun y => F32.is_finite y = true) (samples raw) ->
  Exists (fun y => F32.is_zero y = false) (samples raw) ->
  post_process cast raw = Some pcm ->
  raw !! b = Some batch -> batch !! d = Some chan -> chan !! n = Some x ->
  exists out q,
    pcm !! d = Some out
    /\ out !! (b * samples_per_batch raw + n)%nat = Some q
    /\ (negative x = false -> 0 <= q <= 32767)
    /\ (negative x = true -> -32767 <= q <= 0)
    /\ (F32.is_zero x = true -> q = 0).
Proof.
  intros Hrect Hfin Hnz Hpost Hb Hd Hn.
  pose proof (rearrange_Forall _ raw Hrect Hfin) as Hfin'.
  pose proof (rearrange_Exists _ raw Hrect Hnz) as Hnz'.
  destruct (max_abs_finite _ Hfin' Hnz') as (m & e & s & Hpeak & _).
  unfold post_process, normalize in Hpost. rewrite Hpeak in Hpost. injection Hpost as <-.
  destruct (rearrange_index raw Hrect b d n batch chan x Hb Hd Hn) as (row & Hrow & Hx & _).
  assert (F32.is_finite x = true) as Hxfin.
  { rewrite Forall_forall in Hfin'. apply Hfin'.
    apply list_elem_of_In. unfold elements. apply in_concat. exists row.
    split; apply list_elem_of_In; eapply list_elem_of_lookup_2; eassumption. }
  exists (map (quantize_sample cast (S754_finite false m e)) row),
         (quantize_sample cast (S754_finite false m e) x).
  unfold tensor2 in *.
  split; [rewrite lookup_map, Hrow; reflexivity|].
  split; [rewrite lookup_map, Hx; reflexivity|].
  apply quantize_polarity, Hxfin.
Qed.

Lemma X9_witness :
  exists out q,
    [[32767; 8191; -32767; -24575]; [16383; 0; -8191; 24575]] !! 0%nat = Some out
    /\ out !! (0 * samples_per_batch Stub.tone + 3)%nat = Some q
    /\ (negative (F32.of_Z (-3)) = false -> 0 <= q <= 32767)
    /\ (negative (F32.of_Z (-3)) = true -> -32767 <= q <= 0)
    /\ (F32.is_zero (F32.of_Z (-3)) = true -> q = 0).
Proof.
  apply (X9_polarity_kept 0 Stub.tone _ 0 0 3
           [[F32.of_Z 4; F32.of_Z 1; F32.of_Z (-4); F32.of_Z (-3)];
            [F32.of_Z 2; F32.of_Z 0; F32.of_Z (-1); F32.of_Z 3]]
           [F32.of_Z 4; F32.of_Z 1; F32.of_Z (-4); F32.of_Z (-3)]);
    try reflexivity.
  - repeat constructor.
  - repeat constructor.
  - left. reflexivity.
Defined.

(** ** The stem and the file name *)

Section FileName.

Lemma length_sub_nonword (b : bool) (s : string) :
  (String.length (sub_nonword b s) <= String.length s)%nat.
Proof.
  revert b. induction s as [|c r IH]; intros b; cbn [sub_nonword String.length]; [lia|].
  pose proof (IH false) as Hword. pose proof (IH true) as Hrun.
  destruct (is_word c); [|destruct b]; cbn [String.length]; lia.
Qed.

Lemma all_chars_app (p : ascii -> bool) (a b : string) :
  all_chars p (a +:+ b) = all_chars p a && all_chars p b.
Proof.
  induction a as [|x a IH]; [reflexivity|].
  rewrite app_cons. cbn [all_chars]. rewrite IH. apply andb_assoc.
Qed.

Lemma all_chars_impl (p q : ascii -> bool) (s : string) :
  (forall c, p c = true -> q c = true) -> all_chars p s = true -> all_chars q s = true.
Proof.
  intros Hpq. induction s as [|c r IH]; cbn [all_chars]; [reflexivity|].
  intros [Hc Hr]%andb_prop. rewrite (Hpq c Hc), IH by exact Hr. reflexivity.
Qed.

Lemma word_is_no_separator (c : ascii) :
  is_word c = true -> negb (Ascii.eqb c "/") = true.
Proof. destruct c as [[] [] [] [] [] [] [] []]; try reflexivity; discriminate. Qed.

Lemma digit_is_no_separator (c : ascii) :
  is_digit c = true -> negb (Ascii.eqb c "/") = true.
Proof. destruct c as [[] [] [] [] [] [] [] []]; try reflexivity; discriminate. Qed.

(** Decimal formatting produces digits only. *)
Lemma pretty_N_go_digits (x : N) (s : string) :
  all_chars is_digit s = true -> all_chars is_digit (pretty_N_go x s) = true.
Proof.
  revert s. induction (N.lt_wf_0 x) as [x _ IH]; intros s Hs.
  destruct (N.eq_dec x 0%N) as [->|Hx]; [rewrite pretty_N_go_0; exact Hs|].
  rewrite pretty_N_go_step by lia. apply IH; [apply N.div_lt; lia|].
  cbn [all_chars]. rewrite Hs, andb_true_r.
  pose proof (N.mod_lt x 10%N ltac:(lia)) as Hlt.
  destruct (x mod 10)%N as [|p]; [reflexivity|].
  do 4 (destruct p as [p|p|]; try reflexivity); lia.
Qed.

Lemma str_of_nat_digits (n : nat) :
  all_chars is_digit (str_of_int (Z.of_nat n)) = true.
Proof.
  unfold str_of_int. destruct n as [|n]; [reflexivity|].
  change (all_chars is_digit
            (if decide (N.pos (Pos.of_succ_nat n) = 0%N) then "0"
             else pretty_N_go (N.pos (Pos.of_succ_nat n)) "") = true).
  destruct (decide _); [discriminate|]. apply pretty_N_go_digits. reflexivity.
Qed.

Lemma suffix_no_separator (n : nat) :
  all_chars (fun c => negb (Ascii.eqb c "/")) (suffix n) = true.
Proof.
  destruct n as [|n]; [reflexivity|]. unfold suffix.
  rewrite !all_chars_app.
  rewrite (all_chars_impl is_digit _ (str_of_int (Z.of_nat (S n))) digit_is_no_separator
                          (str_of_nat_digits (S n))).
  reflexivity.
Qed.

End FileName.

(** X10.  The stem made from a prompt consists of word characters only
    (letters, digits, underscores: no separator, dot or blank), is never
    longer than the prompt, and equals the prompt exactly when the prompt
    consists of word characters only. *)
Theorem X10_stem_is_word_only (prompt : string) :
  all_chars is_word (re_sub_W prompt) = true
  /\ (String.length (re_sub_W prompt) <= String.length prompt)%nat
  /\ (re_sub_W prompt = prompt <-> all_chars is_word prompt = true).
Proof.
  split; [apply sub_nonword_word_only|]. split; [apply length_sub_nonword|]. split.
  - intros Heq. rewrite <- Heq. apply sub_nonword_word_only.
  - apply sub_nonword_fixes_words.
Qed.

(** X11.  Whatever the prompt, the artifact of a successful request lies
    directly in the dated folder: its path is the folder joined with a file
    name made of the stem, nothing or [_n] for some n >= 1, and ".mp3", and
    that file name holds no path separator. *)
Theorem X11_artifact_in_dated_folder `{Pretrained} `{AudioLib}
        (prompt sampler_type : string)
        (steps cfg_scale sigma_min sigma_max generation_time seed : number)
        (w w' : world) (path payload : string) :
  generate_audio prompt steps cfg_scale sigma_min sigma_max generation_time
                 seed sampler_type w = (Ok (path, payload), w') ->
  exists n,
    path = path_join (path_join "Output" (today w)) (re_sub_W prompt +:+ suffix n)
    /\ all_chars (fun c => negb (Ascii.eqb c "/")) (re_sub_W prompt +:+ suffix n) = true.
Proof.
  intros Hrun.
  apply generate_audio_ok_inv in Hrun
    as (config & rate & size & raw & pcm & wav & audio & mp3 & w1 & w2 & Hinv).
  cbv zeta in Hinv.
  destruct Hinv as (_ & _ & _ & _ & _ & _ & _ & _ & _ & _ & _ & Hloop & _ & _ & _).
  destruct (while_exists_total (path_join "Output" (today w)) prompt w2)
    as (n & Hn & _).
  rewrite Hn in Hloop. injection Hloop as <-.
  exists n. split.
  - destruct n as [|n]; unfold candidate, numbered, suffix; [reflexivity|].
    rewrite drop_last4_mp3. reflexivity.
  - rewrite all_chars_app, suffix_no_separator, andb_true_r.
    apply (all_chars_impl is_word _ _ word_is_no_separator), sub_nonword_word_only.
Qed.

Lemma X11_witness :
  exists n,
    "Output/2024-05-01/Test_Tone__1.mp3"
    = path_join (path_join "Output" "2024-05-01") (re_sub_W "Test Tone!!" +:+ suffix n)
    /\ all_chars (fun c => negb (Ascii.eqb c "/"))
                 (re_sub_W "Test Tone!!" +:+ suffix n) = true.
Proof.
  eapply (@X11_artifact_in_dated_folder Stub.fixed_model Stub.raw_audio
            "Test Tone!!" "k-lms" (Int 100) (Int 7) (Int 1) (Int 500) (Int 47) (Int 42)
            (Stub.with_files ["Output/2024-05-01/Test_Tone_.mp3"] Stub.empty_world)
            _ _ "/3//HwGAAaD/PwAAAeD/Xw==").
  vm_compute. reflexivity.
Defined.

(** ** The payload as text *)

Section PayloadText.

Lemma b64_char_is_b64 (n : N) : is_b64_char (b64_char n) = true.
Proof.
  destruct n as [|p]; [reflexivity|].
  do 6 (destruct p as [p|p|]; try reflexivity);
    unfold b64_char;
    match goal with
    | |- context [String.get (N.to_nat ?k) _] =>
        assert (64 <= N.to_nat k)%nat as Hk by lia;
        destruct (N.to_nat k) as [|m] eqn:Hm; [lia|];
        do 63 (destruct m as [|m]; [lia|]); reflexivity
    end.
Qed.

Lemma b64_is_no_quote (c : ascii) :
  is_b64_char c = true -> negb (Ascii.eqb c (ascii_of_nat 34)) = true.
Proof. destruct c as [[] [] [] [] [] [] [] []]; try reflexivity; discriminate. Qed.

Lemma b64encode_text (bs : list byte) :
  all_chars is_b64_char (b64encode bs) = true
  /\ String.length (b64encode bs) = (4 * ((length bs + 2) / 3))%nat.
Proof.
  induction bs as [|a|a b|a b c r [IHc IHl]] using list_ind3.
  - split; reflexivity.
  - split; [|reflexivity]. cbn [b64encode all_chars]. rewrite !b64_char_is_b64. reflexivity.
  - split; [|reflexivity]. cbn [b64encode all_chars]. rewrite !b64_char_is_b64. reflexivity.
  - split.
    + cbn [b64encode all_chars]. rewrite !b64_char_is_b64, IHc. reflexivity.
    + cbn [b64encode String.length length]. rewrite IHl.
      replace (S (S (S (length r))) + 2)%nat with (1 * 3 + (length r + 2))%nat by lia.
      rewrite Nat.div_add_l by lia. lia.
Qed.

End PayloadText.

(** X12.  The payload returned with the path is padded base64 text: it
    is made of the characters of the base64 alphabet and "=" only, so it
    holds no quote that could end the [src] attribute it is put into, and it
    is four characters long for every three bytes of the file written,
    rounded up. *)
Theorem X12_payload_is_base64_text `{Pretrained} `{AudioLib}
        (prompt sampler_type : string)
        (steps cfg_scale sigma_min sigma_max generation_time seed : number)
        (w w' : world) (path payload : string) :
  generate_audio prompt steps cfg_scale sigma_min sigma_max generation_time
                 seed sampler_type w = (Ok (path, payload), w') ->
  exists data,
    files w' !! path = Some data
    /\ String.length payload = (4 * ((length data + 2) / 3))%nat
    /\ all_chars is_b64_char payload = true
    /\ all_chars (fun c => negb (Ascii.eqb c (ascii_of_nat 34))) payload = true.
Proof.
  intros Hrun.
  apply generate_audio_ok_inv in Hrun
    as (config & rate & size & raw & pcm & wav & audio & mp3 & w1 & w2 & Hinv).
  cbv zeta in Hinv.
  destruct Hinv as (_ & _ & _ & _ & _ & _ & _ & _ & _ & _ & _ & _ & _ & -> & ->).
  destruct (b64encode_text mp3) as [Hchars Hlen].
  exists mp3. split; [apply lookup_insert_eq|]. split; [exact Hlen|].
  split; [exact Hchars|].
  apply (all_chars_impl is_b64_char _ _ b64_is_no_quote), Hchars.
Qed.

Lemma X12_witness :
  exists data,
    files (@generate_audio Stub.fixed_model Stub.raw_audio "rain"
             (Int 100) (Int 7) (Int 1) (Int 500) (Int 47) (Int 42) "k-lms"
             Stub.empty_world).2 !! "Output/2024-05-01/rain.mp3" = Some data
    /\ String.length "/3//HwGAAaD/PwAAAeD/Xw==" = (4 * ((length data + 2) / 3))%nat
    /\ all_chars is_b64_char "/3//HwGAAaD/PwAAAeD/Xw==" = true
    /\ all_chars (fun c => negb (Ascii.eqb c (ascii_of_nat 34)))
                 "/3//HwGAAaD/PwAAAeD/Xw==" = true.
Proof.
  apply (@X12_payload_is_base64_text Stub.fixed_model Stub.raw_audio
           "rain" "k-lms" (Int 100) (Int 7) (Int 1) (Int 500) (Int 47) (Int 42)
           Stub.empty_world).
  vm_compute. reflexivity.
Defined.

(** ** More on the wait time *)

Section WaitFields.

Lemma split_colon_length (s : string) :
  length (split_colon s) = S (count_colons s).
Proof.
  induction s as [|c r IH]; [reflexivity|].
  cbn [split_colon count_colons]. destruct (Ascii.eqb c ":"); cbn [length].
  - rewrite IH. reflexivity.
  - destruct (split_colon r) as [|f fs]; [discriminate IH|exact IH].
Qed.

Lemma all_chars_rev_app (p : ascii -> bool) (a b : string) :
  all_chars p (String.rev_app a b) = all_chars p a && all_chars p b.
Proof.
  revert b. induction a as [|x a IH]; intros b; [reflexivity|].
  cbn [String.rev_app all_chars]. rewrite IH. cbn [all_chars].
  destruct (p x), (all_chars p a), (all_chars p b); reflexivity.
Qed.

Lemma rev_app_rev_app (a b c : string) :
  String.rev_app (String.rev_app a b) c = String.rev_app b (a +:+ c).
Proof.
  revert b c. induction a as [|x a IH]; intros b c; [reflexivity|].
  cbn [String.rev_app]. rewrite IH. rewrite app_cons. reflexivity.
Qed.

Lemma rev_involutive (s : string) : String.rev (String.rev s) = s.
Proof.
  unfold String.rev. rewrite rev_app_rev_app. cbn [String.rev_app].
  induction s as [|x s IH]; [reflexivity|]. rewrite app_cons, IH. reflexivity.
Qed.

Lemma digit_is_no_space (c : ascii) : is_digit c = true -> is_space c = false.
Proof. destruct c as [[] [] [] [] [] [] [] []]; try reflexivity; discriminate. Qed.

Lemma lstrip_digits (s : string) : all_chars is_digit s = true -> lstrip s = s.
Proof.
  destruct s as [|c r]; [reflexivity|]. cbn [all_chars lstrip].
  intros [Hc _]%andb_prop. rewrite (digit_is_no_space c Hc). reflexivity.
Qed.

Lemma strip_digits (s : string) : all_chars is_digit s = true -> strip s = s.
Proof.
  intros Hs. unfold strip. rewrite (lstrip_digits s Hs).
  rewrite lstrip_digits; [apply rev_involutive|].
  unfold String.rev. rewrite all_chars_rev_app, Hs. reflexivity.
Qed.

Lemma digits_value_digits (s : string) (last : last_seen) (acc : Z) :
  all_chars is_digit s = true ->
  (s <> EmptyString \/ last = AfterDigit) -> 0 <= acc ->
  exists v, digits_value last acc s = Some v /\ acc <= v.
Proof.
  revert last acc. induction s as [|c r IH]; intros last acc Hs Hne Hacc.
  - destruct Hne as [Hne| ->]; [congruence|]. exists acc. split; [reflexivity|lia].
  - cbn [all_chars] in Hs. apply andb_prop in Hs as [Hc Hr].
    cbn [digits_value]. rewrite Hc.
    assert (0 <= Z.of_N (code c) - 48 <= 9) as Hd.
    { unfold is_digit, between in Hc. apply andb_prop in Hc as [H1 H2].
      apply N.leb_le in H1, H2. lia. }
    destruct (IH AfterDigit (10 * acc + (Z.of_N (code c) - 48)) Hr) as (v & Hv & Hle);
      [right; reflexivity|lia|].
    exists v. split; [exact Hv|lia].
Qed.

Lemma count_digits_all (s : string) :
  all_chars is_digit s = true -> count_digits s = String.length s.
Proof.
  induction s as [|c r IH]; [reflexivity|]. cbn [all_chars count_digits String.length].
  intros [Hc Hr]%andb_prop. rewrite Hc, IH by exact Hr. reflexivity.
Qed.

Lemma unsigned_int_digits (s : string) :
  digits_only s = true -> (String.length s <= max_str_digits)%nat ->
  exists v, unsigned_int s = Some v /\ 0 <= v.
Proof.
  unfold digits_only. intros [Hne Hs]%andb_prop Hlen. unfold unsigned_int.
  rewrite (count_digits_all s Hs).
  destruct (Nat.ltb_spec max_str_digits (String.length s)) as [Hlong|_]; [lia|].
  apply digits_value_digits; [exact Hs| |lia].
  left. intros ->. discriminate Hne.
Qed.

Lemma unsigned_int_long (s : string) :
  all_chars is_digit s = true -> (max_str_digits < String.length s)%nat ->
  unsigned_int s = None.
Proof.
  intros Hs Hlen. unfold unsigned_int. rewrite (count_digits_all s Hs).
  destruct (Nat.ltb_spec max_str_digits (String.length s)) as [_|Hshort]; [reflexivity|lia].
Qed.

(** A run of digits is converted as it stands: nothing is stripped and
    there is no sign. *)
Lemma python_int_unsigned (s : string) :
  all_chars is_digit s = true -> python_int s = unsigned_int s.
Proof.
  intros Hs. unfold python_int. rewrite (strip_digits s Hs).
  destruct s as [|c r]; [reflexivity|].
  cbn [all_chars] in Hs. apply andb_prop in Hs as [Hc _].
  destruct c as [[] [] [] [] [] [] [] []]; try discriminate Hc; reflexivity.
Qed.

Lemma python_int_digits (s : string) :
  digits_only s = true -> (String.length s <= max_str_digits)%nat ->
  exists v, python_int s = Some v /\ 0 <= v.
Proof.
  intros Hd Hlen. rewrite python_int_unsigned; [apply unsigned_int_digits; assumption|].
  unfold digits_only in Hd. apply andb_prop in Hd as [_ Hs]. exact Hs.
Qed.

Lemma python_int_long (s : string) :
  digits_only s = true -> (max_str_digits < String.length s)%nat ->
  python_int s = None.
Proof.
  unfold digits_only. intros [_ Hs]%andb_prop Hlen.
  rewrite python_int_unsigned by exact Hs. apply unsigned_int_long; assumption.
Qed.

End WaitFields.

(** X13.  The wait time has one field more than it has colons, and a
    wait time that does not hold exactly two colons gives a wait of zero
    seconds. *)
Theorem X13_two_colons_or_no_wait (wait_time : string) (w : world) :
  count_colons wait_time <> 2%nat ->
  length (split_colon wait_time) = S (count_colons wait_time)
  /\ parse_wait wait_time w = (Ok 0, w).
Proof.
  intros Hcount. pose proof (split_colon_length wait_time) as Hlen.
  split; [exact Hlen|]. apply parse_wait_malformed. unfold well_formed_wait.
  destruct (split_colon wait_time) as [|a [|b [|c [|d l]]]]; try reflexivity.
  cbn [length] in Hlen. congruence.
Qed.

Lemma X13_witness :
  length (split_colon "01:02:03:04") = S (count_colons "01:02:03:04")
  /\ parse_wait "01:02:03:04" Stub.empty_world = (Ok 0, Stub.empty_world).
Proof. apply X13_two_colons_or_no_wait. discriminate. Defined.

(** X14.  For a wait time of three non-empty runs of digits separated
    by colons: when no field is longer than the 4300 digits that [int]
    converts, it parses to hh*3600 + mm*60 + ss, which is not negative
    (minutes and seconds above 59 are added up as they are), so the zero
    fallback is not taken; when a field is longer than that, [int] refuses
    it and the wait is zero seconds. *)
Theorem X14_unsigned_wait_is_not_negative (wait_time a b c : string) (w : world) :
  split_colon wait_time = [a; b; c] ->
  digits_only a = true -> digits_only b = true -> digits_only c = true ->
  ((String.length a <= 4300)%nat -> (String.length b <= 4300)%nat ->
   (String.length c <= 4300)%nat ->
   exists hh mm ss,
     python_int a = Some hh /\ python_int b = Some mm /\ python_int c = Some ss
     /\ 0 <= hh /\ 0 <= mm /\ 0 <= ss
     /\ parse_wait wait_time w = (Ok (hh * 3600 + mm * 60 + ss), w)
     /\ 0 <= hh * 3600 + mm * 60 + ss)
  /\ ((4300 < String.length a)%nat \/ (4300 < String.length b)%nat
      \/ (4300 < String.length c)%nat ->
      parse_wait wait_time w = (Ok 0, w)).
Proof.
  intros Hs Ha Hb Hc. split.
  - intros Hla Hlb Hlc.
    destruct (python_int_digits a Ha Hla) as (hh & Hhh & Hh0).
    destruct (python_int_digits b Hb Hlb) as (mm & Hmm & Hm0).
    destruct (python_int_digits c Hc Hlc) as (ss & Hss & Hs0).
    exists hh, mm, ss. repeat (split; [assumption|]).
    split; [|lia].
    apply (parse_wait_well_formed wait_time a b c); assumption.
  - intros Hlong. apply parse_wait_malformed.
    unfold well_formed_wait, is_int_literal. rewrite Hs.
    destruct Hlong as [Hl|[Hl|Hl]].
    + rewrite (python_int_long a Ha Hl). reflexivity.
    + rewrite (python_int_long b Hb Hl). destruct (python_int a); reflexivity.
    + rewrite (python_int_long c Hc Hl).
      destruct (python_int a), (python_int b); reflexivity.
Qed.

Lemma X14_witness :
  exists hh mm ss,
    python_int "00" = Some hh /\ python_int "90" = Some mm /\ python_int "07" = Some ss
    /\ 0 <= hh /\ 0 <= mm /\ 0 <= ss
    /\ parse_wait "00:90:07" Stub.empty_world
       = (Ok (hh * 3600 + mm * 60 + ss), Stub.empty_world)
    /\ 0 <= hh * 3600 + mm * 60 + ss.
Proof.
  apply (proj1 (X14_unsigned_wait_is_not_negative "00:90:07" "00" "90" "07"
                  Stub.empty_world eq_refl eq_refl eq_refl eq_refl));
    cbn; lia.
Defined.
